(** * ImageStegano: the encryption-and-embedding core

    A shallow embedding of [utils/stego_engine.py] and
    [utils/crypto_engine.py], and the properties of the two engines.

    Conventions of the embedding.
    - A Python [str] is a [string]: a sequence of characters with code
      points below 256.  Message literals carry the UTF-8 bytes of the
      source text (the pictographs of the user messages).
    - A Python [int] is a [Z]; [//] is [Z.div] (both round down).
    - An exception is a value of [exn]; a call that may raise returns an
      [outcome].  Every class used by the engines derives from Python's
      [Exception], so [except Exception] catches each of them.
    - The file system is a finite map from files to their contents; a
      file is named by [realpath] of a path, which the operating system
      decides (two paths that name one file have one [realpath]).  A
      function that writes threads the map through explicitly.
    - Libraries the engines call (Pillow, stegano, cryptography, hashlib)
      are interfaces: type classes whose fields are the operations used
      and the contract relied on. *)

From stdpp Require Import base gmap strings list sorting finite vector.
From Stdlib Require Import ZArith NArith Ascii String.
From Stdlib Require Import DecimalString DecimalZ DecimalNat DecimalFacts.
From Stdlib.Strings Require Import Byte.

Open Scope string_scope.
Open Scope list_scope.
Open Scope Z_scope.

(** ** Exceptions and outcomes *)

Inductive exn_class :=
  | ValueError
  | KeyError
  | TypeError
  | AssertionError
  | IndexError
  | FileNotFoundError
  | OSError
  | UnidentifiedImageError
  | InvalidTag
  | BinasciiError
  | JSONDecodeError
  | UnicodeDecodeError
  | Exception.

Record exn := Exn { exn_cls : exn_class; exn_msg : string }.

Inductive outcome (A : Type) :=
  | Ret (a : A)
  | Raise (e : exn).
Arguments Ret {A} a.
Arguments Raise {A} e.

#[global] Instance exn_class_eq_dec : EqDecision exn_class.
Proof. solve_decision. Defined.

#[global] Instance outcome_ret : MRet outcome := λ A a, Ret a.
#[global] Instance outcome_bind : MBind outcome :=
  λ A B f m, match m with Ret a => f a | Raise e => Raise e end.

(** [try: body except Exception as e: handler e] *)
Definition try_except {A} (body : outcome A) (handler : exn → outcome A) : outcome A :=
  match body with
  | Ret a => Ret a
  | Raise e => handler e
  end.

(** [str(e)] *)
Definition str_exn (e : exn) : string := exn_msg e.

(** [str(n)] for an int *)
Definition str_int (n : Z) : string := NilZero.string_of_int (Z.to_int n).

(** ** Values held in the statistics dictionaries

    [VFloat a b] is the float [a / b] and [VPercent a b] the float
    [(a / b) * 100]; both are carried symbolically. *)

Inductive value :=
  | VInt (n : Z)
  | VStr (s : string)
  | VFloat (num den : Z)
  | VPercent (num den : Z).

(** [f"{n/1024:.1f}"]: [n/1024] is an exact binary fraction, and the
    conversion rounds it to the nearest tenth, a tie to the even digit. *)
Definition format_kb_1f (n : Z) : string :=
  let t := 10 * Z.abs n in
  let q := t / 1024 in
  let r := t mod 1024 in
  let q' := if (512 <? r) || ((r =? 512) && Z.odd q) then q + 1 else q in
  (if n <? 0 then "-" else "") +:+ str_int (q' / 10) +:+ "." +:+ str_int (q' mod 10).

(** ** Images and files *)

(** A pixel is the tuple of its channel values. *)
Definition pixel := list Z.

(** A decoded image: what Pillow exposes of an [Image] object.
    [im_data = None] is an image whose header parses but whose pixel
    stream does not (loading it raises). *)
Record Image := {
  im_format : option string;
  im_mode : string;
  im_width : Z;
  im_height : Z;
  im_data : option (list pixel);
  im_info : list (string * string);
}.

(** A file: its length in bytes, and the image it decodes to when Pillow
    identifies it as one. *)
Record file := {
  f_size : Z;
  f_image : option Image;
}.

(** ** The operating system

    What the engines cannot see in a path string: the file it names, and
    whether the system lets a file be written or removed there.
    [realpath p] is the file named by [p]: [./a], [a] and [b/../a] name
    one file, a link names its target.  [refuses_write p] is the
    [OSError] that opening [p] for writing raises (a directory that is
    not there, a permission that is missing), if it raises;
    [refuses_remove p] the one that removing the file at [p] raises.  The
    engines create and remove files, never directories or links, so the
    three do not change while they run. *)

Class FileSystem := {
  realpath : string → string;
  refuses_write : string → option exn;
  refuses_remove : string → option exn;
}.

Section os.
Context `{FileSystem}.

Definition os_path_exists (fs : gmap string file) (p : string) : bool :=
  bool_decide (is_Some (fs !! realpath p)).

Definition os_path_getsize (fs : gmap string file) (p : string) : outcome Z :=
  match fs !! realpath p with
  | Some f => Ret (f_size f)
  | None => Raise (Exn FileNotFoundError ("No such file or directory: '" +:+ p +:+ "'"))
  end.

Definition os_remove (fs : gmap string file) (p : string) : outcome (gmap string file) :=
  match fs !! realpath p with
  | Some _ =>
      match refuses_remove p with
      | Some e => Raise e
      | None => Ret (delete (realpath p) fs)
      end
  | None => Raise (Exn FileNotFoundError ("No such file or directory: '" +:+ p +:+ "'"))
  end.

End os.

(** ** [pathlib]

    [Path(p)] keeps of [p] its root and its parts: the root is [//] when
    [p] opens with exactly two slashes and [/] when it opens with one or
    with more; the parts are what lies between slashes, the empty ones
    and the [.] ones dropped.  [str] joins them again, and gives [.] for
    the path with neither. *)

(** [s.split('/')] *)
Fixpoint split_slash (s : list ascii) : list (list ascii) :=
  match s with
  | [] => [[]]
  | c :: s' =>
      if bool_decide (c = "/"%char) then [] :: split_slash s'
      else match split_slash s' with
           | part :: parts => (c :: part) :: parts
           | [] => [[c]]
           end
  end.

Definition path_root (s : list ascii) : list ascii :=
  match s with
  | "/"%char :: "/"%char :: "/"%char :: _ => ["/"%char]
  | "/"%char :: "/"%char :: _ => ["/"%char; "/"%char]
  | "/"%char :: _ => ["/"%char]
  | _ => []
  end.

Definition path_parts (s : list ascii) : list (list ascii) :=
  filter (λ part, part ≠ [] ∧ part ≠ ["."%char]) (split_slash s).

(** ['/'.join(parts)] *)
Fixpoint join_slash (parts : list (list ascii)) : list ascii :=
  match parts with
  | [] => []
  | [part] => part
  | part :: parts' => part ++ "/"%char :: join_slash parts'
  end.

(** [str(path)] for a path of this root and these parts *)
Definition path_str (root : list ascii) (parts : list (list ascii)) : string :=
  match (root ++ join_slash parts)%list with
  | [] => "."
  | s => string_of_list_ascii s
  end.

(** [str(Path(p))] *)
Definition pathlib_str (p : string) : string :=
  path_str (path_root (list_ascii_of_string p)) (path_parts (list_ascii_of_string p)).

(** [name.rfind('.')] *)
Fixpoint rfind_dot (name : list ascii) (i : nat) : option nat :=
  match name with
  | [] => None
  | c :: name' =>
      match rfind_dot name' (S i) with
      | Some j => Some j
      | None => if bool_decide (c = "."%char) then Some i else None
      end
  end.

(** The name without [PurePath.suffix]: the suffix is the last dot of
    the name and what follows it, unless the dot opens or closes the
    name. *)
Definition path_stem (name : list ascii) : list ascii :=
  match rfind_dot name 0 with
  | Some i => if bool_decide (0 < i < List.length name - 1)%nat then take i name else name
  | None => name
  end.

(** [str(Path(p).with_suffix('.png'))]: the last part loses its suffix
    and gets [.png]; a path without parts has no name. *)
Definition with_suffix_png (p : string) : outcome string :=
  let root := path_root (list_ascii_of_string p) in
  let parts := path_parts (list_ascii_of_string p) in
  match last parts with
  | None => Raise (Exn ValueError ("PosixPath('" +:+ path_str root parts
                                     +:+ "') has an empty name"))
  | Some name =>
      Ret (path_str root
             (removelast parts ++ [path_stem name ++ list_ascii_of_string ".png"])%list)
  end.

(** ** Pillow

    The two facts about Pillow that are not determined by the image
    record: how [convert] maps a pixel from one mode to another, and how
    long the PNG file is that [save(format='PNG', optimize=True)] writes. *)

Class Pillow := {
  convert_pixel : string → string → pixel → pixel;
  png_size : Image → Z;
}.

(** Whatever the mode it comes from, a pixel converted to RGB has three
    channels. *)
Class PillowContract `{Pillow} : Prop := {
  convert_rgb_bands : ∀ mode p, List.length (convert_pixel mode "RGB" p) = 3%nat;
}.

(** [Image.open(p)]: lazy, reads the header only. *)
Definition Image_open `{FileSystem} (fs : gmap string file) (p : string) : outcome Image :=
  match fs !! realpath p with
  | None => Raise (Exn FileNotFoundError ("No such file or directory: '" +:+ p +:+ "'"))
  | Some f =>
      match f_image f with
      | Some img => Ret img
      | None => Raise (Exn UnidentifiedImageError ("cannot identify image file '" +:+ p +:+ "'"))
      end
  end.

(** [img.load()], forced by [convert] and [getdata]. *)
Definition Image_load (img : Image) : outcome (list pixel) :=
  match im_data img with
  | Some d => Ret d
  | None => Raise (Exn OSError "image file is truncated")
  end.

(** [img.convert(mode)]: a new in-memory image. *)
Definition Image_convert `{Pillow} (img : Image) (mode : string) : outcome Image :=
  d ← Image_load img;
  Ret {| im_format := None; im_mode := mode;
         im_width := im_width img; im_height := im_height img;
         im_data := Some (convert_pixel (im_mode img) mode <$> d);
         im_info := im_info img |}.

Definition mode_bands (mode : string) : nat :=
  if bool_decide (mode = "RGBA") then 4%nat
  else if bool_decide (mode = "RGB") then 3%nat
  else 1%nat.

(** [Image.new(mode, size)]: black, no metadata. *)
Definition Image_new (mode : string) (w h : Z) : Image :=
  {| im_format := None; im_mode := mode; im_width := w; im_height := h;
     im_data := Some (replicate (Z.to_nat (w * h)) (replicate (mode_bands mode) 0));
     im_info := [] |}.

(** [img.putdata(data)]: copies [data] over the pixels from the upper
    left corner on. *)
Definition Image_putdata (img : Image) (data : list pixel) : Image :=
  let old := default [] (im_data img) in
  {| im_format := im_format img; im_mode := im_mode img;
     im_width := im_width img; im_height := im_height img;
     im_data := Some (take (List.length old) data ++ drop (List.length data) old);
     im_info := im_info img |}.

(** What [Image.open] returns for a file written by [save(format='PNG')]. *)
Definition png_reload (img : Image) : Image :=
  {| im_format := Some "PNG"; im_mode := im_mode img;
     im_width := im_width img; im_height := im_height img;
     im_data := im_data img; im_info := im_info img |}.

Definition png_modes : list string := ["1"; "L"; "LA"; "I"; "P"; "RGB"; "RGBA"].

(** [img.save(p, format='PNG', optimize=True)]: the pixels are loaded,
    the file is opened for writing, and the PNG writer runs; it refuses
    a mode PNG does not have. *)
Definition Image_save `{FileSystem} `{Pillow} (fs : gmap string file) (img : Image)
    (p : string) : outcome (gmap string file) :=
  _ ← Image_load img;
  match refuses_write p with
  | Some e => Raise e
  | None =>
      if bool_decide (im_mode img ∈ png_modes) then
        Ret (<[realpath p := {| f_size := png_size img;
                                f_image := Some (png_reload img) |}]> fs)
      else Raise (Exn OSError ("cannot write mode " +:+ im_mode img +:+ " as PNG"))
  end.

(** ** stegano

    [lsb.hide] and [lsb.reveal] on a decoded image, and the contract of
    the pair: a message hidden in an image is revealed from the PNG file
    the result is saved to. *)

Class Stegano := {
  lsb_hide : Image → string → outcome Image;
  lsb_reveal : Image → outcome (option string);
}.

Class SteganoContract `{Stegano} : Prop := {
  lsb_reveal_hide : ∀ img msg img',
    lsb_hide img msg = Ret img' → lsb_reveal (png_reload img') = Ret (Some msg);
}.

(** ** Functions that write files

    [io A] threads the file system; what was written before an exception
    stays written. *)

Definition io (A : Type) : Type := gmap string file → gmap string file * outcome A.

#[global] Instance io_ret : MRet io := λ A a fs, (fs, Ret a).
#[global] Instance io_bind : MBind io :=
  λ A B f m fs, match m fs with
                | (fs', Ret a) => f a fs'
                | (fs', Raise e) => (fs', Raise e)
                end.

Definition io_read {A} (f : gmap string file → outcome A) : io A := λ fs, (fs, f fs).
Definition io_pure {A} (r : outcome A) : io A := λ fs, (fs, r).
Definition io_raise {A} (e : exn) : io A := λ fs, (fs, Raise e).
Definition io_write (f : gmap string file → outcome (gmap string file)) : io () :=
  λ fs, match f fs with
        | Ret fs' => (fs', Ret ())
        | Raise e => (fs, Raise e)
        end.


(** ** Bytes and text

    A Python [bytes] is a list of [byte]. *)

Definition bytes := list byte.

Definition byte_of_N (n : N) : byte := default x00 (Byte.of_N n).

#[global] Instance byte_eq_decision : EqDecision byte :=
  λ x y,
    match Byte.eqb x y as b return Byte.eqb x y = b → Decision (x = y) with
    | true => λ Heq, left (Byte.byte_dec_bl x y Heq)
    | false => λ Hne, right (Byte.eqb_false Hne)
    end eq_refl.

(** The UTF-8 form of one character: one byte below U+0080, two up to
    U+00FF. *)
Definition utf8_char (c : ascii) : bytes :=
  let n := N_of_ascii c in
  if (n <? 128)%N then [byte_of_N n]
  else [byte_of_N (192 + n / 64); byte_of_N (128 + n mod 64)].

(** [s.encode('utf-8')] *)
Definition utf8_encode (s : string) : bytes :=
  flat_map utf8_char (list_ascii_of_string s).

(** [b.decode('utf-8')].  A sequence that encodes a code point above
    U+00FF has no counterpart in [string] and is refused like an invalid
    one, where Python decodes it: what is proved of [utf8_decode] is
    proved of Python on the bytes of strings with code points below
    256. *)
Fixpoint utf8_decode_list (b : bytes) : option (list ascii) :=
  match b with
  | [] => Some []
  | x :: b' =>
      let n := Byte.to_N x in
      if (n <? 128)%N then cons (ascii_of_N n) <$> utf8_decode_list b'
      else if (n =? 194)%N || (n =? 195)%N then
        match b' with
        | y :: b'' =>
            let m := Byte.to_N y in
            if (128 <=? m)%N && (m <? 192)%N then
              cons (ascii_of_N ((n - 192) * 64 + (m - 128))) <$> utf8_decode_list b''
            else None
        | [] => None
        end
      else None
  end.

Definition utf8_decode (b : bytes) : outcome string :=
  match utf8_decode_list b with
  | Some l => Ret (string_of_list_ascii l)
  | None => Raise (Exn UnicodeDecodeError "'utf-8' codec can't decode bytes")
  end.

(** ** [base64] *)

Definition b64_alphabet : list ascii :=
  list_ascii_of_string "ABCDEFGHIJKLMNOPQRSTUVWXYZabcdefghijklmnopqrstuvwxyz0123456789+/".

(** [table_b2a_base64] *)
Definition b64_char (n : N) : ascii := nth (N.to_nat n) b64_alphabet "A"%char.

(** [table_a2b_base64]: the value of a character of the alphabet *)
Fixpoint index_of (c : ascii) (l : list ascii) (i : N) : option N :=
  match l with
  | [] => None
  | x :: l' => if bool_decide (x = c) then Some i else index_of c l' (i + 1)%N
  end.

Definition b64_value (c : ascii) : option N := index_of c b64_alphabet 0.

Definition BASE64_PAD : ascii := "="%char.

(** [binascii.b2a_base64(b, newline=False)]: the characters written *)
Fixpoint b2a_base64 (b : bytes) : list ascii :=
  match b with
  | [] => []
  | [x] =>
      let n := Byte.to_N x in
      [b64_char (N.shiftr n 2); b64_char (N.shiftl (N.land n 3) 4); BASE64_PAD; BASE64_PAD]
  | [x; y] =>
      let n := Byte.to_N x in
      let m := Byte.to_N y in
      [b64_char (N.shiftr n 2);
       b64_char (N.lor (N.shiftl (N.land n 3) 4) (N.shiftr m 4));
       b64_char (N.shiftl (N.land m 15) 2);
       BASE64_PAD]
  | x :: y :: z :: b' =>
      let n := Byte.to_N x in
      let m := Byte.to_N y in
      let k := Byte.to_N z in
      b64_char (N.shiftr n 2)
      :: b64_char (N.lor (N.shiftl (N.land n 3) 4) (N.shiftr m 4))
      :: b64_char (N.lor (N.shiftl (N.land m 15) 2) (N.shiftr k 6))
      :: b64_char (N.land k 63)
      :: b2a_base64 b'
  end.

(** [base64.b64encode(b)] *)
Definition b64encode (b : bytes) : bytes := byte_of_ascii <$> b2a_base64 b.

(** [binascii.a2b_base64(s)], not strict: a character outside the
    alphabet is skipped, padding ends the input once a quad is complete,
    and what the last character carries beyond a whole byte is dropped. *)
Fixpoint a2b_base64 (s : list ascii) (quad_pos : nat) (leftchar : N) (pads : nat)
    (out : bytes) : outcome bytes :=
  match s with
  | [] =>
      match quad_pos with
      | 0%nat => Ret out
      | 1%nat =>
          Raise (Exn BinasciiError
                   ("Invalid base64-encoded string: number of data characters ("
                      +:+ str_int (Z.of_nat (List.length out) / 3 * 4 + 1)
                      +:+ ") cannot be 1 more than a multiple of 4"))
      | _ => Raise (Exn BinasciiError "Incorrect padding")
      end
  | c :: s' =>
      if bool_decide (c = BASE64_PAD) then
        if bool_decide (2 ≤ quad_pos)%nat then
          if bool_decide (4 ≤ quad_pos + S pads)%nat then Ret out
          else a2b_base64 s' quad_pos leftchar (S pads) out
        else a2b_base64 s' quad_pos leftchar pads out
      else
        match b64_value c with
        | None => a2b_base64 s' quad_pos leftchar pads out
        | Some this_ch =>
            match quad_pos with
            | 0%nat => a2b_base64 s' 1%nat this_ch 0%nat out
            | 1%nat =>
                a2b_base64 s' 2%nat (N.land this_ch 15) 0%nat
                  (out ++ [byte_of_N (N.lor (N.shiftl leftchar 2) (N.shiftr this_ch 4))])
            | 2%nat =>
                a2b_base64 s' 3%nat (N.land this_ch 3) 0%nat
                  (out ++ [byte_of_N (N.lor (N.shiftl leftchar 4) (N.shiftr this_ch 2))])
            | _ =>
                a2b_base64 s' 0%nat 0%N 0%nat
                  (out ++ [byte_of_N (N.lor (N.shiftl leftchar 6) this_ch)])
            end
        end
  end.

(** [base64.b64decode(s)] for a [str] argument *)
Definition b64decode (s : string) : outcome bytes :=
  let l := list_ascii_of_string s in
  if bool_decide (Forall (λ c, (N_of_ascii c < 128)%N) l) then a2b_base64 l 0%nat 0%N 0%nat []
  else Raise (Exn ValueError "string argument should contain only ASCII characters").

(** ** Dictionaries and [json]

    A [dict] keeps its items in insertion order; assigning to a key that
    is present replaces the value where it stands.  The JSON modelled is
    the fragment both engines write: one object whose values are strings
    or integers.  Outside the fragment are floats, [true], [false] and
    [null], arrays, nested objects and [\u] escapes above [00ff]: Python
    parses them, while [json_loads] refuses them like text that is not
    JSON, so what is proved of [json_loads] on arbitrary text is proved
    of Python on text of the fragment.  The text of a [JSONDecodeError]
    is not modelled. *)

Inductive jvalue :=
  | JStr (s : string)
  | JInt (n : Z).

#[global] Instance jvalue_eq_dec : EqDecision jvalue.
Proof. solve_decision. Defined.

Definition pydict := list (string * jvalue).

(** [d[k] = v] *)
Fixpoint dict_set (k : string) (v : jvalue) (d : pydict) : pydict :=
  match d with
  | [] => [(k, v)]
  | (k', v') :: d' =>
      if bool_decide (k' = k) then (k, v) :: d' else (k', v') :: dict_set k v d'
  end.

(** [d.get(k)] *)
Fixpoint dict_get (k : string) (d : pydict) : option jvalue :=
  match d with
  | [] => None
  | (k', v') :: d' => if bool_decide (k' = k) then Some v' else dict_get k d'
  end.

(** [d.update(items)], and [dict(items)] as [dict_update [] items] *)
Definition dict_update (d : pydict) (items : list (string * jvalue)) : pydict :=
  fold_left (λ acc kv, dict_set kv.1 kv.2 acc) items d.

Definition QUOTE : ascii := "034"%char.
Definition BACKSLASH : ascii := "\"%char.

Definition hex_digit (n : N) : ascii :=
  nth (N.to_nat n) (list_ascii_of_string "0123456789abcdef") "0"%char.

(** One character of a string under [ensure_ascii=True]. *)
Definition json_escape (c : ascii) : list ascii :=
  if bool_decide (c = QUOTE) then [BACKSLASH; QUOTE]
  else if bool_decide (c = BACKSLASH) then [BACKSLASH; BACKSLASH]
  else if bool_decide (c = "010"%char) then [BACKSLASH; "n"%char]
  else if bool_decide (c = "013"%char) then [BACKSLASH; "r"%char]
  else if bool_decide (c = "009"%char) then [BACKSLASH; "t"%char]
  else if bool_decide (c = "008"%char) then [BACKSLASH; "b"%char]
  else if bool_decide (c = "012"%char) then [BACKSLASH; "f"%char]
  else
    let n := N_of_ascii c in
    if (32 <=? n)%N && (n <=? 126)%N then [c]
    else [BACKSLASH; "u"%char; "0"%char; "0"%char;
          hex_digit (n / 16); hex_digit (n mod 16)].

Definition encode_basestring_ascii (s : string) : list ascii :=
  QUOTE :: flat_map json_escape (list_ascii_of_string s) ++ [QUOTE].

Definition json_encode_value (v : jvalue) : list ascii :=
  match v with
  | JStr s => encode_basestring_ascii s
  | JInt n => list_ascii_of_string (str_int n)
  end.

Definition json_encode_item (key_sep : list ascii) (kv : string * jvalue) : list ascii :=
  encode_basestring_ascii kv.1 ++ key_sep ++ json_encode_value kv.2.

Fixpoint json_encode_items (item_sep key_sep : list ascii) (d : pydict) : list ascii :=
  match d with
  | [] => []
  | [kv] => json_encode_item key_sep kv
  | kv :: d' =>
      json_encode_item key_sep kv ++ item_sep ++ json_encode_items item_sep key_sep d'
  end.

(** The order of [sorted(d.items())]: by key. *)
Definition key_le (a b : string * jvalue) : Prop := String.leb a.1 b.1 = true.

#[global] Instance key_le_dec : RelDecision key_le.
Proof. intros a b. unfold key_le. apply _. Defined.

(** [json.dumps(d, sort_keys=..., separators=(item_sep, key_sep))];
    the default separators are [(", ", ": ")]. *)
Definition json_dumps (d : pydict) (sort_keys : bool) (item_sep key_sep : string) : string :=
  let items := if sort_keys then merge_sort key_le d else d in
  string_of_list_ascii
    ("{"%char
       :: json_encode_items (list_ascii_of_string item_sep) (list_ascii_of_string key_sep) items
       ++ ["}"%char]).

Definition is_ws (c : ascii) : bool :=
  bool_decide (c ∈ [" "%char; "009"%char; "010"%char; "013"%char]).

Fixpoint skip_ws (s : list ascii) : list ascii :=
  match s with
  | c :: s' => if is_ws c then skip_ws s' else s
  | [] => []
  end.

Definition hex_value (c : ascii) : option N :=
  let n := N_of_ascii c in
  if (48 <=? n)%N && (n <=? 57)%N then Some (n - 48)%N
  else if (97 <=? n)%N && (n <=? 102)%N then Some (n - 87)%N
  else if (65 <=? n)%N && (n <=? 70)%N then Some (n - 55)%N
  else None.

(** The character a backslash escape stands for. *)
Definition json_unescape (c : ascii) : option ascii :=
  if bool_decide (c = QUOTE) then Some QUOTE
  else if bool_decide (c = BACKSLASH) then Some BACKSLASH
  else if bool_decide (c = "/"%char) then Some "/"%char
  else if bool_decide (c = "b"%char) then Some "008"%char
  else if bool_decide (c = "f"%char) then Some "012"%char
  else if bool_decide (c = "n"%char) then Some "010"%char
  else if bool_decide (c = "r"%char) then Some "013"%char
  else if bool_decide (c = "t"%char) then Some "009"%char
  else None.

(** [scanstring], strict, from the character after the opening quote:
    the string and the text after its closing quote. *)
Fixpoint scanstring (s : list ascii) : option (list ascii * list ascii) :=
  match s with
  | [] => None
  | c :: s' =>
      if bool_decide (c = QUOTE) then Some ([], s')
      else if bool_decide (c = BACKSLASH) then
        match s' with
        | [] => None
        | e :: s'' =>
            if bool_decide (e = "u"%char) then
              match s'' with
              | h1 :: h2 :: h3 :: h4 :: s3 =>
                  match hex_value h1, hex_value h2, hex_value h3, hex_value h4 with
                  | Some a, Some b, Some c, Some d =>
                      let n := (((a * 16 + b) * 16 + c) * 16 + d)%N in
                      if (n <? 256)%N then
                        match scanstring s3 with
                        | Some (str, rest) => Some (ascii_of_N n :: str, rest)
                        | None => None
                        end
                      else None
                  | _, _, _, _ => None
                  end
              | _ => None
              end
            else
              match json_unescape e with
              | Some ch =>
                  match scanstring s'' with
                  | Some (str, rest) => Some (ch :: str, rest)
                  | None => None
                  end
              | None => None
              end
        end
      else if (N_of_ascii c <? 32)%N then None
      else
        match scanstring s' with
        | Some (str, rest) => Some (c :: str, rest)
        | None => None
        end
  end.

Definition is_digit (c : ascii) : bool :=
  (48 <=? N_of_ascii c)%N && (N_of_ascii c <=? 57)%N.

Fixpoint span_digits (s : list ascii) : list ascii * list ascii :=
  match s with
  | c :: s' =>
      if is_digit c then let '(ds, rest) := span_digits s' in (c :: ds, rest)
      else ([], s)
  | [] => ([], [])
  end.

(** An integer literal: an optional minus sign, then a zero or a run of
    digits that does not start with a zero; not followed by a fraction or
    an exponent. *)
Definition scan_int (s : list ascii) : option (Z * list ascii) :=
  let '(neg, s1) := match s with
                    | "-"%char :: s' => (true, s')
                    | _ => (false, s)
                    end in
  let '(ds, rest) := span_digits s1 in
  match ds with
  | [] => None
  | d :: ds' =>
      if bool_decide (d = "0"%char) && negb (bool_decide (ds' = [])) then None
      else
        match rest with
        | c :: _ =>
            if bool_decide (c ∈ ["."%char; "e"%char; "E"%char]) then None
            else
              match NilZero.uint_of_string (string_of_list_ascii ds) with
              | Some u => Some (if neg then - Z.of_uint u else Z.of_uint u, rest)
              | None => None
              end
        | [] =>
            match NilZero.uint_of_string (string_of_list_ascii ds) with
            | Some u => Some (if neg then - Z.of_uint u else Z.of_uint u, rest)
            | None => None
            end
        end
  end.

Definition scan_value (s : list ascii) : option (jvalue * list ascii) :=
  match s with
  | c :: s' =>
      if bool_decide (c = QUOTE) then
        match scanstring s' with
        | Some (str, rest) => Some (JStr (string_of_list_ascii str), rest)
        | None => None
        end
      else
        match scan_int s with
        | Some (n, rest) => Some (JInt n, rest)
        | None => None
        end
  | [] => None
  end.

(** The members of an object, from the character after the opening quote
    of the first key.  [fuel] bounds the number of members. *)
Fixpoint parse_members (fuel : nat) (s : list ascii)
    : option (list (string * jvalue) * list ascii) :=
  match fuel with
  | O => None
  | S fuel' =>
      match scanstring s with
      | None => None
      | Some (key, s1) =>
          match skip_ws s1 with
          | c :: s2 =>
              if bool_decide (c = ":"%char) then
                match scan_value (skip_ws s2) with
                | None => None
                | Some (v, s3) =>
                    match skip_ws s3 with
                    | c' :: s4 =>
                        if bool_decide (c' = "}"%char) then
                          Some ([(string_of_list_ascii key, v)], s4)
                        else if bool_decide (c' = ","%char) then
                          match skip_ws s4 with
                          | q :: s5 =>
                              if bool_decide (q = QUOTE) then
                                match parse_members fuel' s5 with
                                | Some (rest, s6) =>
                                    Some ((string_of_list_ascii key, v) :: rest, s6)
                                | None => None
                                end
                              else None
                          | [] => None
                          end
                        else None
                    | [] => None
                    end
                end
              else None
          | [] => None
          end
      end
  end.

Definition parse_object (s : list ascii) : option (pydict * list ascii) :=
  match skip_ws s with
  | c :: s1 =>
      if bool_decide (c = "{"%char) then
        match skip_ws s1 with
        | c' :: s2 =>
            if bool_decide (c' = "}"%char) then Some ([], s2)
            else if bool_decide (c' = QUOTE) then
              match parse_members (List.length s2) s2 with
              | Some (items, rest) => Some (dict_update [] items, rest)
              | None => None
              end
            else None
        | [] => None
        end
      else None
  | [] => None
  end.

(** [json.loads(s)] *)
Definition json_loads (s : string) : outcome pydict :=
  match parse_object (list_ascii_of_string s) with
  | Some (d, rest) =>
      match skip_ws rest with
      | [] => Ret d
      | _ => Raise (Exn JSONDecodeError "Extra data")
      end
  | None => Raise (Exn JSONDecodeError "Expecting value")
  end.

(** [d[k]] on a statistics dictionary, where an int is expected *)
Definition stats_int (d : gmap string value) (k : string) : outcome Z :=
  match d !! k with
  | Some (VInt n) => Ret n
  | Some _ => Raise (Exn TypeError ("'" +:+ k +:+ "' is not an int"))
  | None => Raise (Exn KeyError ("'" +:+ k +:+ "'"))
  end.

Definition stats_item (d : gmap string value) (k : string) : outcome value :=
  match d !! k with
  | Some v => Ret v
  | None => Raise (Exn KeyError ("'" +:+ k +:+ "'"))
  end.

(** ** [class StegoEngine] *)

Module StegoEngine.

Definition SUPPORTED_FORMATS : list string := ["PNG"; "BMP"; "TIFF"].
Definition MIN_DIMENSION : Z := 100.
Definition METADATA_OVERHEAD : Z := 200.

Section engine.
Context `{FileSystem} `{Pillow}.

(** [calculate_capacity(image_path)] *)
Definition calculate_capacity (fs : gmap string file) (image_path : string) : outcome Z :=
  img ← Image_open fs image_path;
  let width := im_width img in
  let height := im_height img in
  img ← (if bool_decide (im_mode img ∉ ["RGB"; "RGBA"]) then Image_convert img "RGB"
         else Ret img);
  let channels := if bool_decide (im_mode img = "RGB") then 3 else 4 in
  let total_bits := width * height * channels in
  let max_bytes := total_bits / 8 - METADATA_OVERHEAD in
  Ret max_bytes.

(** [validate_image(image_path)]: [(is_valid, message, stats)] *)
Definition validate_image (fs : gmap string file) (image_path : string)
    : outcome (bool * string * gmap string value) :=
  try_except
    (if negb (os_path_exists fs image_path) then
       Ret (false, "Image file not found", ∅)
     else
       img ← Image_open fs image_path;
       let width := im_width img in
       let height := im_height img in
       let format_name :=
         match im_format img with
         | Some f => if bool_decide (f = "") then "Unknown" else f
         | None => "Unknown"
         end in
       let mode := im_mode img in
       size ← os_path_getsize fs image_path;
       let stats : gmap string value :=
         <["pixels" := VInt (width * height)]>
         (<["size_kb" := VFloat size 1024]>
         (<["mode" := VStr mode]>
         (<["format" := VStr format_name]>
         (<["height" := VInt height]>
         (<["width" := VInt width]> ∅))))) in
       if bool_decide (format_name ∉ SUPPORTED_FORMATS) then
         Ret (false,
              "❌ Format " +:+ format_name +:+ " not supported. Use PNG/BMP/TIFF",
              stats)
       else if (width <? MIN_DIMENSION) || (height <? MIN_DIMENSION) then
         Ret (false,
              "❌ Image too small (" +:+ str_int width +:+ "x" +:+ str_int height
                +:+ "). Minimum: " +:+ str_int MIN_DIMENSION +:+ "x" +:+ str_int MIN_DIMENSION,
              stats)
       else
         capacity ← calculate_capacity fs image_path;
         let stats :=
           <["capacity_kb" := VFloat capacity 1024]>
           (<["capacity_bytes" := VInt capacity]> stats) in
         if capacity <? 1000 then
           Ret (false,
                "❌ Insufficient capacity (" +:+ str_int capacity +:+ " bytes)",
                stats)
         else
           Ret (true,
                "✅ Valid image: " +:+ str_int width +:+ "x" +:+ str_int height
                  +:+ ", " +:+ format_kb_1f capacity +:+ " KB capacity",
                stats))
    (λ e, Ret (false, "❌ Invalid image: " +:+ str_exn e, ∅)).

(** [prepare_image(image_path, output_path=None)] *)
Definition prepare_image (image_path : string) (output_path : option string) : io string :=
  img ← io_read (λ fs, Image_open fs image_path);
  img ← io_pure (if bool_decide (im_mode img ∉ ["RGB"; "RGBA"]) then Image_convert img "RGB"
                 else Ret img);
  data ← io_pure (Image_load img);
  let clean_img :=
    Image_putdata (Image_new (im_mode img) (im_width img) (im_height img)) data in
  output_path ← match output_path with
                | Some p => mret p
                | None => io_pure (with_suffix_png image_path)
                end;
  _ ← io_write (λ fs, Image_save fs clean_img output_path);
  mret output_path.

Context `{Stegano}.

(** [hide(cover_path, secret_data, output_path)] *)
Definition hide (cover_path secret_data output_path : string) : io (gmap string value) :=
  '(is_valid, msg, stats) ← io_read (λ fs, validate_image fs cover_path);
  if negb is_valid then io_raise (Exn ValueError msg)
  else
    let data_size := Z.of_nat (List.length (utf8_encode secret_data)) in
    capacity_bytes ← io_pure (stats_int stats "capacity_bytes");
    if capacity_bytes <? data_size then
      io_raise (Exn ValueError
        ("Data too large (" +:+ str_int data_size +:+ " bytes). "
           +:+ "Maximum: " +:+ str_int capacity_bytes +:+ " bytes"))
    else
      prepared_path ← prepare_image cover_path None;
      stego_img ← io_read (λ fs, img ← Image_open fs prepared_path;
                                 lsb_hide img secret_data);
      _ ← io_write (λ fs, Image_save fs stego_img output_path);
      _ ← io_write (λ fs,
             if bool_decide (prepared_path ≠ cover_path) && os_path_exists fs prepared_path
             then os_remove fs prepared_path
             else Ret fs);
      size_kb ← io_pure (stats_item stats "size_kb");
      stego_size ← io_read (λ fs, os_path_getsize fs output_path);
      width ← io_pure (stats_int stats "width");
      height ← io_pure (stats_int stats "height");
      format ← io_pure (stats_item stats "format");
      let result_stats : gmap string value :=
        <["format" := format]>
        (<["dimensions" := VStr (str_int width +:+ "x" +:+ str_int height)]>
        (<["capacity_used_percent" := VPercent data_size capacity_bytes]>
        (<["payload_kb" := VFloat data_size 1024]>
        (<["payload_bytes" := VInt data_size]>
        (<["stego_size_kb" := VFloat stego_size 1024]>
        (<["cover_size_kb" := size_kb]> ∅)))))) in
      mret result_stats.

(** [reveal(stego_path)] *)
Definition reveal (fs : gmap string file) (stego_path : string) : outcome string :=
  if negb (os_path_exists fs stego_path) then
    Raise (Exn ValueError "Stego image not found")
  else
    try_except
      (secret_data ← (img ← Image_open fs stego_path; lsb_reveal img);
       match secret_data with
       | None => Raise (Exn ValueError "No hidden data detected in image")
       | Some s =>
           if bool_decide (String.length s = 0%nat) then
             Raise (Exn ValueError "No hidden data detected in image")
           else Ret s
       end)
      (λ e, Raise (Exn ValueError ("Extraction failed: " +:+ str_exn e))).

End engine.
End StegoEngine.

(** ** cryptography and hashlib

    [AESGCM(key).encrypt(nonce, data, aad)] returns the ciphertext
    followed by the tag; [decrypt] raises [InvalidTag] when the tag does
    not verify.  The contract is what AES-GCM guarantees outright: what
    was encrypted decrypts, the tag is 16 bytes, and with a 32-byte key
    and a 12-byte nonce [decrypt] raises nothing but [InvalidTag]. *)

Class Cryptography := {
  aesgcm_encrypt : bytes → bytes → bytes → bytes → bytes;
  aesgcm_decrypt : bytes → bytes → bytes → bytes → outcome bytes;
  sha256_hexdigest : bytes → string;
}.

Class CryptographyContract `{Cryptography} : Prop := {
  aesgcm_decrypt_encrypt : ∀ key nonce data aad,
    List.length key = 32%nat → List.length nonce = 12%nat →
    aesgcm_decrypt key nonce (aesgcm_encrypt key nonce data aad) aad = Ret data;
  aesgcm_encrypt_length : ∀ key nonce data aad,
    List.length (aesgcm_encrypt key nonce data aad) = (List.length data + 16)%nat;
  aesgcm_decrypt_raises : ∀ key nonce data aad e,
    List.length key = 32%nat → List.length nonce = 12%nat →
    aesgcm_decrypt key nonce data aad = Raise e → exn_cls e = InvalidTag;
}.


(** What makes AES-GCM an authenticated cipher, for a 32-byte key and a
    12-byte nonce.
    - [decrypt] recomputes the tag and compares: it returns a plaintext
      only for the very bytes [encrypt] makes of that plaintext.
    - The ciphertext is the plaintext under a key stream (counter mode):
      it determines the plaintext. *)
Class AuthenticationContract `{Cryptography} : Prop := {
  aesgcm_decrypt_sound : ∀ key nonce data aad plaintext,
    List.length key = 32%nat → List.length nonce = 12%nat →
    aesgcm_decrypt key nonce data aad = Ret plaintext →
    data = aesgcm_encrypt key nonce plaintext aad;
  aesgcm_ciphertext_inj : ∀ key nonce p p' aad aad',
    List.length key = 32%nat → List.length nonce = 12%nat →
    List.length p = List.length p' →
    take (List.length p) (aesgcm_encrypt key nonce p aad)
      = take (List.length p') (aesgcm_encrypt key nonce p' aad') →
    p = p';
}.


(** [PBKDF2HMAC(algorithm=SHA256(), length, salt, iterations).derive(material)];
    the contract: the derived key has the length asked for. *)

Class Pbkdf2 := {
  pbkdf2_hmac_sha256 : nat → bytes → N → bytes → bytes;
}.

Class Pbkdf2Contract `{Pbkdf2} : Prop := {
  pbkdf2_length : ∀ length salt iterations material,
    List.length (pbkdf2_hmac_sha256 length salt iterations material) = length;
}.

(** ** The state [encrypt] runs in

    The dict objects that exist, by identity; the bytes the CSPRNG will
    hand out and how many it has handed out; the clock. *)

Record world := {
  w_heap : gmap positive pydict;
  w_entropy : nat → byte;
  w_cursor : nat;
  w_utcnow : string;
}.

(** [os.urandom(n)] *)
Definition os_urandom (n : nat) (w : world) : bytes * world :=
  (w_entropy w <$> seq (w_cursor w) n,
   {| w_heap := w_heap w; w_entropy := w_entropy w;
      w_cursor := (w_cursor w + n)%nat; w_utcnow := w_utcnow w |}).

Definition heap_store (l : positive) (d : pydict) (w : world) : world :=
  {| w_heap := <[l := d]> (w_heap w); w_entropy := w_entropy w;
     w_cursor := w_cursor w; w_utcnow := w_utcnow w |}.

(** A new [{}] *)
Definition heap_alloc (w : world) : positive * world :=
  let l := fresh (dom (w_heap w)) in (l, heap_store l [] w).

(** [except cls: handler] *)
Definition try_except_class {A} (cls : exn_class) (body : outcome A) (handler : outcome A)
    : outcome A :=
  match body with
  | Ret a => Ret a
  | Raise e => if bool_decide (exn_cls e = cls) then handler else Raise e
  end.

(** [bundle[k]], handed to [base64.b64decode] *)
Definition bundle_field (bundle : pydict) (k : string) : outcome string :=
  match dict_get k bundle with
  | Some (JStr s) => Ret s
  | Some (JInt _) =>
      Raise (Exn TypeError "argument should be a bytes-like object or ASCII string, not 'int'")
  | None => Raise (Exn KeyError ("'" +:+ k +:+ "'"))
  end.

(** ** [class CryptoEngine] *)

Module CryptoEngine.

Definition VERSION : string := "v2.0".
Definition KEY_SIZE : nat := 32.
Definition NONCE_SIZE : nat := 12.
Definition TAG_SIZE : nat := 16.
Definition PBKDF2_ITERATIONS : N := 600000.

(** An instance: the key its [AESGCM] object holds, and [key_hash]. *)
Record t := {
  aesgcm : bytes;
  key_hash : string;
}.

Section engine.
Context `{Cryptography}.

(** [CryptoEngine(key)] *)
Definition __init__ (key : bytes) : outcome t :=
  if bool_decide (List.length key ≠ KEY_SIZE) then
    Raise (Exn ValueError ("Key must be " +:+ str_int (Z.of_nat KEY_SIZE) +:+ " bytes"))
  else
    Ret {| aesgcm := key; key_hash := substring 0 16 (sha256_hexdigest key) |}.

(** [self.encrypt(plaintext, metadata)]; [metadata] is [None] or a
    reference to a dict of the caller. *)
Definition encrypt (self : t) (plaintext : bytes) (metadata : option positive)
    (w : world) : world * outcome pydict :=
  let '(nonce, w) := os_urandom NONCE_SIZE w in
  (* meta = metadata or {} *)
  let '(meta, w) :=
    match metadata with
    | Some l =>
        match w_heap w !! l with
        | Some (_ :: _) => (l, w)
        | _ => heap_alloc w
        end
    | None => heap_alloc w
    end in
  let d :=
    dict_update (default [] (w_heap w !! meta))
      [("version", JStr VERSION);
       ("timestamp", JStr (w_utcnow w));
       ("key_hash", JStr (key_hash self));
       ("size", JInt (Z.of_nat (List.length plaintext)))] in
  let w := heap_store meta d w in
  let aad := utf8_encode (json_dumps d true ", " ": ") in
  let ciphertext := aesgcm_encrypt (aesgcm self) nonce plaintext aad in
  let ct := take (List.length ciphertext - TAG_SIZE)%nat ciphertext in
  let tag := drop (List.length ciphertext - TAG_SIZE)%nat ciphertext in
  (w,
   metadata_b64 ← utf8_decode (b64encode aad);
   nonce_b64 ← utf8_decode (b64encode nonce);
   ciphertext_b64 ← utf8_decode (b64encode ct);
   tag_b64 ← utf8_decode (b64encode tag);
   Ret [("version", JStr VERSION);
        ("metadata", JStr metadata_b64);
        ("nonce", JStr nonce_b64);
        ("ciphertext", JStr ciphertext_b64);
        ("tag", JStr tag_b64)]).

(** [self.decrypt(bundle)]: [(plaintext, metadata)] *)
Definition decrypt (self : t) (bundle : pydict) : outcome (bytes * pydict) :=
  nonce ← (s ← bundle_field bundle "nonce"; b64decode s);
  ct ← (s ← bundle_field bundle "ciphertext"; b64decode s);
  tag ← (s ← bundle_field bundle "tag"; b64decode s);
  aad ← (s ← bundle_field bundle "metadata"; b64decode s);
  let full_ct := ct ++ tag in
  try_except_class InvalidTag
    (plaintext ← aesgcm_decrypt (aesgcm self) nonce full_ct aad;
     metadata ← (s ← utf8_decode aad; json_loads s);
     if bool_decide (dict_get "key_hash" metadata ≠ Some (JStr (key_hash self))) then
       Raise (Exn ValueError "Key mismatch detected")
     else Ret (plaintext, metadata))
    (Raise (Exn ValueError "Authentication failed: Invalid key or tampered data")).

End engine.

(** [derive_key_from_password(password, salt=None)]: [(key, salt)] *)
Definition derive_key_from_password `{Pbkdf2} (password : string) (salt : option bytes)
    (w : world) : world * (bytes * bytes) :=
  let '(salt, w) :=
    match salt with
    | None => os_urandom 16 w
    | Some salt => (salt, w)
    end in
  let key := pbkdf2_hmac_sha256 KEY_SIZE salt PBKDF2_ITERATIONS (utf8_encode password) in
  (w, (key, salt)).

(** [create_bundle_string(bundle)] *)
Definition create_bundle_string (bundle : pydict) : outcome string :=
  let json_str := json_dumps bundle false "," ":" in
  utf8_decode (b64encode (utf8_encode json_str)).

(** [parse_bundle_string(bundle_str)] *)
Definition parse_bundle_string (bundle_str : string) : outcome pydict :=
  json_str ← (b ← b64decode bundle_str; utf8_decode b);
  json_loads json_str.

End CryptoEngine.

(** [quick_encrypt(key, data, metadata)] *)
Definition quick_encrypt `{Cryptography} (key data : bytes) (metadata : option positive)
    (w : world) : world * outcome string :=
  match CryptoEngine.__init__ key with
  | Raise e => (w, Raise e)
  | Ret crypto =>
      match CryptoEngine.encrypt crypto data metadata w with
      | (w', Ret bundle) => (w', CryptoEngine.create_bundle_string bundle)
      | (w', Raise e) => (w', Raise e)
      end
  end.

(** [quick_decrypt(key, bundle_str)] *)
Definition quick_decrypt `{Cryptography} (key : bytes) (bundle_str : string)
    : outcome (bytes * pydict) :=
  crypto ← CryptoEngine.__init__ key;
  bundle ← CryptoEngine.parse_bundle_string bundle_str;
  CryptoEngine.decrypt crypto bundle.

(** ** Text files and the [str] methods of the key manager

    The key files are JSON text; they live in a store of their own, a
    map from path strings to contents.  The directory [keys] exists once
    a [KeyManager] is built. *)

Definition textfs := gmap string string.

(** [c.isalnum()] for a character below U+0100: the letters, the digits
    (the superscripts among them) and the fractions. *)
Definition isalnum (c : ascii) : bool :=
  let n := N_of_ascii c in
  ((48 <=? n) && (n <=? 57) || (65 <=? n) && (n <=? 90) || (97 <=? n) && (n <=? 122)
   || bool_decide (n ∈ [170; 178; 179; 181; 185; 186; 188; 189; 190])
   || (192 <=? n) && (n <=? 214) || (216 <=? n) && (n <=? 246) || (248 <=? n))%N.

(** [c.isspace()] for a character below U+0100 *)
Definition isspace (c : ascii) : bool :=
  let n := N_of_ascii c in
  ((9 <=? n) && (n <=? 13) || (28 <=? n) && (n <=? 32) || (n =? 133) || (n =? 160))%N.

Fixpoint lstrip (s : list ascii) : list ascii :=
  match s with
  | c :: s' => if isspace c then lstrip s' else s
  | [] => []
  end.

(** [s.strip()] *)
Definition strip (s : list ascii) : list ascii := rev (lstrip (rev (lstrip s))).

(** [s.upper()] for ASCII text, which a hexdigest is. *)
Definition ascii_upper (c : ascii) : ascii :=
  let n := N_of_ascii c in
  if ((97 <=? n) && (n <=? 122))%N then ascii_of_N (n - 32) else c.

Definition upper (s : string) : string :=
  string_of_list_ascii (ascii_upper <$> list_ascii_of_string s).

(** [json.dumps(d, indent=2)], the text [json.dump(d, f, indent=2)]
    writes: an item a line, two spaces in. *)
Definition json_dumps_indent2 (d : pydict) : string :=
  match d with
  | [] => "{}"
  | _ =>
      let newline_indent := ["010"%char; " "%char; " "%char] in
      string_of_list_ascii
        ("{"%char :: newline_indent
           ++ json_encode_items (","%char :: newline_indent) [":"%char; " "%char] d
           ++ ["010"%char; "}"%char])
  end.

(** What [hexdigest] returns: 64 lower-case hexadecimal digits. *)
Definition is_hex_lower (c : ascii) : bool :=
  let n := N_of_ascii c in
  ((48 <=? n) && (n <=? 57) || (97 <=? n) && (n <=? 102))%N.

Class HashlibContract `{Cryptography} : Prop := {
  sha256_hexdigest_hex : ∀ b,
    String.length (sha256_hexdigest b) = 64%nat
    ∧ Forall (λ c, is_hex_lower c = true) (list_ascii_of_string (sha256_hexdigest b));
}.

(** ** The key directory

    What the key manager asks of [pathlib] and the operating system:
    [Path("keys") / name] as a string, [Path.exists], reading a text
    file, the names of the files [KEYS_DIR.glob("*.key.json")] yields,
    in the order it yields them, and [Path.unlink].  The contract says
    what they do for the files of the store that lie in [keys] under a
    plain file name; how a name with separators or dots resolves is
    left to the interface. *)

Class KeyStore := {
  key_path : string → string;
  key_path_exists : textfs → string → bool;
  key_read_text : textfs → string → outcome string;
  key_glob : textfs → list string;
  key_unlink : textfs → string → outcome textfs;
}.

(** A file name: not empty, no separator, not a dot entry. *)
Definition plain_file_name (n : string) : Prop :=
  n ≠ "" ∧ ("/"%char ∉ list_ascii_of_string n) ∧ n ≠ "." ∧ n ≠ "..".

(** [name.endswith(suffix)] *)
Definition endswith (name suffix : string) : bool :=
  String.prefix (string_of_list_ascii (rev (list_ascii_of_string suffix)))
    (string_of_list_ascii (rev (list_ascii_of_string name))).

Class KeyStoreContract `{KeyStore} : Prop := {
  key_path_plain : ∀ n, plain_file_name n → key_path n = "keys/" +:+ n;
  key_path_exists_plain : ∀ fs n,
    plain_file_name n →
    key_path_exists fs ("keys/" +:+ n) = bool_decide (is_Some (fs !! ("keys/" +:+ n)));
  key_read_text_plain : ∀ fs n text,
    plain_file_name n → fs !! ("keys/" +:+ n) = Some text →
    key_read_text fs ("keys/" +:+ n) = Ret text;
  key_glob_plain : ∀ fs n,
    n ∈ key_glob fs
    ↔ plain_file_name n ∧ endswith n ".key.json" = true ∧ is_Some (fs !! ("keys/" +:+ n));
  key_glob_NoDup : ∀ fs, NoDup (key_glob fs);
  key_unlink_plain : ∀ fs n,
    plain_file_name n → is_Some (fs !! ("keys/" +:+ n)) →
    key_unlink fs ("keys/" +:+ n) = Ret (delete ("keys/" +:+ n) fs);
}.

(** The order of two paths of one directory: that of their names. *)
Definition name_le (a b : string) : Prop := String.leb a b = true.

#[global] Instance name_le_dec : RelDecision name_le.
Proof. intros a b. unfold name_le. apply _. Defined.

(** [s1 in s2] for two strings *)
Fixpoint is_substring (s1 s2 : string) : bool :=
  String.prefix s1 s2
  || match s2 with
     | EmptyString => false
     | String _ s2' => is_substring s1 s2'
     end.

(** ** [class KeyManager] *)

Module KeyManager.

Definition KEYS_DIR : string := "keys".
Definition KEY_SIZE : nat := 32.

(** [generate_key()] *)
Definition generate_key (w : world) : bytes * world := os_urandom KEY_SIZE w.

(** [key_to_string(key)] *)
Definition key_to_string (key : bytes) : outcome string := utf8_decode (b64encode key).

(** [string_to_key(key_string)] *)
Definition string_to_key (key_string : string) : outcome bytes :=
  try_except
    (key ← b64decode key_string;
     if bool_decide (List.length key ≠ KEY_SIZE) then
       Raise (Exn ValueError
                ("Invalid key size: " +:+ str_int (Z.of_nat (List.length key)) +:+ " bytes"))
     else Ret key)
    (λ e, Raise (Exn ValueError ("Invalid key format: " +:+ str_exn e))).

Section manager.
Context `{Cryptography}.

(** [get_key_fingerprint(key)] *)
Definition get_key_fingerprint (key : bytes) : string :=
  upper (substring 0 16 (sha256_hexdigest key)).

(** The file name [save_key] builds: the name with everything but
    letters, digits, spaces, hyphens and underscores dropped, then
    stripped, then the fingerprint and the suffix. *)
Definition key_filename (name fingerprint : string) : string :=
  let safe_name :=
    strip (filter (λ c, isalnum c || bool_decide (c ∈ [" "%char; "-"%char; "_"%char]))
             (list_ascii_of_string name)) in
  string_of_list_ascii safe_name +:+ "_" +:+ fingerprint +:+ ".key.json".

(** [self.save_key(key, name, description)]: the path written.  The
    file name holds no separator, so [KEYS_DIR / filename] is the two
    joined by one. *)
Definition save_key (key : bytes) (name description : string) (w : world) (fs : textfs)
    : textfs * outcome string :=
  let fingerprint := get_key_fingerprint key in
  match key_to_string key with
  | Raise e => (fs, Raise e)
  | Ret key_string =>
      let key_data :=
        dict_update []
          [("name", JStr name);
           ("description", JStr description);
           ("key", JStr key_string);
           ("fingerprint", JStr fingerprint);
           ("algorithm", JStr "AES-256-GCM");
           ("size_bits", JInt (Z.of_nat KEY_SIZE * 8));
           ("created", JStr (w_utcnow w));
           ("version", JStr "2.0")] in
      let filename := key_filename name fingerprint in
      let filepath := KEYS_DIR +:+ "/" +:+ filename in
      (<[filepath := json_dumps_indent2 key_data]> fs, Ret filepath)
  end.

End manager.

Section store.
Context `{KeyStore}.

(** [string_to_key(key_data['key'])]: the missing key is a [KeyError]
    of the caller; a value that is not a string fails inside
    [string_to_key], under its handler. *)
Definition string_to_key_of (key_data : pydict) : outcome bytes :=
  match dict_get "key" key_data with
  | None => Raise (Exn KeyError "'key'")
  | Some (JStr key_string) => string_to_key key_string
  | Some (JInt _) =>
      Raise (Exn ValueError
               ("Invalid key format: "
                  +:+ "argument should be a bytes-like object or ASCII string, not 'int'"))
  end.

(** The loop of [load_key] over the key files: the first whose name or
    fingerprint is the identifier; [filepath] if there is none. *)
Fixpoint find_key_file (fs : textfs) (identifier : string) (keyfiles : list string)
    (filepath : string) : outcome string :=
  match keyfiles with
  | [] => Ret filepath
  | keyfile :: keyfiles' =>
      data ← (text ← key_read_text fs (KEYS_DIR +:+ "/" +:+ keyfile); json_loads text);
      if bool_decide (dict_get "name" data = Some (JStr identifier))
         || bool_decide (dict_get "fingerprint" data = Some (JStr identifier))
      then Ret (KEYS_DIR +:+ "/" +:+ keyfile)
      else find_key_file fs identifier keyfiles' filepath
  end.

(** [self.load_key(identifier)]: [(key_bytes, metadata)] *)
Definition load_key (identifier : string) (fs : textfs) : outcome (bytes * pydict) :=
  let filepath := key_path identifier in
  let filepath :=
    if negb (key_path_exists fs filepath) then key_path (identifier +:+ ".key.json")
    else filepath in
  filepath ← (if negb (key_path_exists fs filepath)
              then find_key_file fs identifier (key_glob fs) filepath
              else Ret filepath);
  if negb (key_path_exists fs filepath) then
    Raise (Exn FileNotFoundError ("Key not found: " +:+ identifier))
  else
    key_data ← (text ← key_read_text fs filepath; json_loads text);
    key ← string_to_key_of key_data;
    Ret (key, key_data).

(** One entry of [list_keys]. *)
Definition key_entry (keyfile : string) (data : pydict) : pydict :=
  dict_update []
    [("file", JStr keyfile);
     ("name", default (JStr "Unknown") (dict_get "name" data));
     ("description", default (JStr "") (dict_get "description" data));
     ("fingerprint", default (JStr "") (dict_get "fingerprint" data));
     ("created", default (JStr "") (dict_get "created" data));
     ("algorithm", default (JStr "Unknown") (dict_get "algorithm" data))].

Fixpoint list_entries (fs : textfs) (keyfiles : list string) : list pydict :=
  match keyfiles with
  | [] => []
  | keyfile :: keyfiles' =>
      match (text ← key_read_text fs (KEYS_DIR +:+ "/" +:+ keyfile); json_loads text) with
      | Ret data => key_entry keyfile data :: list_entries fs keyfiles'
      | Raise _ => list_entries fs keyfiles'
      end
  end.

(** [self.list_keys()]; the paths of one directory sort as their names. *)
Definition list_keys (fs : textfs) : list pydict :=
  list_entries fs (merge_sort name_le (key_glob fs)).

(** The loop of [delete_key]: the first key file whose name is the
    identifier or holds the fingerprint is unlinked. *)
Fixpoint delete_first (fs : textfs) (identifier : string) (metadata : pydict)
    (keyfiles : list string) : outcome (textfs * bool) :=
  match keyfiles with
  | [] => Ret (fs, false)
  | keyfile :: keyfiles' =>
      hit ← (if bool_decide (keyfile = identifier) then Ret true
             else match dict_get "fingerprint" metadata with
                  | None => Raise (Exn KeyError "'fingerprint'")
                  | Some (JStr fingerprint) => Ret (is_substring fingerprint keyfile)
                  | Some (JInt _) =>
                      Raise (Exn TypeError
                               "'in <string>' requires string as left operand, not int")
                  end);
      if (hit : bool) then
        fs' ← key_unlink fs (KEYS_DIR +:+ "/" +:+ keyfile);
        Ret (fs', true)
      else delete_first fs identifier metadata keyfiles'
  end.

(** [self.delete_key(identifier)]: the store afterwards and the answer. *)
Definition delete_key (identifier : string) (fs : textfs) : textfs * bool :=
  match ('(key, metadata) ← load_key identifier fs;
         delete_first fs identifier metadata (key_glob fs)) with
  | Ret r => r
  | Raise _ => (fs, false)
  end.

End store.
End KeyManager.

(** ** Reference instances of the interfaces

    Executable stand-ins for the libraries, on which the engines can be
    run.  [SteganoRef] is an LSB codec in the manner of stegano's: the
    message is prefixed with its length and a colon, each character is
    eight bits, and the bits go, three to a pixel, into the lowest bit
    of the red, green and blue channels in row-major order. *)

(** [FileSystemRef]: a directory tree without links in which every
    path is taken from one working directory: a path names the file its
    normal form spells, and nothing is refused. *)

Module FileSystemRef.

#[global] Instance file_system : FileSystem :=
  {| realpath := pathlib_str; refuses_write := λ _, None; refuses_remove := λ _, None |}.

End FileSystemRef.

Module PillowRef.

Definition to_mode (from to : string) (p : pixel) : pixel :=
  if bool_decide (to = "RGB") then
    match p with
    | [l] => [l; l; l]
    | [l; _] => [l; l; l]
    | r :: g :: b :: _ => [r; g; b]
    | [] => [0; 0; 0]
    end
  else p.

(** The length of a PNG whose scanlines are stored uncompressed. *)
Definition stored_size (img : Image) : Z :=
  57 + im_height img * (1 + im_width img * Z.of_nat (mode_bands (im_mode img))).

#[global] Instance pillow : Pillow :=
  {| convert_pixel := to_mode; png_size := stored_size |}.

End PillowRef.

Module SteganoRef.

(** The eight bits of a character, the highest first. *)
Definition bits_of_ascii (c : ascii) : list bool :=
  let 'Ascii b0 b1 b2 b3 b4 b5 b6 b7 := c in [b7; b6; b5; b4; b3; b2; b1; b0].

Definition a2bits (s : list ascii) : list bool := flat_map bits_of_ascii s.

Fixpoint chars_of_bits (bits : list bool) : list ascii :=
  match bits with
  | b7 :: b6 :: b5 :: b4 :: b3 :: b2 :: b1 :: b0 :: rest =>
      Ascii b0 b1 b2 b3 b4 b5 b6 b7 :: chars_of_bits rest
  | _ => []
  end.

Definition setlsb (component : Z) (bit : bool) : Z :=
  if bit then Z.lor component 1 else Z.land component (Z.lnot 1).

(** Three bits into each pixel, until the bits run out. *)
Fixpoint embed (bits : list bool) (px : list pixel) : option (list pixel) :=
  match bits with
  | [] => Some px
  | b0 :: b1 :: b2 :: bits' =>
      match px with
      | (r :: g :: b :: a) :: px' =>
          match embed bits' px' with
          | Some px'' => Some ((setlsb r b0 :: setlsb g b1 :: setlsb b b2 :: a) :: px'')
          | None => None
          end
      | _ => None
      end
  | _ => None
  end.

Definition extract (px : list pixel) : list bool :=
  flat_map (λ p, Z.odd <$> take 3 p) px.

Definition str_nat (n : nat) : list ascii :=
  list_ascii_of_string (NilZero.string_of_uint (Nat.to_uint n)).

Definition message_bits (msg : string) : list bool :=
  let bits := a2bits (str_nat (String.length msg) ++ ":"%char :: list_ascii_of_string msg) in
  bits ++ replicate ((3 - List.length bits mod 3) mod 3)%nat false.

Definition hide_lsb (img : Image) (msg : string) : outcome Image :=
  if bool_decide (String.length msg = 0%nat) then
    Raise (Exn AssertionError "message length is zero")
  else if bool_decide (im_mode img ∉ ["RGB"; "RGBA"]) then
    Raise (Exn Exception "Not a RGB image.")
  else
    data ← Image_load img;
    let bits := message_bits msg in
    if im_width img * im_height img * 3 <? Z.of_nat (List.length bits) then
      Raise (Exn Exception
               ("The message you want to hide is too long: "
                  +:+ string_of_list_ascii (str_nat (String.length msg))))
    else
      match embed bits data with
      | Some data' =>
          Ret {| im_format := None; im_mode := im_mode img;
                 im_width := im_width img; im_height := im_height img;
                 im_data := Some data'; im_info := im_info img |}
      | None => Raise (Exn IndexError "image index out of range")
      end.

(** The characters up to the first colon, and those after it. *)
Fixpoint split_colon (s : list ascii) : option (list ascii * list ascii) :=
  match s with
  | [] => None
  | c :: s' =>
      if bool_decide (c = ":"%char) then Some ([], s')
      else match split_colon s' with
           | Some (l, r) => Some (c :: l, r)
           | None => None
           end
  end.

Definition read_message (chars : list ascii) : option string :=
  match split_colon chars with
  | Some (digits, rest) =>
      match NilZero.uint_of_string (string_of_list_ascii digits) with
      | Some u =>
          let limit := Nat.of_uint u in
          if bool_decide (limit ≤ List.length rest)%nat
          then Some (string_of_list_ascii (take limit rest))
          else None
      | None => None
      end
  | None => None
  end.

Definition reveal_lsb (img : Image) : outcome (option string) :=
  data ← Image_load img;
  Ret (read_message (chars_of_bits (extract data))).

#[global] Instance stegano : Stegano :=
  {| lsb_hide := hide_lsb; lsb_reveal := reveal_lsb |}.

End SteganoRef.

(** [CryptoRef] stands in for AES-GCM and SHA-256 with a keyed additive
    mask and a 16-byte keyed checksum; it has the shape of the real
    primitives (ciphertext as long as the plaintext, a tag that depends
    on key, nonce, associated data and ciphertext) and none of their
    strength. *)

Module CryptoRef.

Definition add_byte (x k : byte) : byte :=
  byte_of_N ((Byte.to_N x + Byte.to_N k) mod 256).

Definition sub_byte (y k : byte) : byte :=
  byte_of_N ((Byte.to_N y + 256 - Byte.to_N k) mod 256).

(** The [i]-th byte of the key stream. *)
Definition stream (key nonce : bytes) (i : nat) : byte :=
  add_byte (nth (i mod Nat.max 1 (List.length key)) key x00)
           (nth (i mod Nat.max 1 (List.length nonce)) nonce x00).

Fixpoint mask (f : byte → byte → byte) (key nonce : bytes) (i : nat) (data : bytes) : bytes :=
  match data with
  | [] => []
  | x :: data' => f x (stream key nonce i) :: mask f key nonce (S i) data'
  end.

(** One byte of checksum over [data], seeded with [j]. *)
Definition checksum_step (j : N) (acc : N) (x : byte) : N :=
  ((acc * 31 + Byte.to_N x + j) mod 256)%N.

Definition checksum (j : N) (data : bytes) : byte :=
  byte_of_N (fold_left (checksum_step j) data (j + 7)%N).

Definition tag_of (key nonce aad ct : bytes) : bytes :=
  (λ j, checksum (N.of_nat j) (key ++ nonce ++ aad ++ ct)) <$> seq 0 16.

Definition seal (key nonce data aad : bytes) : bytes :=
  let ct := mask add_byte key nonce 0 data in
  ct ++ tag_of key nonce aad ct.

Definition unseal (key nonce data aad : bytes) : outcome bytes :=
  if bool_decide (List.length data < 16)%nat then Raise (Exn InvalidTag "")
  else
    let ct := take (List.length data - 16) data in
    let tag := drop (List.length data - 16) data in
    if bool_decide (tag = tag_of key nonce aad ct) then Ret (mask sub_byte key nonce 0 ct)
    else Raise (Exn InvalidTag "").

Definition hexdigest (data : bytes) : string :=
  string_of_list_ascii
    (flat_map (λ j, let n := Byte.to_N (checksum (N.of_nat j) data) in
                    [hex_digit (n / 16); hex_digit (n mod 16)])
              (seq 0 32)).

#[global] Instance cryptography : Cryptography :=
  {| aesgcm_encrypt := seal; aesgcm_decrypt := unseal; sha256_hexdigest := hexdigest |}.

End CryptoRef.

(** [Pbkdf2Ref] stands in for PBKDF2: as many checksum bytes over salt
    and key material as asked for. *)

Module Pbkdf2Ref.

Definition derive (length : nat) (salt : bytes) (iterations : N) (material : bytes) : bytes :=
  (λ j, CryptoRef.checksum (N.of_nat j + iterations) (salt ++ material)) <$> seq 0 length.

#[global] Instance pbkdf2 : Pbkdf2 := {| pbkdf2_hmac_sha256 := derive |}.

End Pbkdf2Ref.

(** [KeyStoreRef]: a store in which every path names itself: no
    directories within [keys], no links. *)

Module KeyStoreRef.

#[global] Instance plain_file_name_dec n : Decision (plain_file_name n).
Proof. unfold plain_file_name. apply _. Defined.

(** The name of a path directly under [keys/]. *)
Definition name_in_keys (p : string) : option string :=
  match p with
  | String "k" (String "e" (String "y" (String "s" (String "/" n)))) => Some n
  | _ => None
  end.

Definition exists_ (fs : textfs) (p : string) : bool := bool_decide (is_Some (fs !! p)).

Definition read (fs : textfs) (p : string) : outcome string :=
  match fs !! p with
  | Some text => Ret text
  | None => Raise (Exn FileNotFoundError ("No such file or directory: '" +:+ p +:+ "'"))
  end.

Definition glob (fs : textfs) : list string :=
  filter (λ n, plain_file_name n ∧ endswith n ".key.json" = true)
    (omap name_in_keys (map_to_list fs).*1).

Definition remove (fs : textfs) (p : string) : outcome textfs :=
  match fs !! p with
  | Some _ => Ret (delete p fs)
  | None => Raise (Exn FileNotFoundError ("No such file or directory: '" +:+ p +:+ "'"))
  end.

#[global] Instance key_store : KeyStore :=
  {| key_path := λ n, "keys/" +:+ n;
     key_path_exists := exists_;
     key_read_text := read;
     key_glob := glob;
     key_unlink := remove |}.

End KeyStoreRef.

(** * Vocabulary of the statements

    The predicates, observers and sample inputs the properties below are
    stated with. *)

Import StegoEngine.

(** ** Images and validation *)

(** An image Pillow reads: the file opens and its pixels load. *)
Definition readable `{FileSystem} (fs : gmap string file) (path : string) (img : Image)
    : Prop :=
  Image_open fs path = Ret img ∧ is_Some (im_data img).

(** The channel count of the capacity formula: 4 for RGBA, 3 for RGB and
    for every mode the engine first converts to RGB. *)
Definition channelsPerPixel (img : Image) : Z :=
  if bool_decide (im_mode img = "RGBA") then 4 else 3.

(** The statistics the caller is promised. *)
Definition descriptive (stats : gmap string value) : Prop :=
  is_Some (stats !! "width") ∧ is_Some (stats !! "height") ∧
  is_Some (stats !! "format") ∧ is_Some (stats !! "capacity_bytes").

Definition format_name (img : Image) : string :=
  match im_format img with
  | Some f => if bool_decide (f = "") then "Unknown" else f
  | None => "Unknown"
  end.

(** What [validate_image] asks of the header of an image. *)
Definition header_ok (img : Image) : Prop :=
  format_name img ∈ SUPPORTED_FORMATS ∧ 100 ≤ im_width img ∧ 100 ≤ im_height img.

(** An image whose pixels the capacity computation fails to decode: it
    has to be converted, and its pixel stream does not load. *)
Definition fails_conversion (img : Image) : Prop :=
  (im_mode img ∉ ["RGB"; "RGBA"]) ∧ im_data img = None.

(** The verdict of a validation, and whether a call returned. *)
Definition verdict {A B} (r : outcome (bool * A * B)) : option bool :=
  match r with
  | Ret (ok, _, _) => Some ok
  | Raise _ => None
  end.

Definition returned {A} (r : outcome A) : bool :=
  match r with
  | Ret _ => true
  | Raise _ => false
  end.

(** The statistics gathered before the checks. *)
Definition base_stats (img : Image) (size : Z) : gmap string value :=
  <["pixels" := VInt (im_width img * im_height img)]>
  (<["size_kb" := VFloat size 1024]>
  (<["mode" := VStr (im_mode img)]>
  (<["format" := VStr (format_name img)]>
  (<["height" := VInt (im_height img)]>
  (<["width" := VInt (im_width img)]> ∅))))).

(** A 100x100 cover, in a given mode and with one text chunk. *)
Definition cover_image (mode : string) (p : pixel) : Image :=
  {| im_format := Some "PNG"; im_mode := mode; im_width := 100; im_height := 100;
     im_data := Some (replicate (Z.to_nat 10000) p);
     im_info := [("Comment", "holiday")] |}.

Definition rgb_cover : gmap string file :=
  {[ "cover.png" := {| f_size := 30157; f_image := Some (cover_image "RGB" [7; 8; 9]) |} ]}.

Definition rgba_cover : gmap string file :=
  {[ "cover.png" := {| f_size := 40157; f_image := Some (cover_image "RGBA" [7; 8; 9; 255]) |} ]}.

Definition bmp_cover : gmap string file :=
  {[ "cover.bmp" := {| f_size := 30054;
                       f_image := Some {| im_format := Some "BMP"; im_mode := "RGB";
                                          im_width := 100; im_height := 100;
                                          im_data := Some (replicate (Z.to_nat 10000) [7; 8; 9]);
                                          im_info := [] |} |} ]}.

(** A 100x100 RGB cover whose header parses and whose pixel stream is
    cut short. *)
Definition truncated_cover : gmap string file :=
  {[ "cover.png" := {| f_size := 9000;
                       f_image := Some {| im_format := Some "PNG"; im_mode := "RGB";
                                          im_width := 100; im_height := 100;
                                          im_data := None; im_info := [] |} |} ]}.

(** ** The frame of a computation: a file it leaves alone *)

Definition preserves {A} (p : string) (m : io A) : Prop :=
  ∀ fs fs' r, m fs = (fs', r) → fs' !! p = fs !! p.

(** ** base64: bytes and sextets *)

Definition all_bytes : bytes := (λ i, byte_of_N (N.of_nat i)) <$> seq 0 256.

Definition sextet_ok (k : N) : bool :=
  bool_decide (b64_value (b64_char k) = Some k)
  && negb (bool_decide (b64_char k = BASE64_PAD))
  && (N_of_ascii (b64_char k) <? 128)%N.

(** The four sextets of three bytes. *)
Definition sextet0 (x : byte) : N := N.shiftr (Byte.to_N x) 2.

Definition sextet1 (x y : byte) : N :=
  N.lor (N.shiftl (N.land (Byte.to_N x) 3) 4) (N.shiftr (Byte.to_N y) 4).

Definition sextet2 (y z : byte) : N :=
  N.lor (N.shiftl (N.land (Byte.to_N y) 15) 2) (N.shiftr (Byte.to_N z) 6).

Definition sextet3 (z : byte) : N := N.land (Byte.to_N z) 63.

Definition regroup_ok (x y : byte) : bool :=
  (sextet0 x <? 64)%N && (sextet1 x y <? 64)%N && (sextet2 x y <? 64)%N
  && (sextet3 x <? 64)%N
  && (N.land (sextet1 x y) 15 =? N.shiftr (Byte.to_N y) 4)%N
  && (N.shiftr (sextet2 x y) 2 =? N.land (Byte.to_N x) 15)%N
  && (N.land (sextet2 x y) 3 =? N.shiftr (Byte.to_N y) 6)%N
  && bool_decide (byte_of_N (N.lor (N.shiftl (sextet0 x) 2) (N.shiftr (sextet1 x y) 4)) = x)
  && bool_decide (byte_of_N (N.lor (N.shiftl (N.shiftr (Byte.to_N x) 4) 4)
                                   (N.land (Byte.to_N x) 15)) = x)
  && bool_decide (byte_of_N (N.lor (N.shiftl (N.shiftr (Byte.to_N x) 6) 6) (sextet3 x)) = x).

(** ** JSON: the shape of the text [dumps] writes *)

(** The digits of [|n|]. *)
Definition abs_uint (n : Z) : Decimal.uint :=
  match n with
  | 0 => Decimal.D0 Decimal.Nil
  | Z.pos p => Pos.to_uint p
  | Z.neg p => Pos.to_uint p
  end.

Definition ends_number (rest : list ascii) : Prop :=
  match rest with
  | [] => True
  | c :: _ => is_digit c = false ∧ c ∉ ["."%char; "e"%char; "E"%char]
  end.

Definition after_value (tail : list ascii) : Prop :=
  ∃ c t, tail = c :: t ∧ (c = ","%char ∨ c = "}"%char).

(** The text of the members after the opening quote of the first key. *)
Fixpoint members_text (item_sep key_sep : list ascii) (kv : string * jvalue)
    (items : pydict) : list ascii :=
  flat_map json_escape (list_ascii_of_string kv.1)
    ++ QUOTE :: key_sep ++ json_encode_value kv.2
    ++ match items with
       | [] => []
       | kv' :: items' => item_sep ++ QUOTE :: members_text item_sep key_sep kv' items'
       end.

Definition separators_ok (item_sep key_sep : string) : Prop :=
  ∃ ws_item ws_key,
    list_ascii_of_string item_sep = ","%char :: ws_item
    ∧ list_ascii_of_string key_sep = ":"%char :: ws_key
    ∧ Forall (λ c, is_ws c = true) ws_item ∧ Forall (λ c, is_ws c = true) ws_key.

(** ** base64: the bits the decoder drops *)

(** Two characters whose codes differ in exactly one bit. *)
Definition one_bit (c c' : ascii) : bool :=
  existsb (λ i, N.lxor (N_of_ascii c) (N_of_ascii c') =? 2 ^ i)%N [0; 1; 2; 3; 4; 5; 6; 7]%N.

(** Two strings that differ in exactly one bit of one character. *)
Definition flips_one_bit (s s' : string) : Prop :=
  ∃ pre c c' post,
    list_ascii_of_string s = pre ++ c :: post
    ∧ list_ascii_of_string s' = pre ++ c' :: post
    ∧ one_bit c c' = true.

(** A flip of one of the four dropped bits. *)
Definition spare_flip (c : ascii) : ascii :=
  ascii_of_N (N.lxor (N_of_ascii c)
                (if bool_decide (c = "w"%char) then 64
                 else if bool_decide (c = "g"%char) then 8 else 2)).

Definition spare_flip_ok (x : byte) : bool :=
  let c := b64_char (sextet1 x x00) in
  match b64_value (spare_flip c) with
  | Some v =>
      (N.shiftr v 4 =? N.shiftr (sextet1 x x00) 4)%N
      && negb (bool_decide (spare_flip c = BASE64_PAD))
      && one_bit c (spare_flip c)
      && (N_of_ascii (spare_flip c) <? 128)%N
  | None => false
  end.

(** The text of sixteen bytes with one spare bit flipped. *)
Definition flip_spare_bit (b : bytes) : list ascii :=
  match b2a_base64 (drop 15 b) with
  | [c0; c1; p0; p1] => b2a_base64 (take 15 b) ++ [c0; spare_flip c1; p0; p1]
  | l => b2a_base64 (take 15 b) ++ l
  end.

(** ** Sample inputs *)

(** A payload of 4800 ASCII characters. *)
Definition payload_4800 : string := string_of_list_ascii (replicate (Z.to_nat 4800) "a"%char).

(** A 32-byte key, and a state whose heap holds one caller dictionary. *)
Definition key_1_32 : bytes := (λ i, byte_of_N (N.of_nat i)) <$> seq 1 32.

Definition entropy_pool : bytes := (λ i, byte_of_N (N.of_nat (7 * i + 3))) <$> seq 0 64.

Definition world_0 (d : pydict) : world :=
  {| w_heap := {[ 1%positive := d ]};
     w_entropy := λ i, nth i entropy_pool x00;
     w_cursor := 0;
     w_utcnow := "2024-05-01T12:00:00.000000" |}.

(** The fields [encrypt] merges into the metadata. *)
Definition generated_fields (self : CryptoEngine.t) (plaintext : bytes) (w : world)
    : list (string * jvalue) :=
  [("version", JStr CryptoEngine.VERSION);
   ("timestamp", JStr (w_utcnow w));
   ("key_hash", JStr (CryptoEngine.key_hash self));
   ("size", JInt (Z.of_nat (List.length plaintext)))].

(** ** Bundles *)

Definition bundle_keys : list string := ["version"; "metadata"; "nonce"; "ciphertext"; "tag"].

(** A valid bundle: a dictionary with the five fields, each a string. *)
Definition valid_bundle (b : pydict) : Prop :=
  b.*1 ≡ₚ bundle_keys ∧ Forall (λ kv, ∃ s, kv.2 = JStr s) b.

Definition sample_bundle : pydict :=
  [("version", JStr "v2.0");
   ("metadata", JStr "eyJzaXplIjogMTEsICJ2ZXJzaW9uIjogInYyLjAifQ==");
   ("nonce", JStr "AwoRGB8mLTQ7QklQ");
   ("ciphertext", JStr "bHGAiJNMq6u2uLg=");
   ("tag", JStr "0vMUNVZ3mLna+xw9Xn+gwQ==")].

(** ** What [encrypt] computes *)

(** The base64 text of some bytes, as [encrypt] stores it. *)
Definition b64_text (b : bytes) : string := string_of_list_ascii (b2a_base64 b).

(** The bundle built from the associated data, the nonce and the output
    of AES-GCM. *)
Definition bundle_of (aad nonce ciphertext : bytes) : pydict :=
  [("version", JStr CryptoEngine.VERSION);
   ("metadata", JStr (b64_text aad));
   ("nonce", JStr (b64_text nonce));
   ("ciphertext",
    JStr (b64_text (take (List.length ciphertext - CryptoEngine.TAG_SIZE) ciphertext)));
   ("tag",
    JStr (b64_text (drop (List.length ciphertext - CryptoEngine.TAG_SIZE) ciphertext)))].

(** The dictionary [meta] starts from: the caller's, unless it is absent
    or empty. *)
Definition caller_dict (metadata : option positive) (w : world) : pydict :=
  match metadata with
  | Some l =>
      match w_heap w !! l with
      | Some (kv :: d) => kv :: d
      | _ => []
      end
  | None => []
  end.

Definition merged_metadata (self : CryptoEngine.t) (plaintext : bytes)
    (metadata : option positive) (w : world) : pydict :=
  dict_update (caller_dict metadata w) (generated_fields self plaintext w).

Definition associated_data (self : CryptoEngine.t) (plaintext : bytes)
    (metadata : option positive) (w : world) : bytes :=
  utf8_encode (json_dumps (merged_metadata self plaintext metadata w) true ", " ": ").

Definition drawn_nonce (w : world) : bytes :=
  w_entropy w <$> seq (w_cursor w) CryptoEngine.NONCE_SIZE.

(** Every dictionary of the heap has each key once. *)
Definition heap_ok (w : world) : Prop :=
  ∀ l d, w_heap w !! l = Some d → NoDup d.*1.

(** [decrypt] once the four fields are decoded. *)
Definition decrypt_core `{Cryptography} (self : CryptoEngine.t) (nonce ct tag aad : bytes)
    : outcome (bytes * pydict) :=
  try_except_class InvalidTag
    (plaintext ← aesgcm_decrypt (CryptoEngine.aesgcm self) nonce (ct ++ tag) aad;
     metadata ← (s ← utf8_decode aad; json_loads s);
     if bool_decide (dict_get "key_hash" metadata ≠ Some (JStr (CryptoEngine.key_hash self)))
     then Raise (Exn ValueError "Key mismatch detected")
     else Ret (plaintext, metadata))
    (Raise (Exn ValueError "Authentication failed: Invalid key or tampered data")).

(** The engine [CryptoEngine(key)] builds for a 32-byte key. *)
Definition engine_of `{Cryptography} (key : bytes) : CryptoEngine.t :=
  {| CryptoEngine.aesgcm := key;
     CryptoEngine.key_hash := substring 0 16 (sha256_hexdigest key) |}.

(** The bundle [encrypt] returns. *)
Definition encrypted_bundle `{Cryptography} (self : CryptoEngine.t) (plaintext : bytes)
    (metadata : option positive) (w : world) : pydict :=
  bundle_of (associated_data self plaintext metadata w) (drawn_nonce w)
    (aesgcm_encrypt (CryptoEngine.aesgcm self) (drawn_nonce w) plaintext
       (associated_data self plaintext metadata w)).



(** The four fields of a bundle decode to these bytes. *)
Definition decodes_to (bundle : pydict) (nonce ct tag aad : bytes) : Prop :=
  (s ← bundle_field bundle "nonce"; b64decode s) = Ret nonce
  ∧ (s ← bundle_field bundle "ciphertext"; b64decode s) = Ret ct
  ∧ (s ← bundle_field bundle "tag"; b64decode s) = Ret tag
  ∧ (s ← bundle_field bundle "metadata"; b64decode s) = Ret aad.

Definition AUTHENTICATION_FAILED : exn :=
  Exn ValueError "Authentication failed: Invalid key or tampered data".

Definition KEY_MISMATCH : exn := Exn ValueError "Key mismatch detected".



(** ** The sample encryption *)

(** Key [1..32], plaintext ["hello world"], the caller's metadata
    [{'filename': 'msg.txt'}], under the reference primitives. *)
Definition sample_world : world := world_0 [("filename", JStr "msg.txt")].

Definition sample_plaintext : bytes := utf8_encode "hello world".

Definition sample_encrypted : pydict :=
  [("version", JStr "v2.0");
   ("metadata",
    JStr ("eyJmaWxlbmFtZSI6ICJtc2cudHh0IiwgImtleV9oYXNoIjogIjE3MTgxOTFhMWIxYzFkMWUiLCAic2l6"
            +:+ "ZSI6IDExLCAidGltZXN0YW1wIjogIjIwMjQtMDUtMDFUMTI6MDA6MDAuMDAwMDAwIiwgInZlcnNp"
            +:+ "b24iOiAidjIuMCJ9"));
   ("nonce", JStr "AwoRGB8mLTQ7QklQ");
   ("ciphertext", JStr "bHGAiJNMq6u2uLg=");
   ("tag", JStr "pieoKaorrC2uL7AxsjO0NQ==")].


Definition sample_metadata : pydict :=
  [("filename", JStr "msg.txt"); ("key_hash", JStr "1718191a1b1c1d1e");
   ("size", JInt 11); ("timestamp", JStr "2024-05-01T12:00:00.000000");
   ("version", JStr "v2.0")].

(** The transport string of the sample encryption. *)
Definition sample_transport : string :=
  Eval vm_compute in
    match (quick_encrypt key_1_32 sample_plaintext (Some 1%positive) sample_world).2 with
    | Ret s => s
    | Raise e => exn_msg e
    end.

(** ** Metadata and key files *)

(** The keys [encrypt] writes into the metadata. *)
Definition generated_keys : list string := ["version"; "timestamp"; "key_hash"; "size"].

(** An upper-case hexadecimal digit. *)
Definition is_hex_upper (c : ascii) : bool :=
  let n := N_of_ascii c in
  ((48 <=? n) && (n <=? 57) || (65 <=? n) && (n <=? 70))%N.

(** The characters [save_key] keeps of a name. *)
Definition plain_name_char (c : ascii) : bool :=
  isalnum c || bool_decide (c ∈ [" "%char; "-"%char; "_"%char]).

(** What [string_to_key] raises for a key of the wrong length: its own
    error, caught and wrapped by its own handler. *)
Definition WRONG_KEY_SIZE (n : nat) : exn :=
  Exn ValueError
    ("Invalid key format: Invalid key size: " +:+ str_int (Z.of_nat n) +:+ " bytes").

(** The dictionary [save_key] writes. *)
Definition saved_key_data `{Cryptography} (key : bytes) (name description : string)
    (w : world) : pydict :=
  [("name", JStr name);
   ("description", JStr description);
   ("key", JStr (b64_text key));
   ("fingerprint", JStr (KeyManager.get_key_fingerprint key));
   ("algorithm", JStr "AES-256-GCM");
   ("size_bits", JInt 256);
   ("created", JStr (w_utcnow w));
   ("version", JStr "2.0")].

(** ** The key directory *)

(** The test of the loop of [delete_key] on one file name: the name is
    the identifier, or the fingerprint of the metadata occurs in it. *)
Definition names_key (identifier : string) (metadata : pydict) (n : string) : Prop :=
  n = identifier
  ∨ ∃ fingerprint, dict_get "fingerprint" metadata = Some (JStr fingerprint)
                   ∧ is_substring fingerprint n = true.

(** A second key, and a key directory that holds it. *)
Definition key_3_96 : bytes := (λ i, byte_of_N (N.of_nat (3 * i))) <$> seq 1 32.

Definition other_key_store : textfs :=
  (KeyManager.save_key key_3_96 "Other" "a spare key" sample_world ∅).1.

(** * Properties of the stego engine *)

Import StegoEngine.

Section stego_facts.
Context `{FileSystem} `{Pillow}.

Lemma calculate_capacity_readable fs path img :
  readable fs path img →
  calculate_capacity fs path =
    Ret (im_width img * im_height img * channelsPerPixel img / 8 - 200).
Proof.
  intros [Hopen [d Hd]]. unfold calculate_capacity, channelsPerPixel.
  rewrite Hopen. cbn.
  case_bool_decide as Hm.
  - unfold Image_convert, Image_load. rewrite Hd. cbn.
    rewrite (bool_decide_eq_true_2 ("RGB" = "RGB")) by done.
    rewrite (bool_decide_eq_false_2 (im_mode img = "RGBA")); [done|].
    intros Hc. apply Hm. rewrite Hc. set_solver.
  - cbn.
    apply elem_of_cons in Hm as [-> | Hm]; [reflexivity|].
    apply list_elem_of_singleton in Hm as ->. reflexivity.
Qed.

(** For the two modes that need no conversion the pixels are never
    loaded. *)
Lemma calculate_capacity_rgb fs path img :
  Image_open fs path = Ret img → im_mode img ∈ ["RGB"; "RGBA"] →
  calculate_capacity fs path =
    Ret (im_width img * im_height img * channelsPerPixel img / 8 - 200).
Proof.
  intros Hopen Hm. unfold calculate_capacity, channelsPerPixel.
  rewrite Hopen. cbn. rewrite bool_decide_eq_false_2 by (intros Hn; by apply Hn).
  cbn. apply elem_of_cons in Hm as [-> | Hm]; [reflexivity|].
  apply list_elem_of_singleton in Hm as ->. reflexivity.
Qed.

Lemma os_path_exists_true fs p : os_path_exists fs p = true ↔ is_Some (fs !! realpath p).
Proof. unfold os_path_exists. apply bool_decide_eq_true. Qed.

Lemma os_path_exists_false fs p : os_path_exists fs p = false ↔ fs !! realpath p = None.
Proof.
  unfold os_path_exists. rewrite bool_decide_eq_false, eq_None_not_Some. done.
Qed.

Lemma validate_image_returns fs path :
  ∃ ok msg stats, validate_image fs path = Ret (ok, msg, stats).
Proof.
  unfold validate_image, try_except.
  match goal with
  | |- context [match ?b with Ret _ => _ | Raise _ => _ end] =>
      destruct b as [[[ok msg] stats]|e]
  end; eauto.
Qed.

Lemma validate_image_missing fs path :
  fs !! realpath path = None →
  validate_image fs path = Ret (false, "Image file not found", ∅).
Proof.
  intros Hnone. unfold validate_image.
  apply os_path_exists_false in Hnone. by rewrite Hnone.
Qed.

Lemma validate_image_undecodable fs path e :
  is_Some (fs !! realpath path) → Image_open fs path = Raise e →
  validate_image fs path = Ret (false, "❌ Invalid image: " +:+ exn_msg e, ∅).
Proof.
  intros Hsome Hopen. unfold validate_image.
  apply os_path_exists_true in Hsome. rewrite Hsome, Hopen. done.
Qed.

(** What [validate_image] returns for a file that opens, case by case. *)
Lemma validate_image_opened fs path img :
  Image_open fs path = Ret img →
  ∃ size, os_path_getsize fs path = Ret size ∧
  (((format_name img ∉ SUPPORTED_FORMATS) ∧
     ∃ msg, validate_image fs path = Ret (false, msg, base_stats img size)) ∨
  (format_name img ∈ SUPPORTED_FORMATS ∧ (im_width img < 100 ∨ im_height img < 100) ∧
     ∃ msg, validate_image fs path = Ret (false, msg, base_stats img size)) ∨
  (format_name img ∈ SUPPORTED_FORMATS ∧ 100 ≤ im_width img ∧ 100 ≤ im_height img ∧
     ((∃ e, calculate_capacity fs path = Raise e ∧
            validate_image fs path = Ret (false, "❌ Invalid image: " +:+ exn_msg e, ∅)) ∨
      (∃ capacity msg, calculate_capacity fs path = Ret capacity ∧
         validate_image fs path =
           Ret (bool_decide (1000 ≤ capacity), msg,
                <["capacity_kb" := VFloat capacity 1024]>
                  (<["capacity_bytes" := VInt capacity]> (base_stats img size))))))).
Proof.
  intros Hopen.
  assert (∃ f, fs !! realpath path = Some f) as [f Hf].
  { unfold Image_open in Hopen. destruct (fs !! realpath path); [eauto|done]. }
  exists (f_size f). split; [unfold os_path_getsize; by rewrite Hf|].
  unfold validate_image.
  rewrite (proj2 (os_path_exists_true fs path)) by (rewrite Hf; eauto).
  rewrite Hopen. cbn. unfold os_path_getsize. rewrite Hf. cbn.
  fold (format_name img). fold (base_stats img (f_size f)).
  case_bool_decide as Hfmt; [left; eauto|].
  destruct (im_width img <? MIN_DIMENSION) eqn:Hw.
  { right; left. apply Z.ltb_lt in Hw. unfold MIN_DIMENSION in Hw. cbn. eauto 10. }
  destruct (im_height img <? MIN_DIMENSION) eqn:Hh.
  { right; left. apply Z.ltb_lt in Hh. unfold MIN_DIMENSION in Hh. cbn. eauto 10. }
  apply Z.ltb_ge in Hw, Hh. unfold MIN_DIMENSION in Hw, Hh.
  right; right. repeat split; [done..|]. cbn.
  destruct (calculate_capacity fs path) as [capacity|e]; cbn; [right|left; eauto].
  exists capacity.
  destruct (capacity <? 1000) eqn:Hc.
  - apply Z.ltb_lt in Hc. rewrite bool_decide_eq_false_2 by lia. eauto.
  - apply Z.ltb_ge in Hc. rewrite bool_decide_eq_true_2 by lia. eauto.
Qed.

End stego_facts.

(** ** [hide] and [reveal] *)

Section hide_facts.
Context `{FileSystem} `{Pillow} `{Stegano}.

Lemma io_bind_ret {A B} (m : io A) (f : A → io B) fs fs' b :
  (m ≫= f) fs = (fs', Ret b) →
  ∃ a fs1, m fs = (fs1, Ret a) ∧ f a fs1 = (fs', Ret b).
Proof.
  unfold mbind, io_bind. destruct (m fs) as [fs1 [a|e]]; [eauto|done].
Qed.

Lemma io_read_ret {A} (f : gmap string file → outcome A) fs fs' a :
  io_read f fs = (fs', Ret a) → fs' = fs ∧ f fs = Ret a.
Proof. unfold io_read. by intros [= -> ->]. Qed.

Lemma io_pure_ret {A} (r : outcome A) fs fs' a :
  io_pure r fs = (fs', Ret a) → fs' = fs ∧ r = Ret a.
Proof. unfold io_pure. by intros [= -> ->]. Qed.

Lemma io_write_ret f fs fs' u :
  io_write f fs = (fs', Ret u) → f fs = Ret fs'.
Proof. unfold io_write. destruct (f fs); by intros [= ->]. Qed.

Lemma hide_ret_inv cover_path secret_data output_path fs fs' st :
  hide cover_path secret_data output_path fs = (fs', Ret st) →
  ∃ msg stats capacity fs1 prepared_path img stego_img fs2,
    validate_image fs cover_path = Ret (true, msg, stats) ∧
    stats_int stats "capacity_bytes" = Ret capacity ∧
    Z.of_nat (List.length (utf8_encode secret_data)) ≤ capacity ∧
    prepare_image cover_path None fs = (fs1, Ret prepared_path) ∧
    Image_open fs1 prepared_path = Ret img ∧
    lsb_hide img secret_data = Ret stego_img ∧
    Image_save fs1 stego_img output_path = Ret fs2 ∧
    fs' = (if bool_decide (prepared_path ≠ cover_path) && os_path_exists fs2 prepared_path
           then delete (realpath prepared_path) fs2 else fs2) ∧
    is_Some (fs' !! realpath output_path).
Proof.
  unfold hide. intros Hh.
  apply io_bind_ret in Hh as ([[is_valid msg] stats] & fs0 & Hv & Hh).
  apply io_read_ret in Hv as [-> Hv].
  destruct is_valid; [|done]. cbn [negb] in Hh.
  apply io_bind_ret in Hh as (capacity & fs0 & Hc & Hh).
  apply io_pure_ret in Hc as [-> Hc].
  destruct (capacity <? _) eqn:Hcap; [done|]. apply Z.ltb_ge in Hcap.
  apply io_bind_ret in Hh as (prepared_path & fs1 & Hp & Hh).
  apply io_bind_ret in Hh as (stego_img & fs0 & Hs & Hh).
  apply io_read_ret in Hs as [-> Hs].
  destruct (Image_open fs1 prepared_path) as [img|] eqn:Hopen; [|done]. cbn in Hs.
  apply io_bind_ret in Hh as ([] & fs2 & Hsave & Hh).
  apply io_write_ret in Hsave.
  apply io_bind_ret in Hh as ([] & fs3 & Hrm & Hh).
  apply io_write_ret in Hrm.
  apply io_bind_ret in Hh as (size_kb & fs0 & Hkb & Hh).
  apply io_pure_ret in Hkb as [-> Hkb].
  apply io_bind_ret in Hh as (stego_size & fs0 & Hsz & Hh).
  apply io_read_ret in Hsz as [-> Hsz].
  apply io_bind_ret in Hh as (width & fs0 & Hw & Hh).
  apply io_pure_ret in Hw as [-> Hw].
  apply io_bind_ret in Hh as (height & fs0 & Hht & Hh).
  apply io_pure_ret in Hht as [-> Hht].
  apply io_bind_ret in Hh as (format & fs0 & Hf & Hh).
  apply io_pure_ret in Hf as [-> Hf].
  injection Hh as -> _.
  exists msg, stats, capacity, fs1, prepared_path, img, stego_img, fs2.
  repeat split; try done.
  - destruct (bool_decide _ && _) eqn:Hb.
    + unfold os_remove in Hrm. destruct (fs2 !! realpath prepared_path); [|done].
      destruct (refuses_remove prepared_path); by simplify_eq.
    + by simplify_eq.
  - unfold os_path_getsize in Hsz. destruct (fs' !! realpath output_path); [eauto|done].
Qed.

(** The file [save] leaves at a path. *)
Lemma Image_save_ret fs img p fs' :
  Image_save fs img p = Ret fs' →
  fs' = <[realpath p := {| f_size := png_size img; f_image := Some (png_reload img) |}]> fs.
Proof.
  unfold Image_save. destruct (Image_load img); cbn; [|done].
  destruct (refuses_write p); [done|]. case_bool_decide; [|done]. by intros [= <-].
Qed.

Lemma prepare_image_path image_path fs fs' prepared_path :
  prepare_image image_path None fs = (fs', Ret prepared_path) →
  with_suffix_png image_path = Ret prepared_path.
Proof.
  unfold prepare_image. intros Hp.
  apply io_bind_ret in Hp as (img & fs0 & _ & Hp).
  apply io_bind_ret in Hp as (img' & fs1 & _ & Hp).
  apply io_bind_ret in Hp as (data & fs2 & _ & Hp).
  apply io_bind_ret in Hp as (output_path & fs3 & Ho & Hp).
  apply io_pure_ret in Ho as [-> Ho].
  apply io_bind_ret in Hp as ([] & fs4 & _ & Hp).
  by injection Hp as -> ->.
Qed.

(** *** The frame of a computation: a path it leaves alone *)

Lemma preserves_bind {A B} p (m : io A) (f : A → io B) :
  preserves p m →
  (∀ a, (∃ fs fs1, m fs = (fs1, Ret a)) → preserves p (f a)) →
  preserves p (m ≫= f).
Proof.
  intros Hm Hf fs fs' r. unfold mbind, io_bind.
  destruct (m fs) as [fs1 [a|e]] eqn:Hrun.
  - intros Hrest. rewrite (Hf a (ex_intro _ fs (ex_intro _ fs1 Hrun)) _ _ _ Hrest). eauto.
  - intros [= <- <-]. eauto.
Qed.

Lemma preserves_ret {A} p (a : A) : preserves p (mret a).
Proof. by intros fs fs' r [= <- <-]. Qed.

Lemma preserves_read {A} p (f : gmap string file → outcome A) : preserves p (io_read f).
Proof. by intros fs fs' r [= <- <-]. Qed.

Lemma preserves_pure {A} p (o : outcome A) : preserves p (io_pure o).
Proof. by intros fs fs' r [= <- <-]. Qed.

Lemma preserves_raise {A} p e : preserves p (io_raise (A:=A) e).
Proof. by intros fs fs' r [= <- <-]. Qed.

Lemma preserves_save p img q :
  realpath q ≠ p → preserves p (io_write (λ fs, Image_save fs img q)).
Proof.
  intros Hne fs fs' r. unfold io_write.
  destruct (Image_save fs img q) as [fs1|e] eqn:Hs; intros [= <- <-]; [|done].
  apply Image_save_ret in Hs as ->. by rewrite lookup_insert_ne.
Qed.

Lemma preserves_remove p (b : gmap string file → bool) q :
  realpath q ≠ p →
  preserves p (io_write (λ fs, if b fs then os_remove fs q else Ret fs)).
Proof.
  intros Hne fs fs' r. unfold io_write, os_remove.
  destruct (b fs); [|by intros [= <- <-]].
  destruct (fs !! realpath q); [|by intros [= <- <-]].
  destruct (refuses_remove q); intros [= <- <-]; [done|].
  by rewrite lookup_delete_ne.
Qed.

Lemma prepare_image_preserves p image_path :
  (∀ prepared_path, with_suffix_png image_path = Ret prepared_path →
                    realpath prepared_path ≠ p) →
  preserves p (prepare_image image_path None).
Proof.
  intros Hne. unfold prepare_image.
  apply preserves_bind; [apply preserves_read|intros img _].
  apply preserves_bind; [apply preserves_pure|intros img' _].
  apply preserves_bind; [apply preserves_pure|intros data _].
  apply preserves_bind; [apply preserves_pure|intros output_path (fs & fs1 & Ho)].
  apply io_pure_ret in Ho as [_ Ho].
  apply preserves_bind; [|intros; apply preserves_ret].
  by apply preserves_save, Hne.
Qed.

Lemma hide_preserves p cover_path secret_data output_path :
  (∀ prepared_path, with_suffix_png cover_path = Ret prepared_path →
                    realpath prepared_path ≠ p) →
  realpath output_path ≠ p →
  preserves p (hide cover_path secret_data output_path).
Proof.
  intros Hprep Hout. unfold hide.
  apply preserves_bind; [apply preserves_read|intros [[is_valid msg] stats] _].
  destruct is_valid; [|apply preserves_raise]. cbn [negb].
  apply preserves_bind; [apply preserves_pure|intros capacity _].
  destruct (capacity <? _); [apply preserves_raise|].
  apply preserves_bind; [by apply prepare_image_preserves|].
  intros prepared_path (fs & fs1 & Hp). apply prepare_image_path in Hp.
  apply preserves_bind; [apply preserves_read|intros stego_img _].
  apply preserves_bind; [by apply preserves_save|intros _ _].
  apply preserves_bind.
  { apply (preserves_remove p
             (λ fs, bool_decide (prepared_path ≠ cover_path) && os_path_exists fs prepared_path)).
    by apply Hprep. }
  intros _ _.
  apply preserves_bind; [apply preserves_pure|intros size_kb _].
  apply preserves_bind; [apply preserves_read|intros stego_size _].
  apply preserves_bind; [apply preserves_pure|intros width _].
  apply preserves_bind; [apply preserves_pure|intros height _].
  apply preserves_bind; [apply preserves_pure|intros format _].
  apply preserves_ret.
Qed.

(** When [hide] returns, the output path holds the stego image as a PNG. *)
Lemma hide_ret_output cover_path secret_data output_path fs fs' st :
  hide cover_path secret_data output_path fs = (fs', Ret st) →
  ∃ img stego_img,
    lsb_hide img secret_data = Ret stego_img ∧
    fs' !! realpath output_path =
      Some {| f_size := png_size stego_img; f_image := Some (png_reload stego_img) |}.
Proof.
  intros Hh. apply hide_ret_inv in Hh
    as (msg & stats & capacity & fs1 & prepared_path & img & stego_img & fs2
        & _ & _ & _ & _ & _ & Hl & Hs & Hfs & Hout).
  exists img, stego_img. split; [done|].
  apply Image_save_ret in Hs. subst fs2.
  destruct (bool_decide _ && _); subst fs'.
  - destruct (decide (realpath prepared_path = realpath output_path)) as [Heq|Hne].
    + rewrite Heq, lookup_delete_eq in Hout. by destruct Hout.
    + rewrite lookup_delete_ne by done. by rewrite lookup_insert_eq.
  - by rewrite lookup_insert_eq.
Qed.

End hide_facts.

(** ** The reference codec honours the contract of stegano *)

Module SteganoRefFacts.
Import SteganoRef.

Lemma chars_of_bits_a2bits s rest :
  chars_of_bits (a2bits s ++ rest) = s ++ chars_of_bits rest.
Proof.
  unfold a2bits.
  induction s as [|[b0 b1 b2 b3 b4 b5 b6 b7] s IH]; [done|].
  cbn [flat_map bits_of_ascii app chars_of_bits]. by rewrite IH.
Qed.

Lemma odd_setlsb v b : Z.odd (setlsb v b) = b.
Proof.
  unfold setlsb. rewrite <- Z.bit0_odd. destruct b.
  - rewrite Z.lor_spec. apply orb_true_r.
  - rewrite Z.land_spec. apply andb_false_r.
Qed.

Lemma extract_embed px : ∀ bits px',
  embed bits px = Some px' → ∃ tail, extract px' = bits ++ tail.
Proof.
  induction px as [|p px IH]; intros bits px'.
  - destruct bits as [|b0 [|b1 [|b2 bits]]]; cbn; try done.
    intros [= <-]. by exists [].
  - destruct bits as [|b0 [|b1 [|b2 bits]]]; cbn; try done.
    { intros [= <-]. eauto. }
    destruct p as [|r [|g [|b a]]]; try done.
    destruct (embed bits px) as [px''|] eqn:He; [|done].
    intros [= <-]. apply IH in He as [tail Ht].
    exists tail. unfold extract in *. cbn. rewrite Ht.
    by rewrite !odd_setlsb.
Qed.

Lemma split_colon_app digits rest :
  ":"%char ∉ digits → split_colon (digits ++ ":"%char :: rest) = Some (digits, rest).
Proof.
  induction digits as [|c digits IH]; intros Hnot; cbn.
  - by rewrite bool_decide_eq_true_2.
  - rewrite bool_decide_eq_false_2 by (intros ->; apply Hnot; left).
    rewrite IH; [done|]. intros Hin. apply Hnot. by right.
Qed.

Lemma colon_not_in_digits u :
  ":"%char ∉ list_ascii_of_string (NilEmpty.string_of_uint u).
Proof.
  induction u; cbn; [apply not_elem_of_nil|..];
    (apply not_elem_of_cons; split; [done|assumption]).
Qed.

Lemma to_uint_nonnil n : Nat.to_uint n ≠ Decimal.Nil.
Proof.
  rewrite <- (DecimalNat.Unsigned.of_to n) at 1.
  rewrite DecimalNat.Unsigned.to_of. apply unorm_nonnil.
Qed.

Lemma colon_not_in_str_nat n : ":"%char ∉ str_nat n.
Proof.
  unfold str_nat, NilZero.string_of_uint.
  pose proof (to_uint_nonnil n) as Hn.
  destruct (Nat.to_uint n) eqn:Hu; [done|..]; rewrite <- Hu; apply colon_not_in_digits.
Qed.

Lemma read_message_header msg junk :
  read_message (str_nat (String.length msg) ++ ":"%char :: list_ascii_of_string msg ++ junk)
  = Some msg.
Proof.
  unfold read_message.
  rewrite split_colon_app by apply colon_not_in_str_nat.
  unfold str_nat. rewrite string_of_list_ascii_of_string.
  rewrite NilZero.usu by apply to_uint_nonnil.
  rewrite DecimalNat.Unsigned.of_to.
  assert (String.length msg = List.length (list_ascii_of_string msg)) as Hlen.
  { induction msg; cbn; congruence. }
  rewrite bool_decide_eq_true_2 by (rewrite length_app; lia).
  rewrite Hlen, take_app_length. by rewrite string_of_list_ascii_of_string.
Qed.

#[global] Instance stegano_ref_contract : SteganoContract.
Proof.
  split. intros img msg img'. cbn. unfold hide_lsb, reveal_lsb.
  case_bool_decide; [done|]. case_bool_decide; [done|].
  destruct (Image_load img) as [data|]; [|done]. cbn.
  destruct (_ <? _); [done|].
  destruct (embed (message_bits msg) data) as [data'|] eqn:He; [|done].
  intros [= <-]. cbn.
  apply extract_embed in He as [tail ->].
  unfold message_bits. rewrite <- !app_assoc, chars_of_bits_a2bits.
  rewrite <- app_assoc. cbn [app]. by rewrite read_message_header.
Qed.

End SteganoRefFacts.

(** ** The reference conversion honours the contract of Pillow *)

#[global] Instance pillow_ref_contract : PillowContract.
Proof.
  split. intros mode p. cbn. unfold PillowRef.to_mode.
  rewrite bool_decide_eq_true_2 by done. by destruct p as [|? [|? [|? ?]]].
Qed.

(** * The codecs: base64, UTF-8, JSON *)

(** ** Finite checks by computation *)

Lemma byte_of_to_N (b : byte) : byte_of_N (Byte.to_N b) = b.
Proof. unfold byte_of_N. by rewrite Byte.of_to_N. Qed.

Lemma elem_of_all_bytes (b : byte) : b ∈ all_bytes.
Proof.
  unfold all_bytes. apply list_elem_of_fmap.
  exists (N.to_nat (Byte.to_N b)). split.
  - by rewrite N2Nat.id, byte_of_to_N.
  - apply elem_of_seq. pose proof (Byte.to_N_bounded b). lia.
Qed.

Lemma forall_bytes (P : byte → bool) :
  forallb P all_bytes = true → ∀ b, P b = true.
Proof.
  intros Hall b. rewrite forallb_forall in Hall.
  apply Hall, list_elem_of_In, elem_of_all_bytes.
Qed.

Lemma forall_bytes2 (P : byte → byte → bool) :
  forallb (λ x, forallb (P x) all_bytes) all_bytes = true → ∀ x y, P x y = true.
Proof.
  intros Hall x y. apply (forall_bytes (P x)).
  by apply (forall_bytes (λ x, forallb (P x) all_bytes)).
Qed.

Lemma forall_below (P : N → bool) (n : nat) :
  forallb P (N.of_nat <$> seq 0 n) = true → ∀ k, (k < N.of_nat n)%N → P k = true.
Proof.
  intros Hall k Hk. rewrite forallb_forall in Hall. apply Hall.
  apply list_elem_of_In, list_elem_of_fmap. exists (N.to_nat k).
  split; [by rewrite N2Nat.id|]. apply elem_of_seq. lia.
Qed.

(** ** base64 *)

Lemma sextet_facts k :
  (k < 64)%N →
  b64_value (b64_char k) = Some k ∧ b64_char k ≠ BASE64_PAD
  ∧ (N_of_ascii (b64_char k) < 128)%N.
Proof.
  intros Hk.
  assert (sextet_ok k = true) as Hok.
  { apply (forall_below sextet_ok 64); [by vm_compute|done]. }
  unfold sextet_ok in Hok.
  apply andb_true_iff in Hok as [Hok H3]. apply andb_true_iff in Hok as [H1 H2].
  apply bool_decide_eq_true in H1. apply negb_true_iff, bool_decide_eq_false in H2.
  by apply N.ltb_lt in H3.
Qed.

Lemma regroup_facts x y :
  ((sextet0 x < 64)%N ∧ (sextet1 x y < 64)%N ∧ (sextet2 x y < 64)%N ∧ (sextet3 x < 64)%N)
  ∧ (N.land (sextet1 x y) 15 = N.shiftr (Byte.to_N y) 4
     ∧ N.shiftr (sextet2 x y) 2 = N.land (Byte.to_N x) 15
     ∧ N.land (sextet2 x y) 3 = N.shiftr (Byte.to_N y) 6)
  ∧ (byte_of_N (N.lor (N.shiftl (sextet0 x) 2) (N.shiftr (sextet1 x y) 4)) = x
     ∧ byte_of_N (N.lor (N.shiftl (N.shiftr (Byte.to_N x) 4) 4) (N.land (Byte.to_N x) 15)) = x
     ∧ byte_of_N (N.lor (N.shiftl (N.shiftr (Byte.to_N x) 6) 6) (sextet3 x)) = x).
Proof.
  assert (regroup_ok x y = true) as Hok.
  { apply (forall_bytes2 regroup_ok). by vm_compute. }
  unfold regroup_ok in Hok.
  repeat (apply andb_true_iff in Hok as [Hok ?]).
  repeat match goal with
         | H : (_ <? _)%N = true |- _ => apply N.ltb_lt in H
         | H : (_ =? _)%N = true |- _ => apply N.eqb_eq in H
         | H : bool_decide _ = true |- _ => apply bool_decide_eq_true in H
         end.
  repeat split; assumption.
Qed.

Lemma a2b_base64_data c v s quad_pos leftchar pads out :
  c ≠ BASE64_PAD → b64_value c = Some v →
  a2b_base64 (c :: s) quad_pos leftchar pads out =
    match quad_pos with
    | 0%nat => a2b_base64 s 1%nat v 0%nat out
    | 1%nat =>
        a2b_base64 s 2%nat (N.land v 15) 0%nat
          (out ++ [byte_of_N (N.lor (N.shiftl leftchar 2) (N.shiftr v 4))])
    | 2%nat =>
        a2b_base64 s 3%nat (N.land v 3) 0%nat
          (out ++ [byte_of_N (N.lor (N.shiftl leftchar 4) (N.shiftr v 2))])
    | _ => a2b_base64 s 0%nat 0%N 0%nat (out ++ [byte_of_N (N.lor (N.shiftl leftchar 6) v)])
    end.
Proof.
  intros Hpad Hval. cbn [a2b_base64].
  rewrite bool_decide_eq_false_2 by done. by rewrite Hval.
Qed.

Lemma a2b_base64_sextet k s quad_pos leftchar pads out :
  (k < 64)%N →
  a2b_base64 (b64_char k :: s) quad_pos leftchar pads out =
    match quad_pos with
    | 0%nat => a2b_base64 s 1%nat k 0%nat out
    | 1%nat =>
        a2b_base64 s 2%nat (N.land k 15) 0%nat
          (out ++ [byte_of_N (N.lor (N.shiftl leftchar 2) (N.shiftr k 4))])
    | 2%nat =>
        a2b_base64 s 3%nat (N.land k 3) 0%nat
          (out ++ [byte_of_N (N.lor (N.shiftl leftchar 4) (N.shiftr k 2))])
    | _ => a2b_base64 s 0%nat 0%N 0%nat (out ++ [byte_of_N (N.lor (N.shiftl leftchar 6) k)])
    end.
Proof.
  intros Hk. destruct (sextet_facts k Hk) as (Hv & Hp & _).
  by apply a2b_base64_data.
Qed.

(** A whole quad gives back its three bytes. *)
Lemma a2b_base64_quad x y z s leftchar pads out :
  a2b_base64 (b64_char (sextet0 x) :: b64_char (sextet1 x y)
                :: b64_char (sextet2 y z) :: b64_char (sextet3 z) :: s)
             0 leftchar pads out
  = a2b_base64 s 0 0%N 0 (out ++ [x; y; z]).
Proof.
  destruct (regroup_facts x y) as ((H0 & H1 & _ & _) & (HA & _ & _) & (F1 & _ & _)).
  destruct (regroup_facts y z) as ((_ & _ & H2 & _) & (_ & HB & HD) & (_ & FC & _)).
  destruct (regroup_facts z z) as ((_ & _ & _ & H3) & _ & (_ & _ & FE)).
  rewrite (a2b_base64_sextet _ _ 0) by done.
  rewrite (a2b_base64_sextet _ _ 1) by done.
  rewrite (a2b_base64_sextet _ _ 2) by done.
  rewrite (a2b_base64_sextet _ _ 3) by done.
  rewrite F1, HA, HB, FC, HD, FE. by rewrite <- !app_assoc.
Qed.

Lemma list_ind3 {A} (P : list A → Prop) :
  P [] → (∀ x, P [x]) → (∀ x y, P [x; y]) →
  (∀ x y z l, P l → P (x :: y :: z :: l)) →
  ∀ l, P l.
Proof.
  intros H0 H1 H2 H3 l.
  cut (P l ∧ (∀ x, P (x :: l)) ∧ (∀ x y, P (x :: y :: l))); [tauto|].
  induction l as [|a l (IH0 & IH1 & IH2)]; [by auto|].
  split; [apply IH1|]. split; [intros x; apply (IH2 x a)|]. intros x y. by apply H3.
Qed.

Lemma sextet1_tail x : N.shiftl (N.land (Byte.to_N x) 3) 4 = sextet1 x x00.
Proof. unfold sextet1. cbn. by rewrite N.lor_0_r. Qed.

Lemma sextet2_tail y : N.shiftl (N.land (Byte.to_N y) 15) 2 = sextet2 y x00.
Proof. unfold sextet2. cbn. by rewrite N.lor_0_r. Qed.

(** Decoding what was encoded gives the bytes back. *)
Lemma a2b_b2a_base64 b : ∀ leftchar pads out,
  a2b_base64 (b2a_base64 b) 0 leftchar pads out = Ret (out ++ b).
Proof.
  induction b as [|x|x y|x y z b IH] using list_ind3; intros leftchar pads out.
  - cbn. by rewrite List.app_nil_r.
  - cbn [b2a_base64]. rewrite sextet1_tail. fold (sextet0 x).
    destruct (regroup_facts x x00) as ((H0 & H1 & _ & _) & _ & (F1 & _ & _)).
    rewrite (a2b_base64_sextet _ _ 0) by done.
    rewrite (a2b_base64_sextet _ _ 1) by done.
    rewrite F1. reflexivity.
  - cbn [b2a_base64]. rewrite sextet2_tail. fold (sextet0 x) (sextet1 x y).
    destruct (regroup_facts x y) as ((H0 & H1 & _ & _) & (HA & _ & _) & (F1 & _ & _)).
    destruct (regroup_facts y x00) as ((_ & _ & H2 & _) & (_ & HB & _) & (_ & FC & _)).
    rewrite (a2b_base64_sextet _ _ 0) by done.
    rewrite (a2b_base64_sextet _ _ 1) by done.
    rewrite (a2b_base64_sextet _ _ 2) by done.
    rewrite F1, HA, HB, FC. cbn. by rewrite <- app_assoc.
  - cbn [b2a_base64]. fold (sextet0 x) (sextet1 x y) (sextet2 y z) (sextet3 z).
    rewrite a2b_base64_quad, IH. by rewrite <- app_assoc.
Qed.

Lemma b2a_base64_ascii b : Forall (λ c, (N_of_ascii c < 128)%N) (b2a_base64 b).
Proof.
  induction b as [|x|x y|x y z b IH] using list_ind3; cbn [b2a_base64].
  - constructor.
  - rewrite sextet1_tail. fold (sextet0 x).
    destruct (regroup_facts x x00) as ((H0 & H1 & _ & _) & _).
    repeat constructor; try (by apply sextet_facts); by vm_compute.
  - rewrite sextet2_tail. fold (sextet0 x) (sextet1 x y).
    destruct (regroup_facts x y) as ((H0 & H1 & _ & _) & _).
    destruct (regroup_facts y x00) as ((_ & _ & H2 & _) & _).
    repeat constructor; try (by apply sextet_facts); by vm_compute.
  - fold (sextet0 x) (sextet1 x y) (sextet2 y z) (sextet3 z).
    destruct (regroup_facts x y) as ((H0 & H1 & _ & _) & _).
    destruct (regroup_facts y z) as ((_ & _ & H2 & _) & _).
    destruct (regroup_facts z z) as ((_ & _ & _ & H3) & _).
    repeat (constructor; [by apply sextet_facts|]). done.
Qed.

(** [base64.b64decode(s)] undoes [binascii.b2a_base64]. *)
Lemma b64decode_b2a b : b64decode (string_of_list_ascii (b2a_base64 b)) = Ret b.
Proof.
  unfold b64decode. rewrite list_ascii_of_string_of_list_ascii.
  rewrite bool_decide_eq_true_2 by apply b2a_base64_ascii.
  apply (a2b_b2a_base64 b 0%N 0%nat []).
Qed.

(** ** UTF-8 *)

Lemma utf8_decode_ascii l :
  Forall (λ c, (N_of_ascii c < 128)%N) l →
  utf8_decode_list (byte_of_ascii <$> l) = Some l.
Proof.
  induction 1 as [|c l Hc _ IH]; [done|]. cbn.
  assert (Byte.to_N (byte_of_ascii c) = N_of_ascii c) as ->.
  { apply Byte.to_of_N. by rewrite <- byte_of_ascii_via_N. }
  rewrite (proj2 (N.ltb_lt _ _) Hc), IH. cbn. by rewrite ascii_N_embedding.
Qed.

(** [base64.b64encode(b).decode('utf-8')] *)
Lemma utf8_decode_b64encode b :
  utf8_decode (b64encode b) = Ret (string_of_list_ascii (b2a_base64 b)).
Proof.
  unfold utf8_decode, b64encode.
  by rewrite utf8_decode_ascii by apply b2a_base64_ascii.
Qed.

Lemma utf8_decode_encode_char c rest :
  utf8_decode_list (utf8_char c ++ rest) = cons c <$> utf8_decode_list rest.
Proof. destruct c as [[] [] [] [] [] [] [] []]; reflexivity. Qed.

(** [s.encode('utf-8').decode('utf-8')] *)
Lemma utf8_decode_encode s : utf8_decode (utf8_encode s) = Ret s.
Proof.
  unfold utf8_decode, utf8_encode.
  assert (utf8_decode_list (flat_map utf8_char (list_ascii_of_string s))
          = Some (list_ascii_of_string s)) as ->.
  { induction (list_ascii_of_string s) as [|c l IH]; [done|].
    cbn [flat_map]. by rewrite utf8_decode_encode_char, IH. }
  by rewrite string_of_list_ascii_of_string.
Qed.

(** Strings and their lists of characters. *)

Lemma string_length_of_list l : String.length (string_of_list_ascii l) = List.length l.
Proof. induction l as [|c l IH]; cbn; [done|]. by rewrite IH. Qed.


Lemma substring_prefix n s :
  list_ascii_of_string (substring 0 n s) = take n (list_ascii_of_string s).
Proof.
  revert s. induction n as [|n IH]; intros [|c s]; cbn; try done. by rewrite IH.
Qed.


(** ** JSON *)

Lemma scanstring_escape c t :
  scanstring (json_escape c ++ t) =
    match scanstring t with
    | Some (str, rest) => Some (c :: str, rest)
    | None => None
    end.
Proof. destruct c as [[] [] [] [] [] [] [] []]; reflexivity. Qed.

Lemma scanstring_encoded l rest :
  scanstring (flat_map json_escape l ++ QUOTE :: rest) = Some (l, rest).
Proof.
  induction l as [|c l IH]; [done|].
  cbn [flat_map]. by rewrite <- app_assoc, scanstring_escape, IH.
Qed.

Lemma skip_ws_app ws s : Forall (λ c, is_ws c = true) ws → skip_ws (ws ++ s) = skip_ws s.
Proof. induction 1 as [|c ws Hc _ IH]; [done|]. cbn. by rewrite Hc. Qed.

Lemma skip_ws_stop c s : is_ws c = false → skip_ws (c :: s) = c :: s.
Proof. intros Hc. cbn. by rewrite Hc. Qed.

(** *** Integers *)

Lemma digits_of_uint u :
  Forall (λ c, is_digit c = true) (list_ascii_of_string (NilEmpty.string_of_uint u)).
Proof. induction u; cbn; constructor; done. Qed.

Lemma span_digits_app ds rest :
  Forall (λ c, is_digit c = true) ds →
  match rest with [] => True | c :: _ => is_digit c = false end →
  span_digits (ds ++ rest) = (ds, rest).
Proof.
  intros Hds Hrest. induction Hds as [|c ds Hc _ IH]; cbn.
  - destruct rest as [|c rest]; [done|]. cbn. by rewrite Hrest.
  - by rewrite Hc, IH.
Qed.

Lemma pos_to_uint_unorm p : Decimal.unorm (Pos.to_uint p) = Pos.to_uint p.
Proof.
  rewrite <- DecimalPos.Unsigned.to_of, DecimalPos.Unsigned.of_to. reflexivity.
Qed.

Lemma pos_to_uint_head p u : Pos.to_uint p ≠ Decimal.D0 u.
Proof.
  intros Heq. pose proof (pos_to_uint_unorm p) as Hn. rewrite Heq in Hn.
  rewrite unorm_D0 in Hn.
  assert (u = Decimal.Nil ∨ u ≠ Decimal.Nil) as [->|Hu] by (destruct u; auto).
  - by apply (DecimalPos.Unsigned.to_uint_nonzero p).
  - pose proof (nb_digits_unorm u Hu) as Hle. rewrite Hn in Hle. cbn in Hle. lia.
Qed.

Lemma abs_uint_nonnil n : abs_uint n ≠ Decimal.Nil.
Proof. destruct n; [done|apply DecimalPos.Unsigned.to_uint_nonnil..]. Qed.

Lemma str_int_digits n :
  list_ascii_of_string (str_int n) =
    (if n <? 0 then ["-"%char] else [])
      ++ list_ascii_of_string (NilEmpty.string_of_uint (abs_uint n)).
Proof.
  unfold str_int. destruct n as [|p|p]; cbn; [done|..].
  - pose proof (DecimalPos.Unsigned.to_uint_nonnil p). by destruct (Pos.to_uint p).
  - pose proof (DecimalPos.Unsigned.to_uint_nonnil p). by destruct (Pos.to_uint p).
Qed.

Lemma abs_uint_value n : Z.of_uint (abs_uint n) = Z.abs n.
Proof.
  destruct n as [|p|p]; [done|..]; cbn; unfold Z.of_uint;
    by rewrite DecimalPos.Unsigned.of_to.
Qed.

Lemma abs_uint_leading n d ds :
  list_ascii_of_string (NilEmpty.string_of_uint (abs_uint n)) = d :: ds →
  bool_decide (d = "0"%char) && negb (bool_decide (ds = [])) = false.
Proof.
  destruct n as [|p|p]; cbn.
  - by intros [= <- <-].
  - pose proof (pos_to_uint_head p). destruct (Pos.to_uint p); cbn; try done;
      try (by intros [= <- <-]). by edestruct H.
  - pose proof (pos_to_uint_head p). destruct (Pos.to_uint p); cbn; try done;
      try (by intros [= <- <-]). by edestruct H.
Qed.

Lemma scan_int_str_int n rest :
  ends_number rest →
  scan_int (list_ascii_of_string (str_int n) ++ rest) = Some (n, rest).
Proof.
  intros Hrest. rewrite str_int_digits. unfold scan_int.
  set (ds := list_ascii_of_string (NilEmpty.string_of_uint (abs_uint n))).
  assert (Forall (λ c, is_digit c = true) ds) as Hds by apply digits_of_uint.
  assert (span_digits (ds ++ rest) = (ds, rest)) as Hspan.
  { apply span_digits_app; [done|]. destruct rest; [done|]. apply Hrest. }
  assert (NilZero.uint_of_string (string_of_list_ascii ds) = Some (abs_uint n)) as Hparse.
  { unfold ds. rewrite string_of_list_ascii_of_string.
    pose proof (abs_uint_nonnil n) as Hn.
    rewrite <- (NilZero.usu _ Hn). f_equal.
    unfold NilZero.string_of_uint. by destruct (abs_uint n). }
  destruct ds as [|d ds'] eqn:Hdseq.
  { exfalso. pose proof (abs_uint_nonnil n) as Hn. subst ds.
    destruct (abs_uint n); done. }
  assert (d ≠ "-"%char) as Hd.
  { intros ->. by inversion Hds. }
  pose proof (abs_uint_leading n d ds' Hdseq) as Hlead.
  cbn [app] in Hspan.
  destruct (n <? 0) eqn:Hneg.
  - cbn [app]. rewrite Hspan, Hlead, Hparse, abs_uint_value.
    apply Z.ltb_lt in Hneg.
    destruct rest as [|c rest'].
    + do 2 f_equal. lia.
    + destruct Hrest as [_ Hc]. rewrite bool_decide_eq_false_2 by done.
      do 2 f_equal. lia.
  - cbn [app].
    assert (match d :: ds' ++ rest with
            | "-"%char :: s' => (true, s')
            | _ => (false, d :: ds' ++ rest)
            end = (false, d :: ds' ++ rest)) as ->.
    { destruct d as [[] [] [] [] [] [] [] []]; try done. }
    rewrite Hspan, Hlead, Hparse, abs_uint_value.
    apply Z.ltb_ge in Hneg.
    destruct rest as [|c rest'].
    + do 2 f_equal. lia.
    + destruct Hrest as [_ Hc]. rewrite bool_decide_eq_false_2 by done.
      do 2 f_equal. lia.
Qed.

(** *** Values and members *)

Lemma json_encode_value_head v :
  ∃ c l, json_encode_value v = c :: l ∧ is_ws c = false
         ∧ (c = QUOTE ∨ (c ≠ QUOTE ∧ ∃ n, v = JInt n)).
Proof.
  destruct v as [s|n]; cbn.
  - eexists _, _. split; [reflexivity|]. split; [done|by left].
  - rewrite str_int_digits.
    destruct (n <? 0); cbn.
    + eexists _, _. split; [reflexivity|]. split; [done|]. right. split; [done|eauto].
    + pose proof (digits_of_uint (abs_uint n)) as Hds.
      pose proof (abs_uint_nonnil n) as Hn.
      destruct (list_ascii_of_string (NilEmpty.string_of_uint (abs_uint n)))
        as [|d ds] eqn:Hl.
      { destruct (abs_uint n); done. }
      apply Forall_cons in Hds as [Hd _].
      eexists _, _. split; [reflexivity|].
      destruct d as [[] [] [] [] [] [] [] []]; try done; split; try done;
        right; split; try done; eauto.
Qed.

Lemma scan_value_encoded v tail :
  after_value tail → scan_value (json_encode_value v ++ tail) = Some (v, tail).
Proof.
  intros (c & t & -> & Hc).
  destruct v as [s|n].
  - cbn. rewrite bool_decide_eq_true_2 by done.
    rewrite <- app_assoc. cbn [app].
    by rewrite scanstring_encoded, string_of_list_ascii_of_string.
  - destruct (json_encode_value_head (JInt n)) as (h & l & Hh & _ & [->|[Hq _]]).
    { exfalso. cbn in Hh. rewrite str_int_digits in Hh.
      destruct (n <? 0); cbn in Hh; [done|].
      pose proof (digits_of_uint (abs_uint n)) as Hds.
      rewrite Hh in Hds. by inversion Hds. }
    unfold scan_value. rewrite Hh. cbn [app].
    rewrite bool_decide_eq_false_2 by done.
    rewrite app_comm_cons, <- Hh. cbn [json_encode_value].
    rewrite scan_int_str_int; [done|].
    destruct Hc as [->| ->]; (split; [done|]);
      intros Hin; repeat (apply elem_of_cons in Hin as [Hin|Hin]; [done|]);
      by apply elem_of_nil in Hin.
Qed.

Section members.
Context (item_sep key_sep ws_item ws_key : list ascii).
Hypothesis item_sep_shape : item_sep = ","%char :: ws_item.
Hypothesis key_sep_shape : key_sep = ":"%char :: ws_key.
Hypothesis ws_item_blank : Forall (λ c, is_ws c = true) ws_item.
Hypothesis ws_key_blank : Forall (λ c, is_ws c = true) ws_key.

Lemma json_encode_items_cons kv items :
  json_encode_items item_sep key_sep (kv :: items)
  = QUOTE :: members_text item_sep key_sep kv items.
Proof.
  revert kv. induction items as [|kv' items IH]; intros kv.
  - cbn. unfold json_encode_item, encode_basestring_ascii.
    cbn. rewrite <- !app_assoc. cbn. by rewrite List.app_nil_r.
  - change (json_encode_items item_sep key_sep (kv :: kv' :: items))
      with (json_encode_item key_sep kv ++ item_sep
              ++ json_encode_items item_sep key_sep (kv' :: items)).
    rewrite IH. cbn [members_text].
    unfold json_encode_item, encode_basestring_ascii.
    cbn [app]. by rewrite <- !app_assoc.
Qed.

Lemma members_text_length kv items :
  (List.length items < List.length (members_text item_sep key_sep kv items ++ ["}"%char]))%nat.
Proof.
  revert kv. induction items as [|kv' items IH]; intros kv.
  - rewrite length_app. cbn. lia.
  - specialize (IH kv'). cbn [members_text].
    repeat (rewrite ?length_app in *; cbn [List.length] in * ). lia.
Qed.

Lemma parse_members_text items : ∀ kv fuel rest,
  (List.length items < fuel)%nat →
  parse_members fuel (members_text item_sep key_sep kv items ++ "}"%char :: rest)
  = Some (kv :: items, rest).
Proof.
  induction items as [|kv' items IH]; intros [k v] fuel rest Hfuel;
    (destruct fuel as [|fuel]; [cbn in Hfuel; lia|]);
    cbn [parse_members members_text fst snd];
    rewrite <- !app_assoc; cbn [app];
    rewrite scanstring_encoded, key_sep_shape; cbn [app];
    rewrite (skip_ws_stop ":"%char) by done;
    rewrite (bool_decide_eq_true_2 (":"%char = ":"%char)) by done;
    rewrite <- !app_assoc, skip_ws_app by done;
    destruct (json_encode_value_head v) as (c & l & Hv & Hc & _).
  - rewrite Hv. cbn [app]. rewrite skip_ws_stop by done.
    rewrite app_comm_cons, <- Hv.
    rewrite scan_value_encoded by (eexists _, _; eauto).
    rewrite skip_ws_stop by done.
    rewrite (bool_decide_eq_true_2 ("}"%char = "}"%char)) by done.
    by rewrite string_of_list_ascii_of_string.
  - rewrite Hv. cbn [app]. rewrite skip_ws_stop by done.
    rewrite app_comm_cons, <- Hv.
    rewrite item_sep_shape. cbn [app].
    rewrite scan_value_encoded by (eexists _, _; eauto).
    rewrite skip_ws_stop by done.
    rewrite (bool_decide_eq_false_2 (","%char = "}"%char)) by done.
    rewrite (bool_decide_eq_true_2 (","%char = ","%char)) by done.
    rewrite skip_ws_app by done. rewrite skip_ws_stop by done.
    rewrite (bool_decide_eq_true_2 (QUOTE = QUOTE)) by done.
    rewrite key_sep_shape, item_sep_shape in IH.
    rewrite IH by (cbn in Hfuel; lia).
    by rewrite string_of_list_ascii_of_string.
Qed.

End members.

(** *** Dictionaries *)

Lemma dict_set_fresh k v d : k ∉ d.*1 → dict_set k v d = d ++ [(k, v)].
Proof.
  induction d as [|[k' v'] d IH]; intros Hk; [done|]. cbn.
  rewrite bool_decide_eq_false_2 by (intros ->; apply Hk; left).
  rewrite IH; [done|]. intros Hin. apply Hk. by right.
Qed.

Lemma dict_update_fresh items : ∀ d,
  NoDup ((d ++ items).*1) → dict_update d items = d ++ items.
Proof.
  unfold dict_update.
  induction items as [|[k v] items IH]; intros d Hnd; cbn.
  - by rewrite List.app_nil_r.
  - rewrite dict_set_fresh.
    + rewrite IH; rewrite <- app_assoc; done.
    + rewrite fmap_app in Hnd. apply NoDup_app in Hnd as (_ & Hdis & _).
      intros Hin. apply (Hdis k Hin). left.
Qed.

Lemma dict_update_empty items : NoDup items.*1 → dict_update [] items = items.
Proof. intros Hnd. by rewrite dict_update_fresh. Qed.

(** *** [loads] after [dumps] *)

Lemma json_loads_dumps d sort_keys item_sep key_sep :
  separators_ok item_sep key_sep → NoDup d.*1 →
  json_loads (json_dumps d sort_keys item_sep key_sep)
    = Ret (if sort_keys then merge_sort key_le d else d).
Proof.
  intros (ws_item & ws_key & Hi & Hk & Hwi & Hwk) Hnd.
  unfold json_dumps.
  set (items := if sort_keys then merge_sort key_le d else d).
  assert (NoDup items.*1) as Hitems.
  { unfold items. destruct sort_keys; [|done].
    by rewrite (merge_sort_Permutation key_le d). }
  clearbody items. unfold json_loads, parse_object.
  rewrite list_ascii_of_string_of_list_ascii.
  rewrite skip_ws_stop by done.
  rewrite (bool_decide_eq_true_2 ("{"%char = "{"%char)) by done.
  destruct items as [|kv items].
  { cbn. done. }
  rewrite (json_encode_items_cons _ _ kv items). cbn [app].
  rewrite skip_ws_stop by done.
  rewrite (bool_decide_eq_false_2 (QUOTE = "}"%char)) by done.
  rewrite (bool_decide_eq_true_2 (QUOTE = QUOTE)) by done.
  rewrite (parse_members_text _ _ ws_item ws_key Hi Hk Hwi Hwk items kv _ []).
  - by rewrite dict_update_empty.
  - apply members_text_length.
Qed.

(** ** The reference primitives honour the contract of cryptography *)

Module CryptoRefFacts.
Import CryptoRef.

Lemma sub_add_byte x k : sub_byte (add_byte x k) k = x.
Proof.
  apply Byte.byte_dec_bl.
  apply (forall_bytes2 (λ x k, Byte.eqb (sub_byte (add_byte x k) k) x)).
  by vm_compute.
Qed.

Lemma mask_length f key nonce data : ∀ i,
  List.length (mask f key nonce i data) = List.length data.
Proof. induction data as [|x data IH]; intros i; cbn; [done|by rewrite IH]. Qed.

Lemma unmask_mask key nonce data : ∀ i,
  mask sub_byte key nonce i (mask add_byte key nonce i data) = data.
Proof.
  induction data as [|x data IH]; intros i; cbn; [done|].
  by rewrite sub_add_byte, IH.
Qed.

Lemma tag_of_length key nonce aad ct : List.length (tag_of key nonce aad ct) = 16%nat.
Proof. unfold tag_of. by rewrite length_fmap, length_seq. Qed.

#[global] Instance cryptography_ref_contract : CryptographyContract.
Proof.
  split.
  - intros key nonce data aad _ _. cbn. unfold unseal, seal.
    set (ct := mask add_byte key nonce 0 data).
    rewrite length_app, tag_of_length.
    rewrite bool_decide_eq_false_2 by lia.
    replace (List.length ct + 16 - 16)%nat with (List.length ct) by lia.
    rewrite take_app_length, drop_app_length.
    rewrite bool_decide_eq_true_2 by done.
    unfold ct. by rewrite unmask_mask.
  - intros key nonce data aad. cbn. unfold seal.
    by rewrite length_app, mask_length, tag_of_length.
  - intros key nonce data aad e _ _. cbn. unfold unseal.
    repeat case_bool_decide; try done; by intros [= <-].
Qed.

End CryptoRefFacts.

(** ** The reference primitives authenticate *)

Module CryptoRefAuthentication.
Import CryptoRef CryptoRefFacts.

Lemma add_sub_byte y k : add_byte (sub_byte y k) k = y.
Proof.
  apply Byte.byte_dec_bl.
  apply (forall_bytes2 (λ y k, Byte.eqb (add_byte (sub_byte y k) k) y)).
  by vm_compute.
Qed.

Lemma mask_unmask key nonce data : ∀ i,
  mask add_byte key nonce i (mask sub_byte key nonce i data) = data.
Proof.
  induction data as [|x data IH]; intros i; cbn; [done|].
  by rewrite add_sub_byte, IH.
Qed.

Lemma mask_inj key nonce p p' :
  mask add_byte key nonce 0 p = mask add_byte key nonce 0 p' → p = p'.
Proof.
  intros Heq. apply (f_equal (mask sub_byte key nonce 0)) in Heq.
  by rewrite !unmask_mask in Heq.
Qed.









Lemma take_seal key nonce p aad :
  take (List.length p) (seal key nonce p aad) = mask add_byte key nonce 0 p.
Proof.
  unfold seal. rewrite <- (mask_length add_byte key nonce p 0) at 1.
  apply take_app_length.
Qed.


#[global] Instance cryptography_ref_authentication : AuthenticationContract.
Proof.
  split.
  - intros key nonce data aad plaintext _ _. cbn. unfold unseal, seal.
    case_bool_decide as Hshort; [done|]. case_bool_decide as Htag; [|done].
    intros [= <-]. rewrite mask_unmask, <- Htag. by rewrite take_drop.
  - intros key nonce p p' aad aad' _ _ Hlen. cbn. rewrite !take_seal. apply mask_inj.
Qed.


End CryptoRefAuthentication.

(** ** The spare bits of a base64 text

    Sixteen bytes are five whole quads and one byte more; the last
    character before the padding carries two bits of that byte and four
    bits that the decoder drops. *)

Lemma b2a_base64_app n : ∀ b b',
  List.length b = (3 * n)%nat → b2a_base64 (b ++ b') = b2a_base64 b ++ b2a_base64 b'.
Proof.
  induction n as [|n IH]; intros b b' Hlen.
  - by destruct b.
  - destruct b as [|x [|y [|z b]]]; cbn in Hlen; try lia.
    cbn [app b2a_base64]. rewrite IH by lia. done.
Qed.

Lemma a2b_base64_whole n : ∀ b s out,
  List.length b = (3 * n)%nat →
  a2b_base64 (b2a_base64 b ++ s) 0 0%N 0 out = a2b_base64 s 0 0%N 0 (out ++ b).
Proof.
  induction n as [|n IH]; intros b s out Hlen.
  - destruct b; [|done]. by rewrite List.app_nil_r.
  - destruct b as [|x [|y [|z b]]]; cbn in Hlen; try lia.
    cbn [app b2a_base64]. fold (sextet0 x) (sextet1 x y) (sextet2 y z) (sextet3 z).
    rewrite a2b_base64_quad, IH by lia. by rewrite <- app_assoc.
Qed.

Lemma spare_flip_facts x :
  ∃ v, b64_value (spare_flip (b64_char (sextet1 x x00))) = Some v
       ∧ N.shiftr v 4 = N.shiftr (sextet1 x x00) 4
       ∧ spare_flip (b64_char (sextet1 x x00)) ≠ BASE64_PAD
       ∧ one_bit (b64_char (sextet1 x x00)) (spare_flip (b64_char (sextet1 x x00))) = true
       ∧ (N_of_ascii (spare_flip (b64_char (sextet1 x x00))) < 128)%N.
Proof.
  assert (spare_flip_ok x = true) as Hok.
  { apply (forall_bytes spare_flip_ok). by vm_compute. }
  unfold spare_flip_ok in Hok.
  destruct (b64_value (spare_flip (b64_char (sextet1 x x00)))) as [v|]; [|done].
  repeat (apply andb_true_iff in Hok as [Hok ?]).
  exists v. split; [done|]. split; [by apply N.eqb_eq|].
  split; [by apply negb_true_iff, bool_decide_eq_false in H1|].
  split; [done|by apply N.ltb_lt].
Qed.

Lemma flip_spare_bit_decodes b :
  List.length b = 16%nat →
  flips_one_bit (string_of_list_ascii (b2a_base64 b))
                (string_of_list_ascii (flip_spare_bit b))
  ∧ b64decode (string_of_list_ascii (flip_spare_bit b)) = Ret b.
Proof.
  intros Hlen.
  assert (∃ x, drop 15 b = [x]) as [x Hx].
  { destruct (drop 15 b) as [|x [|y l]] eqn:Hd; [| eauto |];
      apply (f_equal List.length) in Hd; rewrite length_drop in Hd; cbn in Hd; lia. }
  assert (List.length (take 15 b) = (3 * 5)%nat) as H15 by (rewrite length_take; lia).
  assert (b2a_base64 b = b2a_base64 (take 15 b) ++ b2a_base64 [x]) as Hsplit.
  { rewrite <- (take_drop 15 b) at 1. rewrite (b2a_base64_app 5) by done. by rewrite Hx. }
  unfold flip_spare_bit. rewrite Hx. cbn [b2a_base64].
  rewrite sextet1_tail. fold (sextet0 x).
  destruct (spare_flip_facts x) as (v & Hv & Hhigh & Hpad & Hbit & Hascii).
  split.
  - exists (b2a_base64 (take 15 b) ++ [b64_char (sextet0 x)]),
           (b64_char (sextet1 x x00)), (spare_flip (b64_char (sextet1 x x00))),
           [BASE64_PAD; BASE64_PAD].
    rewrite !list_ascii_of_string_of_list_ascii, Hsplit. cbn [b2a_base64].
    rewrite sextet1_tail. fold (sextet0 x).
    rewrite <- !app_assoc. done.
  - unfold b64decode. rewrite list_ascii_of_string_of_list_ascii.
    rewrite bool_decide_eq_true_2.
    + rewrite (a2b_base64_whole 5) by done.
      destruct (regroup_facts x x00) as ((H0 & _) & _ & (F1 & _)).
      rewrite (a2b_base64_sextet _ _ 0) by done.
      rewrite (a2b_base64_data _ v _ 1) by done.
      rewrite Hhigh, F1. cbn.
      rewrite <- Hx. by rewrite take_drop.
    + apply Forall_app. split; [apply b2a_base64_ascii|].
      destruct (regroup_facts x x00) as ((H0 & _) & _).
      destruct (sextet_facts _ H0) as (_ & _ & Hlt).
      repeat constructor; done.
Qed.
(** * The claims about the stego engine *)

Section stego_claims.
Context `{FileSystem} `{Pillow}.

Lemma validate_image_valid_inv fs path msg stats :
  validate_image fs path = Ret (true, msg, stats) →
  ∃ capacity, calculate_capacity fs path = Ret capacity ∧ 1000 ≤ capacity ∧
              stats !! "capacity_bytes" = Some (VInt capacity).
Proof.
  intros Hv.
  destruct (fs !! realpath path) as [f|] eqn:Hf;
    [|by rewrite validate_image_missing in Hv].
  destruct (Image_open fs path) as [img|e] eqn:Hopen;
    [|rewrite (validate_image_undecodable fs path e) in Hv; [done|by rewrite Hf|done]].
  destruct (validate_image_opened fs path img Hopen)
    as (size & _ & [(_ & m & Hr)|[(_ & _ & m & Hr)|(_ & _ & _ & [(e & _ & Hr)|(c & m & Hc & Hr)])]]);
    rewrite Hr in Hv; try done.
  injection Hv as Hb _ <-. apply bool_decide_eq_true in Hb.
  exists c. by rewrite lookup_insert_ne, lookup_insert_eq.
Qed.

(** The capacity computation raises exactly on an image it has to
    convert and cannot decode. *)
Lemma calculate_capacity_opened fs path img :
  Image_open fs path = Ret img →
  (fails_conversion img ∧ ∃ e, calculate_capacity fs path = Raise e)
  ∨ (¬ fails_conversion img
     ∧ calculate_capacity fs path
       = Ret (im_width img * im_height img * channelsPerPixel img / 8 - 200)).
Proof.
  intros Hopen. unfold fails_conversion.
  destruct (decide (im_mode img ∈ ["RGB"; "RGBA"])) as [Hm|Hm].
  { right. split; [by intros [? _]|]. by apply calculate_capacity_rgb. }
  destruct (im_data img) as [d|] eqn:Hd.
  { right. split; [by intros [_ ?]|]. apply calculate_capacity_readable.
    split; [done|]. rewrite Hd. eauto. }
  left. split; [done|]. unfold calculate_capacity. rewrite Hopen. cbn.
  rewrite bool_decide_eq_true_2 by done.
  unfold Image_convert, Image_load. rewrite Hd. cbn. eauto.
Qed.

(** The capacity of an accepted image is at least 3550 bytes. *)
Lemma capacity_of_header img :
  header_ok img → 3550 ≤ im_width img * im_height img * channelsPerPixel img / 8 - 200.
Proof.
  intros (_ & Hw & Hh).
  assert (3 ≤ channelsPerPixel img) by (unfold channelsPerPixel; case_bool_decide; lia).
  assert (30000 ≤ im_width img * im_height img * channelsPerPixel img) by nia.
  assert (3750 ≤ im_width img * im_height img * channelsPerPixel img / 8)
    by (apply Z.div_le_lower_bound; lia).
  lia.
Qed.

(** What [validate_image] returns, case by case. *)
Lemma validate_image_cases fs path :
  (∃ e, Image_open fs path = Raise e
        ∧ ∃ msg, validate_image fs path = Ret (false, msg, ∅))
  ∨ ∃ img size,
      Image_open fs path = Ret img
      ∧ ((¬ header_ok img
          ∧ ∃ msg, validate_image fs path = Ret (false, msg, base_stats img size))
         ∨ (header_ok img ∧ fails_conversion img
            ∧ ∃ msg, validate_image fs path = Ret (false, msg, ∅))
         ∨ (header_ok img ∧ ¬ fails_conversion img
            ∧ ∃ msg,
                validate_image fs path =
                  Ret (true, msg,
                       <["capacity_kb" :=
                           VFloat (im_width img * im_height img * channelsPerPixel img / 8 - 200)
                             1024]>
                         (<["capacity_bytes" :=
                              VInt (im_width img * im_height img * channelsPerPixel img / 8
                                    - 200)]>
                            (base_stats img size))))).
Proof.
  destruct (Image_open fs path) as [img|e] eqn:Hopen.
  2:{ left. exists e. split; [done|].
      destruct (fs !! realpath path) as [f|] eqn:Hf.
      - rewrite (validate_image_undecodable fs path e) by (by rewrite ?Hf). eauto.
      - rewrite validate_image_missing by done. eauto. }
  right.
  destruct (validate_image_opened fs path img Hopen)
    as (size & _ & [(Hf & m & Hv)|[(Hf & Hd & m & Hv)|(Hf & Hw & Hh & Hcase)]]);
    exists img, size; (split; [done|]).
  - left. split; [by intros (? & _)|]. eauto.
  - left. split; [intros (_ & ? & ?); lia|]. eauto.
  - assert (header_ok img) as Hok by done.
    destruct (calculate_capacity_opened fs path img Hopen) as [[Hfail [e He]]|[Hfine Hcap]].
    + right; left. split; [done|]. split; [done|].
      destruct Hcase as [(e' & _ & Hv)|(c & m & Hc & _)]; [eauto|congruence].
    + right; right. split; [done|]. split; [done|].
      destruct Hcase as [(e' & He & _)|(c & m & Hc & Hv)]; [congruence|].
      assert (c = im_width img * im_height img * channelsPerPixel img / 8 - 200) as ->
        by congruence.
      pose proof (capacity_of_header img Hok).
      rewrite bool_decide_eq_true_2 in Hv by lia. eauto.
Qed.

Context `{Stegano}.

Lemma hide_payload_too_large cover_path secret_data output_path fs msg stats capacity :
  validate_image fs cover_path = Ret (true, msg, stats) →
  stats !! "capacity_bytes" = Some (VInt capacity) →
  capacity < Z.of_nat (List.length (utf8_encode secret_data)) →
  hide cover_path secret_data output_path fs =
    (fs, Raise (Exn ValueError
       ("Data too large (" +:+ str_int (Z.of_nat (List.length (utf8_encode secret_data)))
          +:+ " bytes). Maximum: " +:+ str_int capacity +:+ " bytes"))).
Proof.
  intros Hv Hc Hlt. unfold hide, mbind, io_bind, io_read, io_pure, stats_int.
  rewrite Hv, Hc. cbn. by rewrite (proj2 (Z.ltb_lt _ _) Hlt).
Qed.

Lemma reveal_nonempty fs stego_path s : reveal fs stego_path = Ret s → s ≠ "".
Proof.
  unfold reveal. destruct (negb _); [done|].
  unfold try_except.
  destruct (Image_open fs stego_path) as [img|]; [|done]. cbn.
  destruct (lsb_reveal img) as [[secret|]|]; cbn; try done.
  case_bool_decide as Hlen; [done|]. intros [= <-] ->. by apply Hlen.
Qed.

End stego_claims.

(** C4: for every readable image, [calculate_capacity] returns
    [floor(width*height*channelsPerPixel/8) - 200], with 3 channels for
    RGB and 4 for RGBA; two readable images of the same dimensions and
    channel count have the same capacity whatever their pixels, their
    metadata and the rest of the file system, so the value is a function
    of dimensions and channel count alone. *)
Theorem calculate_capacity_formula `{FileSystem} `{Pillow} fs path img :
  readable fs path img →
  calculate_capacity fs path =
    Ret (im_width img * im_height img * channelsPerPixel img / 8 - METADATA_OVERHEAD)
  ∧ METADATA_OVERHEAD = 200
  ∧ (im_mode img = "RGB" → channelsPerPixel img = 3)
  ∧ (im_mode img = "RGBA" → channelsPerPixel img = 4)
  ∧ (∀ fs' path' img',
       readable fs' path' img' →
       im_width img' = im_width img → im_height img' = im_height img →
       channelsPerPixel img' = channelsPerPixel img →
       calculate_capacity fs' path' = calculate_capacity fs path).
Proof.
  intros Hr. split; [by apply calculate_capacity_readable|].
  split; [done|]. unfold channelsPerPixel.
  split; [by intros ->|]. split; [by intros ->|].
  intros fs' path' img' Hr' Hw Hh Hc.
  rewrite (calculate_capacity_readable _ _ _ Hr), (calculate_capacity_readable _ _ _ Hr').
  unfold channelsPerPixel in *. by rewrite Hw, Hh, Hc.
Qed.

Lemma calculate_capacity_formula_witness :
  calculate_capacity rgba_cover "cover.png" = Ret 4800.
Proof.
  apply (calculate_capacity_formula rgba_cover "cover.png" (cover_image "RGBA" [7; 8; 9; 255])).
  split; [reflexivity|]. eexists; reflexivity.
Defined.

(** The image a path opens as is the one already at hand. *)
Ltac same_image Hopen img' :=
  let Himg := fresh "Himg" in
  intros img' Himg; rewrite Hopen in Himg; injection Himg as <-.

(** C10, as stated, fails: a PNG in mode RGB whose header parses and
    whose pixel stream is cut short fails to decode, and [validate_image]
    returns [True] for it: it reads the header and never the pixels.
    [hide] then raises the [OSError] of the decoder. *)
Lemma validate_image_accepts_truncated :
  (∃ img, Image_open truncated_cover "cover.png" = Ret img
          ∧ Image_load img = Raise (Exn OSError "image file is truncated"))
  ∧ verdict (validate_image truncated_cover "cover.png") = Some true
  ∧ (hide "cover.png" "hello" "out.png" truncated_cover).2
    = Raise (Exn OSError "image file is truncated").
Proof.
  split; [eexists; split; reflexivity|]. split; vm_compute; reflexivity.
Qed.

(** C10, amended: [validate_image] returns a triple for every path and
    never raises.  The verdict is [False] for a path that names no file,
    for a file Pillow cannot open as an image, and for an image whose
    pixels fail to decode when the capacity is computed, which is every
    image in a mode other than RGB and RGBA whose pixel stream does not
    load.  An image in mode RGB or RGBA is judged on its header alone,
    whatever its pixel stream. *)
Theorem validate_image_total `{FileSystem} `{Pillow} fs path :
  ∃ ok msg stats,
    validate_image fs path = Ret (ok, msg, stats)
    ∧ (fs !! realpath path = None → ok = false)
    ∧ (∀ e, Image_open fs path = Raise e → ok = false)
    ∧ (∀ e, calculate_capacity fs path = Raise e → ok = false)
    ∧ (∀ img, Image_open fs path = Ret img → fails_conversion img → ok = false)
    ∧ (∀ img, Image_open fs path = Ret img → im_mode img ∈ ["RGB"; "RGBA"] →
              (ok = true ↔ header_ok img)).
Proof.
  destruct (validate_image_returns fs path) as (ok & msg & stats & Hv).
  exists ok, msg, stats. split; [done|].
  assert (fs !! realpath path = None → ok = false) as Hmissing.
  { intros Hnone. rewrite validate_image_missing in Hv by done. by simplify_eq. }
  assert (∀ e, calculate_capacity fs path = Raise e → ok = false) as Hcap.
  { intros e Hcap. destruct ok; [|done].
    apply validate_image_valid_inv in Hv as (c & Hc & _). congruence. }
  split; [done|].
  destruct (validate_image_cases fs path)
    as [(e & Hopen & m & Hr)
       |(img & size & Hopen & [(Hno & m & Hr)|[(Hok & Hfail & m & Hr)|(Hok & Hfine & m & Hr)]])];
    rewrite Hr in Hv; injection Hv as <- _ _.
  - split; [done|]. split; [done|]. split; [done|]. intros img. by rewrite Hopen.
  - split; [by intros e; rewrite Hopen|]. split; [done|]. split; [done|].
    same_image Hopen img'. intros _. split; [done|]. intros ?. by destruct Hno.
  - split; [by intros e; rewrite Hopen|]. split; [done|]. split; [done|].
    same_image Hopen img'. intros Hm. by destruct Hfail as [Hn _].
  - split; [by intros e; rewrite Hopen|]. split; [done|].
    split; [same_image Hopen img'; by intros ?|]. same_image Hopen img'. by intros _.
Qed.

(** C7, as stated, fails: for a path that does not exist the statistics
    are the empty dictionary. *)
Lemma validate_image_missing_stats :
  validate_image (∅ : gmap string file) "missing.png"
    = Ret (false, "Image file not found", ∅)
  ∧ ¬ descriptive (∅ : gmap string value).
Proof.
  split; [reflexivity|]. intros ([v Hv] & _). by rewrite lookup_empty in Hv.
Qed.

(** C7, amended: the statistics of every path.  They are the empty
    dictionary when the file does not open as an image (it is missing,
    or Pillow does not identify it), and when the image has a supported
    format and sufficient dimensions but fails to decode in the capacity
    computation.  In every other case they hold the width, the height
    and the format of the image, and [capacity_bytes], with the value of
    the formula, exactly when the format is supported and both dimensions
    are at least 100. *)
Theorem validate_image_stats `{FileSystem} `{Pillow} fs path :
  ∃ ok msg stats,
    validate_image fs path = Ret (ok, msg, stats)
    ∧ (∀ e, Image_open fs path = Raise e → stats = ∅)
    ∧ (∀ img, Image_open fs path = Ret img →
         (header_ok img ∧ fails_conversion img → stats = ∅)
         ∧ (¬ (header_ok img ∧ fails_conversion img) →
            stats !! "width" = Some (VInt (im_width img))
            ∧ stats !! "height" = Some (VInt (im_height img))
            ∧ stats !! "format" = Some (VStr (format_name img))
            ∧ (is_Some (stats !! "capacity_bytes") ↔ header_ok img)
            ∧ (∀ v, stats !! "capacity_bytes" = Some v →
                 v = VInt (im_width img * im_height img * channelsPerPixel img / 8
                           - 200)))).
Proof.
  destruct (validate_image_cases fs path)
    as [(e & Hopen & m & Hr)
       |(img & size & Hopen & [(Hno & m & Hr)|[(Hok & Hfail & m & Hr)|(Hok & Hfine & m & Hr)]])];
    eexists _, _, _; (split; [exact Hr|]).
  - split; [done|]. intros img. by rewrite Hopen.
  - split; [by intros e; rewrite Hopen|]. same_image Hopen img'.
    split; [by intros [? _]|]. intros _. unfold base_stats.
    repeat split; try done; simplify_map_eq; try done; by intros [? ?].
  - split; [by intros e; rewrite Hopen|]. same_image Hopen img'.
    split; [done|]. intros Hn. by destruct Hn.
  - split; [by intros e; rewrite Hopen|]. same_image Hopen img'.
    split; [by intros [_ ?]|]. intros _. unfold base_stats.
    split; [by simplify_map_eq|]. split; [by simplify_map_eq|].
    split; [by simplify_map_eq|]. split.
    + split; [done|]. intros _. rewrite lookup_insert_ne by done.
      rewrite lookup_insert_eq. eauto.
    + intros v. rewrite lookup_insert_ne by done. rewrite lookup_insert_eq.
      by intros [= <-].
Qed.

(** C8 on the code: a valid cover stored at a path that already ends in
    [.png] is overwritten by the prepared copy (here it loses its text
    chunk), although [hide] returns and the payload is within capacity;
    and when the same cover is named [./cover.png], the prepared copy
    [cover.png] is the cover under another spelling, passes for a
    temporary file and is removed: the cover is gone. *)
Theorem hide_png_cover_rewritten :
  verdict (validate_image rgb_cover "cover.png") = Some true
  ∧ returned (hide "cover.png" "hello" "out.png" rgb_cover).2 = true
  ∧ (hide "cover.png" "hello" "out.png" rgb_cover).1 !! "cover.png"
      ≠ rgb_cover !! "cover.png"
  ∧ verdict (validate_image rgb_cover "./cover.png") = Some true
  ∧ returned (hide "./cover.png" "hello" "out.png" rgb_cover).2 = true
  ∧ (hide "./cover.png" "hello" "out.png" rgb_cover).1 !! "cover.png" = None.
Proof.
  split; [vm_compute; reflexivity|].
  split; [vm_compute; reflexivity|].
  split.
  { intros Heq.
    apply (f_equal (λ o : option file,
                      match o with
                      | Some f => im_info <$> f_image f
                      | None => None
                      end)) in Heq.
    vm_compute in Heq. discriminate. }
  split; [vm_compute; reflexivity|].
  split; vm_compute; reflexivity.
Qed.

(** C1, as stated, fails at the empty payload, which is within the
    capacity of every valid cover: [reveal] never returns the empty
    string, whatever the embedding library does. *)
Lemma reveal_hide_empty_payload :
  verdict (validate_image rgb_cover "cover.png") = Some true
  ∧ calculate_capacity rgb_cover "cover.png" = Ret 3550
  ∧ Z.of_nat (List.length (utf8_encode "")) ≤ 3550
  ∧ ∀ S : Stegano,
      ¬ ∃ fs' st, hide "cover.png" "" "out.png" rgb_cover = (fs', Ret st)
                  ∧ reveal fs' "out.png" = Ret "".
Proof.
  split; [vm_compute; reflexivity|].
  split; [vm_compute; reflexivity|]. split; [cbn; lia|].
  intros S (fs' & st & _ & Hr). by apply reveal_nonempty in Hr.
Qed.

Lemma returned_ret {A} (r : outcome A) : returned r = true → ∃ a, r = Ret a.
Proof. destruct r; [eauto|done]. Qed.

(** Whenever [hide] returns for a payload that is not empty, [reveal] on
    the output file returns that payload, for every embedding library
    that reveals what it hid. *)
Lemma reveal_after_hide `{FileSystem} `{Pillow} `{Stegano} `{!SteganoContract}
    cover_path secret_data output_path fs fs' st :
  hide cover_path secret_data output_path fs = (fs', Ret st) →
  secret_data ≠ "" →
  reveal fs' output_path = Ret secret_data.
Proof.
  intros Hh Hne. apply hide_ret_output in Hh as (img & stego & Hl & Hf).
  unfold reveal, os_path_exists. rewrite Hf.
  rewrite bool_decide_eq_true_2 by eauto. cbn [negb].
  unfold Image_open. rewrite Hf. cbn.
  rewrite (lsb_reveal_hide _ _ _ Hl). cbn.
  rewrite bool_decide_eq_false_2; [done|].
  destruct secret_data; [done|]. cbn. lia.
Qed.

(** A payload longer than the capacity is refused with both sizes in the
    message, and nothing is written. *)
Lemma hide_too_large `{FileSystem} `{Pillow} `{Stegano}
    cover_path secret_data output_path fs msg stats :
  validate_image fs cover_path = Ret (true, msg, stats) →
  ∃ capacity,
    calculate_capacity fs cover_path = Ret capacity ∧
    (capacity < Z.of_nat (List.length (utf8_encode secret_data)) →
     hide cover_path secret_data output_path fs =
       (fs, Raise (Exn ValueError
          ("Data too large (" +:+ str_int (Z.of_nat (List.length (utf8_encode secret_data)))
             +:+ " bytes). Maximum: " +:+ str_int capacity +:+ " bytes")))).
Proof.
  intros Hv. destruct (validate_image_valid_inv _ _ _ _ Hv) as (capacity & Hc & _ & Hs).
  exists capacity. split; [done|]. intros Hlt.
  by apply (hide_payload_too_large _ _ _ _ msg stats).
Qed.

(** C6 on the code: a valid RGBA cover of 100x100 pixels has a capacity
    of 4800 bytes, counted over four channels; [hide] accepts a payload
    of exactly 4800 bytes and then fails in the embedding step, which
    writes red, green and blue only (three bits a pixel, 30000 in all,
    for the 38440 the payload and its length prefix need). *)
Theorem hide_rgba_at_capacity :
  calculate_capacity rgba_cover "cover.png" = Ret 4800
  ∧ verdict (validate_image rgba_cover "cover.png") = Some true
  ∧ Z.of_nat (List.length (utf8_encode payload_4800)) = 4800
  ∧ (hide "cover.png" payload_4800 "out.png" rgba_cover).2
      = Raise (Exn Exception "The message you want to hide is too long: 4800").
Proof.
  split; [vm_compute; reflexivity|].
  split; [vm_compute; reflexivity|].
  split; vm_compute; reflexivity.
Qed.

(** * Properties of the crypto engine *)

Section crypto_facts.
Context `{Cryptography}.

Lemma init_32 key :
  List.length key = 32%nat →
  CryptoEngine.__init__ key =
    Ret {| CryptoEngine.aesgcm := key;
           CryptoEngine.key_hash := substring 0 16 (sha256_hexdigest key) |}.
Proof.
  intros Hlen. unfold CryptoEngine.__init__, CryptoEngine.KEY_SIZE.
  by rewrite bool_decide_eq_false_2 by (intros Hne; by apply Hne).
Qed.

Lemma dict_get_set k v d : dict_get k (dict_set k v d) = Some v.
Proof.
  induction d as [|[k' v'] d IH]; cbn.
  - by rewrite bool_decide_eq_true_2.
  - case_bool_decide as Hk; cbn.
    + by rewrite bool_decide_eq_true_2.
    + by rewrite bool_decide_eq_false_2.
Qed.

Lemma dict_get_set_ne k k' v d : k ≠ k' → dict_get k' (dict_set k v d) = dict_get k' d.
Proof.
  intros Hne. induction d as [|[k0 v0] d IH]; cbn.
  - by rewrite bool_decide_eq_false_2.
  - case_bool_decide as Hk; cbn.
    + subst k0. by rewrite !bool_decide_eq_false_2.
    + case_bool_decide; [done|apply IH].
Qed.

End crypto_facts.

(** C5: under a key whose length is not 32, no engine is built:
    [CryptoEngine(key)] raises [ValueError("Key must be 32 bytes")], and
    with it [quick_encrypt], before any random byte is drawn or any
    dictionary touched, and [quick_decrypt]. *)
Theorem invalid_key_size `{Cryptography} key :
  List.length key ≠ 32%nat →
  CryptoEngine.__init__ key = Raise (Exn ValueError "Key must be 32 bytes")
  ∧ (∀ data metadata w,
       quick_encrypt key data metadata w = (w, Raise (Exn ValueError "Key must be 32 bytes")))
  ∧ (∀ bundle_str,
       quick_decrypt key bundle_str = Raise (Exn ValueError "Key must be 32 bytes")).
Proof.
  intros Hlen.
  assert (CryptoEngine.__init__ key = Raise (Exn ValueError "Key must be 32 bytes")) as Hinit.
  { unfold CryptoEngine.__init__, CryptoEngine.KEY_SIZE. by rewrite bool_decide_eq_true_2. }
  split; [done|]. split.
  - intros data metadata w. unfold quick_encrypt. by rewrite Hinit.
  - intros bundle_str. unfold quick_decrypt. by rewrite Hinit.
Qed.

Lemma invalid_key_size_witness :
  CryptoEngine.__init__ (take 31 key_1_32) = Raise (Exn ValueError "Key must be 32 bytes").
Proof.
  apply (invalid_key_size (take 31 key_1_32)). vm_compute. lia.
Defined.

(** C9 on the code: when the caller passes a dictionary that is not
    empty, [encrypt] merges its generated fields into that very
    dictionary; afterwards it holds them. *)
Theorem encrypt_updates_caller_metadata `{Cryptography} self plaintext l d w :
  w_heap w !! l = Some d → d ≠ [] →
  w_heap (CryptoEngine.encrypt self plaintext (Some l) w).1 !! l
    = Some (dict_update d (generated_fields self plaintext w))
  ∧ dict_get "size" (dict_update d (generated_fields self plaintext w))
      = Some (JInt (Z.of_nat (List.length plaintext))).
Proof.
  intros Hl Hd. unfold CryptoEngine.encrypt, os_urandom. cbn.
  rewrite Hl. destruct d as [|kv d]; [done|]. cbn.
  rewrite Hl. cbn. rewrite lookup_insert_eq. split; [done|].
  unfold generated_fields, dict_update. cbn -[dict_set]. apply dict_get_set.
Qed.

Lemma encrypt_updates_caller_metadata_witness :
  w_heap (CryptoEngine.encrypt
            {| CryptoEngine.aesgcm := key_1_32; CryptoEngine.key_hash := "0123456789abcdef" |}
            (utf8_encode "hello world") (Some 1%positive)
            (world_0 [("filename", JStr "msg.txt")])).1 !! 1%positive
  = Some [("filename", JStr "msg.txt"); ("version", JStr "v2.0");
          ("timestamp", JStr "2024-05-01T12:00:00.000000");
          ("key_hash", JStr "0123456789abcdef"); ("size", JInt 11)].
Proof.
  apply (encrypt_updates_caller_metadata
           {| CryptoEngine.aesgcm := key_1_32; CryptoEngine.key_hash := "0123456789abcdef" |}
           (utf8_encode "hello world") 1%positive [("filename", JStr "msg.txt")]
           (world_0 [("filename", JStr "msg.txt")])).
  - reflexivity.
  - discriminate.
Defined.

(** The sister case: an empty dictionary of the caller is left alone,
    the fields go into a new one. *)
Lemma encrypt_spares_empty_metadata `{Cryptography} self plaintext l w :
  w_heap w !! l = Some [] →
  w_heap (CryptoEngine.encrypt self plaintext (Some l) w).1 !! l = Some [].
Proof.
  intros Hl. unfold CryptoEngine.encrypt, os_urandom, heap_alloc, heap_store. cbn.
  rewrite Hl. cbn.
  assert (fresh (dom (w_heap w)) ≠ l) as Hfresh.
  { intros Heq. apply (is_fresh (dom (w_heap w))). rewrite Heq.
    apply elem_of_dom. eauto. }
  rewrite lookup_insert_ne by done. rewrite lookup_insert_ne by done. done.
Qed.

(** ** The transport string *)

Lemma outcome_bind_ret {A B} (a : A) (f : A → outcome B) : (Ret a ≫= f) = f a.
Proof. reflexivity. Qed.

Lemma create_bundle_string_ret b :
  CryptoEngine.create_bundle_string b =
    Ret (string_of_list_ascii (b2a_base64 (utf8_encode (json_dumps b false "," ":")))).
Proof. unfold CryptoEngine.create_bundle_string. apply utf8_decode_b64encode. Qed.

Lemma parse_create_bundle_string b :
  NoDup b.*1 →
  ∃ s, CryptoEngine.create_bundle_string b = Ret s
       ∧ CryptoEngine.parse_bundle_string s = Ret b.
Proof.
  intros Hnd. eexists. split; [apply create_bundle_string_ret|].
  unfold CryptoEngine.parse_bundle_string.
  rewrite b64decode_b2a, outcome_bind_ret, utf8_decode_encode, outcome_bind_ret.
  apply (json_loads_dumps b false "," ":"); [|done].
  exists [], []. by repeat split.
Qed.

(** C3: for every valid bundle [b], the transport string is produced,
    and parsing it returns [b] itself, field for field and in the same
    order. *)
Theorem bundle_string_round_trip b :
  valid_bundle b →
  ∃ s, CryptoEngine.create_bundle_string b = Ret s
       ∧ CryptoEngine.parse_bundle_string s = Ret b.
Proof.
  intros [Hkeys _]. apply parse_create_bundle_string.
  rewrite Hkeys. apply (bool_decide_unpack (NoDup bundle_keys)). by vm_compute.
Qed.

Lemma bundle_string_round_trip_witness :
  ∃ s, CryptoEngine.create_bundle_string sample_bundle = Ret s
       ∧ CryptoEngine.parse_bundle_string s = Ret sample_bundle.
Proof.
  apply (bundle_string_round_trip sample_bundle). split.
  - reflexivity.
  - repeat constructor; eexists; reflexivity.
Defined.

(** ** [encrypt] and [decrypt] *)

Lemma dict_set_keys k v d : k ∈ d.*1 → (dict_set k v d).*1 = d.*1.
Proof.
  induction d as [|[k' v'] d IH]; cbn; [by intros ?%elem_of_nil|].
  intros Hin. case_bool_decide as Hk; cbn; [by subst|].
  rewrite IH; [done|]. apply elem_of_cons in Hin as [?|?]; [by subst|done].
Qed.

Lemma dict_set_NoDup k v d : NoDup d.*1 → NoDup (dict_set k v d).*1.
Proof.
  intros Hnd. destruct (decide (k ∈ d.*1)) as [Hin|Hout].
  - by rewrite dict_set_keys.
  - rewrite dict_set_fresh by done. rewrite fmap_app. apply NoDup_app.
    split; [done|]. split; [|apply NoDup_singleton].
    intros x Hx Hx'. cbn in Hx'. apply list_elem_of_singleton in Hx'. by subst.
Qed.

Lemma dict_update_NoDup items : ∀ d, NoDup d.*1 → NoDup (dict_update d items).*1.
Proof.
  unfold dict_update. induction items as [|[k v] items IH]; intros d Hnd; [done|].
  cbn. by apply IH, dict_set_NoDup.
Qed.

Lemma dict_get_Some k v d : NoDup d.*1 → dict_get k d = Some v ↔ (k, v) ∈ d.
Proof.
  induction d as [|[k' v'] d IH]; cbn; intros Hnd.
  - split; [done|by intros ?%elem_of_nil].
  - apply NoDup_cons in Hnd as [Hk' Hnd]. case_bool_decide as Hk.
    + subst k'. split.
      * intros [= ->]. left.
      * intros [[= ->]|Hin]%elem_of_cons; [done|].
        exfalso. apply Hk'. apply list_elem_of_fmap. by exists (k, v).
    + rewrite IH by done. split; [by right|].
      intros [[= -> ->]|Hin]%elem_of_cons; done.
Qed.

Lemma dict_get_Permutation k d d' :
  NoDup d.*1 → d ≡ₚ d' → dict_get k d = dict_get k d'.
Proof.
  intros Hnd Hperm.
  assert (NoDup d'.*1) as Hnd' by (by rewrite <- Hperm).
  destruct (dict_get k d) as [v|] eqn:Hd.
  - symmetry. apply dict_get_Some; [done|]. rewrite <- Hperm. by apply dict_get_Some.
  - destruct (dict_get k d') as [v'|] eqn:Hd'; [|done].
    apply dict_get_Some in Hd'; [|done]. rewrite <- Hperm in Hd'.
    apply dict_get_Some in Hd'; [|done]. congruence.
Qed.

Section engine_facts.
Context `{Cryptography}.

Lemma caller_dict_NoDup metadata w : heap_ok w → NoDup (caller_dict metadata w).*1.
Proof.
  intros Hok. unfold caller_dict.
  destruct metadata as [l|]; [|constructor].
  destruct (w_heap w !! l) as [[|kv d]|] eqn:Hl; [constructor| |constructor].
  by apply (Hok l).
Qed.

Lemma merged_metadata_NoDup self plaintext metadata w :
  heap_ok w → NoDup (merged_metadata self plaintext metadata w).*1.
Proof. intros Hok. by apply dict_update_NoDup, caller_dict_NoDup. Qed.

Lemma merged_metadata_key_hash self plaintext metadata w :
  dict_get "key_hash" (merged_metadata self plaintext metadata w)
    = Some (JStr (CryptoEngine.key_hash self)).
Proof.
  unfold merged_metadata, generated_fields, dict_update. cbn -[dict_set].
  rewrite dict_get_set_ne by done. apply dict_get_set.
Qed.

(** What [encrypt] returns. *)
Lemma encrypt_bundle self plaintext metadata w :
  (CryptoEngine.encrypt self plaintext metadata w).2
    = Ret (bundle_of (associated_data self plaintext metadata w) (drawn_nonce w)
             (aesgcm_encrypt (CryptoEngine.aesgcm self) (drawn_nonce w) plaintext
                (associated_data self plaintext metadata w))).
Proof.
  assert (∀ (meta : positive) (w1 : world),
            w_utcnow w1 = w_utcnow w →
            default [] (w_heap w1 !! meta) = caller_dict metadata w →
            (let d := dict_update (default [] (w_heap w1 !! meta))
                        [("version", JStr CryptoEngine.VERSION);
                         ("timestamp", JStr (w_utcnow w1));
                         ("key_hash", JStr (CryptoEngine.key_hash self));
                         ("size", JInt (Z.of_nat (List.length plaintext)))] in
             utf8_encode (json_dumps d true ", " ": "))
            = associated_data self plaintext metadata w) as Haad.
  { intros meta w1 Hnow Hd. cbn. unfold associated_data, merged_metadata, generated_fields.
    by rewrite Hd, Hnow. }
  unfold CryptoEngine.encrypt, os_urandom. fold (drawn_nonce w).
  set (w0 := {| w_heap := w_heap w; w_entropy := w_entropy w;
                w_cursor := (w_cursor w + CryptoEngine.NONCE_SIZE)%nat;
                w_utcnow := w_utcnow w |}).
  assert (∃ meta w1, (match metadata with
                      | Some l => match w_heap w0 !! l with
                                  | Some (_ :: _) => (l, w0)
                                  | _ => heap_alloc w0
                                  end
                      | None => heap_alloc w0
                      end) = (meta, w1)
                     ∧ w_utcnow w1 = w_utcnow w
                     ∧ default [] (w_heap w1 !! meta) = caller_dict metadata w)
    as (meta & w1 & -> & Hnow & Hd).
  { unfold caller_dict, heap_alloc, heap_store. cbn.
    destruct metadata as [l|].
    - destruct (w_heap w !! l) as [[|kv d]|] eqn:Hl.
      + eexists _, _. split; [reflexivity|]. cbn. by rewrite lookup_insert_eq.
      + eexists _, _. split; [reflexivity|]. cbn. by rewrite Hl.
      + eexists _, _. split; [reflexivity|]. cbn. by rewrite lookup_insert_eq.
    - eexists _, _. split; [reflexivity|]. cbn. by rewrite lookup_insert_eq. }
  cbn [snd]. cbv zeta in Haad. rewrite (Haad meta w1 Hnow Hd).
  rewrite !utf8_decode_b64encode. reflexivity.
Qed.

Lemma decrypt_decoded self bundle nonce ct tag aad :
  (s ← bundle_field bundle "nonce"; b64decode s) = Ret nonce →
  (s ← bundle_field bundle "ciphertext"; b64decode s) = Ret ct →
  (s ← bundle_field bundle "tag"; b64decode s) = Ret tag →
  (s ← bundle_field bundle "metadata"; b64decode s) = Ret aad →
  CryptoEngine.decrypt self bundle = decrypt_core self nonce ct tag aad.
Proof.
  intros Hn Hc Ht Ha.
  unfold CryptoEngine.decrypt, decrypt_core, mbind, outcome_bind in *.
  destruct (bundle_field bundle "nonce") as [s1|]; [|done]. rewrite Hn.
  destruct (bundle_field bundle "ciphertext") as [s2|]; [|done]. rewrite Hc.
  destruct (bundle_field bundle "tag") as [s3|]; [|done]. rewrite Ht.
  destruct (bundle_field bundle "metadata") as [s4|]; [|done]. rewrite Ha.
  reflexivity.
Qed.

Lemma decrypt_bundle_of self aad nonce ciphertext :
  CryptoEngine.decrypt self (bundle_of aad nonce ciphertext)
    = decrypt_core self nonce
        (take (List.length ciphertext - CryptoEngine.TAG_SIZE) ciphertext)
        (drop (List.length ciphertext - CryptoEngine.TAG_SIZE) ciphertext) aad.
Proof.
  apply decrypt_decoded; unfold bundle_of, bundle_field, b64_text; cbn [dict_get];
    repeat (rewrite ?bool_decide_eq_true_2 by done;
            rewrite ?bool_decide_eq_false_2 by done);
    rewrite outcome_bind_ret; apply b64decode_b2a.
Qed.

(** The associated data of a bundle parse back to the merged metadata,
    in key order. *)
Lemma associated_data_loads self plaintext metadata w :
  heap_ok w →
  (s ← utf8_decode (associated_data self plaintext metadata w); json_loads s)
    = Ret (merge_sort key_le (merged_metadata self plaintext metadata w)).
Proof.
  intros Hok. unfold associated_data.
  rewrite utf8_decode_encode, outcome_bind_ret.
  apply (json_loads_dumps _ true ", " ": ").
  - exists [" "%char], [" "%char]. by repeat split; repeat constructor.
  - by apply merged_metadata_NoDup.
Qed.

Lemma sorted_metadata_key_hash self plaintext metadata w :
  heap_ok w →
  dict_get "key_hash" (merge_sort key_le (merged_metadata self plaintext metadata w))
    = Some (JStr (CryptoEngine.key_hash self)).
Proof.
  intros Hok. rewrite <- (merged_metadata_key_hash self plaintext metadata w).
  symmetry. apply dict_get_Permutation.
  - by apply merged_metadata_NoDup.
  - symmetry. apply merge_sort_Permutation.
Qed.

End engine_facts.

(** * The claims about authentication *)

Section authentication.
Context `{Cryptography} `{!CryptographyContract}.

Lemma drawn_nonce_length w : List.length (drawn_nonce w) = 12%nat.
Proof. unfold drawn_nonce. by rewrite length_fmap, length_seq. Qed.

Lemma encrypt_returns self plaintext metadata w :
  CryptoEngine.encrypt self plaintext metadata w
    = ((CryptoEngine.encrypt self plaintext metadata w).1,
       Ret (encrypted_bundle self plaintext metadata w)).
Proof.
  unfold encrypted_bundle. rewrite <- encrypt_bundle. apply surjective_pairing.
Qed.

(** With the key of the encryption, [decrypt] returns the plaintext and
    the merged metadata. *)
Lemma decrypt_encrypted self plaintext metadata w :
  List.length (CryptoEngine.aesgcm self) = 32%nat → heap_ok w →
  CryptoEngine.decrypt self (encrypted_bundle self plaintext metadata w)
    = Ret (plaintext, merge_sort key_le (merged_metadata self plaintext metadata w)).
Proof.
  intros Hkey Hok. unfold encrypted_bundle.
  rewrite decrypt_bundle_of. unfold decrypt_core. rewrite take_drop.
  rewrite aesgcm_decrypt_encrypt by (done || apply drawn_nonce_length).
  rewrite outcome_bind_ret, associated_data_loads by done.
  rewrite outcome_bind_ret, sorted_metadata_key_hash by done.
  by rewrite bool_decide_eq_false_2 by (intros Hne; by apply Hne).
Qed.

(** With another key, whose fingerprint differs, [decrypt] fails: on
    the tag, or else on the fingerprint. *)
Lemma decrypt_other_key self self' plaintext metadata w :
  List.length (CryptoEngine.aesgcm self') = 32%nat → heap_ok w →
  CryptoEngine.key_hash self' ≠ CryptoEngine.key_hash self →
  CryptoEngine.decrypt self' (encrypted_bundle self plaintext metadata w)
    = Raise AUTHENTICATION_FAILED
  ∨ CryptoEngine.decrypt self' (encrypted_bundle self plaintext metadata w)
    = Raise KEY_MISMATCH.
Proof.
  intros Hkey Hok Hhash. unfold encrypted_bundle.
  rewrite decrypt_bundle_of. unfold decrypt_core. rewrite take_drop.
  destruct (aesgcm_decrypt (CryptoEngine.aesgcm self') _ _ _) as [pt|e] eqn:Hdec.
  - right. rewrite outcome_bind_ret, associated_data_loads by done.
    rewrite outcome_bind_ret, sorted_metadata_key_hash by done.
    rewrite bool_decide_eq_true_2; [done|]. intros [= Heq]. by apply Hhash.
  - left. apply aesgcm_decrypt_raises in Hdec; [|done|apply drawn_nonce_length].
    cbn. by rewrite bool_decide_eq_true_2.
Qed.


Lemma decrypt_ret_verified self bundle nonce ct tag aad plaintext metadata :
  decodes_to bundle nonce ct tag aad →
  CryptoEngine.decrypt self bundle = Ret (plaintext, metadata) →
  aesgcm_decrypt (CryptoEngine.aesgcm self) nonce (ct ++ tag) aad = Ret plaintext.
Proof.
  intros (Hn & Hc & Ht & Ha).
  rewrite (decrypt_decoded self bundle nonce ct tag aad) by done.
  unfold decrypt_core, try_except_class.
  destruct (aesgcm_decrypt _ _ _ _) as [pt|e]; cbn.
  - destruct (utf8_decode aad ≫= _) as [md|e]; cbn; [|by case_bool_decide].
    case_bool_decide; cbn; [done|]. by intros [= -> _].
  - by case_bool_decide.
Qed.

(** The text of a field is not its bytes: one bit of the tag's text can
    always be flipped without changing the bytes it decodes to, and
    [decrypt] returns as before. *)
Lemma decrypt_flipped_spare_bit self plaintext metadata w :
  List.length (CryptoEngine.aesgcm self) = 32%nat → heap_ok w →
  ∃ tag tag',
    bundle_field (encrypted_bundle self plaintext metadata w) "tag" = Ret tag
    ∧ flips_one_bit tag tag'
    ∧ CryptoEngine.decrypt self
        (dict_set "tag" (JStr tag') (encrypted_bundle self plaintext metadata w))
      = Ret (plaintext, merge_sort key_le (merged_metadata self plaintext metadata w)).
Proof.
  intros Hkey Hok.
  set (aad := associated_data self plaintext metadata w).
  set (c := aesgcm_encrypt (CryptoEngine.aesgcm self) (drawn_nonce w) plaintext aad).
  set (tag := drop (List.length c - CryptoEngine.TAG_SIZE) c).
  assert (List.length tag = 16%nat) as Htag.
  { unfold tag, c, CryptoEngine.TAG_SIZE. rewrite length_drop, aesgcm_encrypt_length. lia. }
  destruct (flip_spare_bit_decodes tag Htag) as [Hflip Hdec].
  exists (b64_text tag), (string_of_list_ascii (flip_spare_bit tag)).
  split; [reflexivity|]. split; [exact Hflip|].
  pose proof (decrypt_encrypted self plaintext metadata w Hkey Hok) as Hgood.
  unfold encrypted_bundle in *. fold aad c in Hgood |- *.
  rewrite decrypt_bundle_of in Hgood. fold tag in Hgood. rewrite <- Hgood.
  apply decrypt_decoded; unfold bundle_of, bundle_field, b64_text;
    cbn [dict_get dict_set];
    repeat (rewrite ?bool_decide_eq_true_2 by done;
            rewrite ?bool_decide_eq_false_2 by done);
    cbn [dict_get];
    repeat (rewrite ?bool_decide_eq_true_2 by done;
            rewrite ?bool_decide_eq_false_2 by done);
    rewrite outcome_bind_ret; (apply b64decode_b2a || exact Hdec).
Qed.

End authentication.

Section tampering.
Context `{Cryptography} `{!CryptographyContract} `{!AuthenticationContract}.








End tampering.



Lemma sample_world_ok : heap_ok sample_world.
Proof.
  intros l d Hl. unfold sample_world, world_0 in Hl. cbn [w_heap] in Hl.
  apply lookup_singleton_Some in Hl as [_ <-].
  apply (bool_decide_unpack (NoDup ["filename"])). by vm_compute.
Qed.

(** * Two keys for one bundle

    There are more 32-byte keys than pairs of a 16-byte tag and a
    64-bit fingerprint: two keys make the same tag over the same
    metadata and have the same fingerprint, and the bundle one of them
    makes of the empty plaintext is a bundle of the other. *)








Section wrong_key.
Context `{Cryptography} `{!CryptographyContract} `{!HashlibContract}.






End wrong_key.


(** * The stand-ins honour the contracts of PBKDF2 and [hexdigest] *)

#[global] Instance pbkdf2_ref_contract : Pbkdf2Contract.
Proof.
  split. intros length salt iterations material. cbn. unfold Pbkdf2Ref.derive.
  by rewrite length_fmap, length_seq.
Qed.

Lemma hex_digit_lower (b : byte) :
  is_hex_lower (hex_digit (Byte.to_N b / 16)) = true
  ∧ is_hex_lower (hex_digit (Byte.to_N b mod 16)) = true.
Proof.
  apply andb_true_iff.
  apply (forall_bytes (λ b, is_hex_lower (hex_digit (Byte.to_N b / 16))
                            && is_hex_lower (hex_digit (Byte.to_N b mod 16)))).
  by vm_compute.
Qed.

#[global] Instance hashlib_ref_contract : HashlibContract.
Proof.
  split. intros b. change (sha256_hexdigest b) with (CryptoRef.hexdigest b).
  unfold CryptoRef.hexdigest. split.
  - rewrite string_length_of_list. reflexivity.
  - rewrite list_ascii_of_string_of_list_ascii. generalize (seq 0 32).
    induction l as [|j l IH]; cbn [flat_map app]; [constructor|].
    destruct (hex_digit_lower (CryptoRef.checksum (N.of_nat j) b)) as [H1 H2].
    by repeat constructor.
Qed.

(** *** The reference key directory meets its contract *)

Module KeyStoreRefFacts.
Import KeyStoreRef.

Lemma name_in_keys_Some p n : name_in_keys p = Some n ↔ p = "keys/" +:+ n.
Proof.
  split.
  - destruct p as [|c0 [|c1 [|c2 [|c3 [|c4 p]]]]]; try done;
      unfold name_in_keys.
    all: repeat match goal with
                | |- context [match ?c with Ascii _ _ _ _ _ _ _ _ => _ end] =>
                    destruct c as [[] [] [] [] [] [] [] []]; try done
                end.
    all: try by intros [= <-].
  - intros ->. reflexivity.
Qed.

Lemma NoDup_omap_name l : NoDup l → NoDup (omap name_in_keys l).
Proof.
  induction 1 as [|p l Hp Hl IH]; [constructor|]. cbn.
  destruct (name_in_keys p) as [n|] eqn:Hn; [|done].
  constructor; [|done]. intros Hin.
  apply list_elem_of_omap in Hin as (q & Hq & Hqn).
  apply name_in_keys_Some in Hn, Hqn. by subst.
Qed.

#[global] Instance key_store_ref_contract : KeyStoreContract.
Proof.
  split.
  - done.
  - done.
  - intros fs n text _ Hf. cbn. unfold read. by rewrite Hf.
  - intros fs n. cbn. unfold glob. rewrite list_elem_of_filter, list_elem_of_omap.
    split.
    + intros [[Hplain Hend] (p & Hp & Hn)]. apply name_in_keys_Some in Hn as ->.
      split; [done|]. split; [done|].
      apply list_elem_of_fmap in Hp as ([p' text] & -> & Hp).
      apply elem_of_map_to_list in Hp. cbn. eauto.
    + intros (Hplain & Hend & [text Hf]). split; [done|].
      exists ("keys/" +:+ n). split; [|by apply name_in_keys_Some].
      apply list_elem_of_fmap. exists ("keys/" +:+ n, text). split; [done|].
      by apply elem_of_map_to_list.
  - intros fs. cbn. unfold glob. apply NoDup_filter, NoDup_omap_name.
    apply NoDup_fst_map_to_list.
  - intros fs n _ [text Hf]. cbn. unfold remove. by rewrite Hf.
Qed.

End KeyStoreRefFacts.

(** * More of the crypto engine *)

Section crypto_extras.
Context `{Cryptography}.

Lemma bundle_of_keys aad nonce ciphertext :
  (bundle_of aad nonce ciphertext).*1 = bundle_keys.
Proof. reflexivity. Qed.

Lemma bundle_of_valid aad nonce ciphertext : valid_bundle (bundle_of aad nonce ciphertext).
Proof.
  split; [by rewrite bundle_of_keys|].
  unfold bundle_of. repeat constructor; eexists; reflexivity.
Qed.

Lemma dict_update_get_fresh items : ∀ d k,
  k ∉ items.*1 → dict_get k (dict_update d items) = dict_get k d.
Proof.
  unfold dict_update. induction items as [|[k' v'] items IH]; intros d k Hk; [done|].
  cbn. rewrite IH.
  - apply dict_get_set_ne. intros ->. apply Hk. cbn. left.
  - intros Hin. apply Hk. cbn. by right.
Qed.

End crypto_extras.

#[global] Instance key_le_total : Total key_le.
Proof. intros a b. unfold key_le. apply String.leb_total. Qed.

(** X1: under a 32-byte key, [quick_encrypt] returns a transport string,
    and [quick_decrypt] under the same key returns from it the data and
    the metadata [encrypt] authenticated: the caller's entries with the
    four generated fields merged in, in key order. *)
Theorem quick_decrypt_quick_encrypt `{Cryptography} `{!CryptographyContract}
    key data metadata w :
  List.length key = 32%nat → heap_ok w →
  ∃ bundle_str,
    (quick_encrypt key data metadata w).2 = Ret bundle_str
    ∧ quick_decrypt key bundle_str
      = Ret (data, merge_sort key_le (merged_metadata (engine_of key) data metadata w)).
Proof.
  intros Hkey Hok. unfold quick_encrypt, quick_decrypt.
  rewrite init_32 by done. fold (engine_of key).
  rewrite encrypt_returns.
  destruct (parse_create_bundle_string (encrypted_bundle (engine_of key) data metadata w))
    as (s & Hs & Hp).
  { unfold encrypted_bundle. rewrite bundle_of_keys.
    apply (bool_decide_unpack (NoDup bundle_keys)). by vm_compute. }
  exists s. split; [exact Hs|].
  rewrite outcome_bind_ret, Hp, outcome_bind_ret.
  by apply decrypt_encrypted.
Qed.

Lemma quick_decrypt_quick_encrypt_witness :
  ∃ bundle_str,
    (quick_encrypt key_1_32 sample_plaintext (Some 1%positive) sample_world).2
      = Ret bundle_str
    ∧ quick_decrypt key_1_32 bundle_str
      = Ret (sample_plaintext,
             merge_sort key_le
               (merged_metadata (engine_of key_1_32) sample_plaintext (Some 1%positive)
                  sample_world)).
Proof.
  apply (quick_decrypt_quick_encrypt key_1_32 sample_plaintext (Some 1%positive) sample_world).
  - reflexivity.
  - exact sample_world_ok.
Defined.

(** X2: the metadata [decrypt] returns for a bundle of [encrypt] holds
    the version, the time of the encryption, the fingerprint of the key
    and the size of the plaintext; every other key has the value the
    caller gave it (an entry of the caller under one of the four names
    is overwritten); and the keys come in ascending order. *)
Theorem decrypted_metadata `{Cryptography} `{!CryptographyContract}
    self plaintext metadata w w' bundle :
  List.length (CryptoEngine.aesgcm self) = 32%nat → heap_ok w →
  CryptoEngine.encrypt self plaintext metadata w = (w', Ret bundle) →
  ∃ md,
    CryptoEngine.decrypt self bundle = Ret (plaintext, md)
    ∧ dict_get "version" md = Some (JStr "v2.0")
    ∧ dict_get "timestamp" md = Some (JStr (w_utcnow w))
    ∧ dict_get "key_hash" md = Some (JStr (CryptoEngine.key_hash self))
    ∧ dict_get "size" md = Some (JInt (Z.of_nat (List.length plaintext)))
    ∧ (∀ k, k ∉ generated_keys → dict_get k md = dict_get k (caller_dict metadata w))
    ∧ Sorted key_le md.
Proof.
  intros Hkey Hok Henc. rewrite encrypt_returns in Henc. injection Henc as _ <-.
  exists (merge_sort key_le (merged_metadata self plaintext metadata w)).
  split; [by apply decrypt_encrypted|].
  assert (∀ k, dict_get k (merge_sort key_le (merged_metadata self plaintext metadata w))
               = dict_get k (merged_metadata self plaintext metadata w)) as Hget.
  { intros k. symmetry. apply dict_get_Permutation.
    - by apply merged_metadata_NoDup.
    - symmetry. apply merge_sort_Permutation. }
  rewrite !Hget.
  unfold merged_metadata, generated_fields, dict_update. cbn -[dict_set].
  repeat split.
  - rewrite !dict_get_set_ne by done. apply dict_get_set.
  - rewrite !dict_get_set_ne by done. apply dict_get_set.
  - rewrite !dict_get_set_ne by done. apply dict_get_set.
  - apply dict_get_set.
  - intros k Hk. rewrite Hget.
    apply (dict_update_get_fresh
             [("version", JStr CryptoEngine.VERSION); ("timestamp", JStr (w_utcnow w));
              ("key_hash", JStr (CryptoEngine.key_hash self));
              ("size", JInt (Z.of_nat (List.length plaintext)))]).
    exact Hk.
  - apply Sorted_merge_sort. apply _.
Qed.

Lemma decrypted_metadata_witness :
  ∃ md,
    CryptoEngine.decrypt (engine_of key_1_32) sample_encrypted = Ret (sample_plaintext, md)
    ∧ dict_get "size" md = Some (JInt 11)
    ∧ dict_get "filename" md = Some (JStr "msg.txt").
Proof.
  destruct (decrypted_metadata (engine_of key_1_32) sample_plaintext (Some 1%positive)
              sample_world
              (CryptoEngine.encrypt (engine_of key_1_32) sample_plaintext (Some 1%positive)
                 sample_world).1
              sample_encrypted)
    as (md & Hd & _ & _ & _ & Hsize & Hother & _).
  - reflexivity.
  - exact sample_world_ok.
  - rewrite (surjective_pairing (CryptoEngine.encrypt _ _ _ _)).
    apply (f_equal (pair _)). vm_compute. reflexivity.
  - exists md. split; [exact Hd|]. split; [exact Hsize|].
    rewrite Hother; [reflexivity|].
    intros Hin. repeat (apply elem_of_cons in Hin as [Hin|Hin]; [done|]).
    by apply elem_of_nil in Hin.
Defined.

Lemma b64decode_b64_text b : b64decode (b64_text b) = Ret b.
Proof. apply b64decode_b2a. Qed.

Lemma decodes_to_bundle_of aad nonce ciphertext :
  decodes_to (bundle_of aad nonce ciphertext) nonce
    (take (List.length ciphertext - CryptoEngine.TAG_SIZE) ciphertext)
    (drop (List.length ciphertext - CryptoEngine.TAG_SIZE) ciphertext) aad.
Proof.
  unfold decodes_to, bundle_of, bundle_field; cbn [dict_get];
    repeat (rewrite ?bool_decide_eq_true_2 by done;
            rewrite ?bool_decide_eq_false_2 by done).
  rewrite !outcome_bind_ret, !b64decode_b64_text. done.
Qed.

(** X4: the bundle [encrypt] returns is a valid bundle of version
    ["v2.0"]; its fields decode to a nonce of 12 bytes, a ciphertext as
    long as the plaintext and a tag of 16 bytes, which together are what
    AES-GCM returned. *)
Theorem encrypt_bundle_shape `{Cryptography} `{!CryptographyContract}
    self plaintext metadata w :
  ∃ bundle nonce ct tag aad,
    (CryptoEngine.encrypt self plaintext metadata w).2 = Ret bundle
    ∧ valid_bundle bundle
    ∧ dict_get "version" bundle = Some (JStr "v2.0")
    ∧ decodes_to bundle nonce ct tag aad
    ∧ List.length nonce = 12%nat
    ∧ List.length ct = List.length plaintext
    ∧ List.length tag = 16%nat
    ∧ ct ++ tag = aesgcm_encrypt (CryptoEngine.aesgcm self) nonce plaintext aad.
Proof.
  set (aad := associated_data self plaintext metadata w).
  set (c := aesgcm_encrypt (CryptoEngine.aesgcm self) (drawn_nonce w) plaintext aad).
  exists (bundle_of aad (drawn_nonce w) c), (drawn_nonce w),
    (take (List.length c - CryptoEngine.TAG_SIZE) c),
    (drop (List.length c - CryptoEngine.TAG_SIZE) c), aad.
  assert (List.length c = (List.length plaintext + 16)%nat) as Hlen
    by apply aesgcm_encrypt_length.
  split; [apply encrypt_bundle|]. split; [apply bundle_of_valid|].
  split; [reflexivity|]. split; [apply decodes_to_bundle_of|].
  split; [apply drawn_nonce_length|]. unfold CryptoEngine.TAG_SIZE.
  split; [rewrite length_take; lia|]. split; [rewrite length_drop; lia|].
  apply take_drop.
Qed.

Lemma encrypt_bundle_shape_witness :
  ∃ bundle,
    (CryptoEngine.encrypt (engine_of key_1_32) sample_plaintext (Some 1%positive)
       sample_world).2 = Ret bundle
    ∧ valid_bundle bundle.
Proof.
  destruct (encrypt_bundle_shape (engine_of key_1_32) sample_plaintext (Some 1%positive)
              sample_world)
    as (bundle & nonce & ct & tag & aad & Henc & Hvalid & _).
  exists bundle. by split.
Defined.

Lemma a2b_base64_raises s : ∀ quad_pos leftchar pads out e,
  a2b_base64 s quad_pos leftchar pads out = Raise e → exn_cls e = BinasciiError.
Proof.
  induction s as [|c s IH]; intros quad_pos leftchar pads out e; cbn [a2b_base64].
  - destruct quad_pos as [|[|?]]; [done| |]; by intros [= <-].
  - case_bool_decide.
    + case_bool_decide; [|apply IH]. case_bool_decide; [done|apply IH].
    + destruct (b64_value c); [|apply IH].
      destruct quad_pos as [|[|[|?]]]; apply IH.
Qed.

Lemma b64decode_raises s e :
  b64decode s = Raise e → exn_cls e = BinasciiError ∨ exn_cls e = ValueError.
Proof.
  unfold b64decode. case_bool_decide.
  - intros ?%a2b_base64_raises. by left.
  - intros [= <-]. by right.
Qed.

Lemma bundle_field_raises bundle k e :
  bundle_field bundle k = Raise e → exn_cls e = KeyError ∨ exn_cls e = TypeError.
Proof.
  unfold bundle_field. destruct (dict_get k bundle) as [[?|?]|]; [done| |];
    intros [= <-]; auto.
Qed.

Lemma field_decode_raises bundle k e :
  (s ← bundle_field bundle k; b64decode s) = Raise e → exn_cls e ≠ InvalidTag.
Proof.
  destruct (bundle_field bundle k) as [s|e'] eqn:Hf; cbn.
  - intros [He|He]%b64decode_raises; by rewrite He.
  - intros [= <-]. apply bundle_field_raises in Hf as [He|He]; by rewrite He.
Qed.

Lemma utf8_decode_raises b e : utf8_decode b = Raise e → exn_cls e = UnicodeDecodeError.
Proof. unfold utf8_decode. destruct (utf8_decode_list b); [done|]. by intros [= <-]. Qed.

Lemma json_loads_raises s e : json_loads s = Raise e → exn_cls e = JSONDecodeError.
Proof.
  unfold json_loads. destruct (parse_object _) as [[d rest]|]; [|by intros [= <-]].
  destruct (skip_ws rest); [done|]. by intros [= <-].
Qed.

(** X5: whatever the bundle, [decrypt] never raises [InvalidTag]: the
    rejection of the tag reaches the caller as a [ValueError]. *)
Theorem decrypt_never_raises_InvalidTag `{Cryptography} self bundle e :
  CryptoEngine.decrypt self bundle = Raise e → exn_cls e ≠ InvalidTag.
Proof.
  unfold CryptoEngine.decrypt.
  destruct (_ ← bundle_field bundle "nonce"; _) as [nonce|e1] eqn:H1;
    [|intros [= <-]; by eapply field_decode_raises].
  destruct (_ ← bundle_field bundle "ciphertext"; _) as [ct|e2] eqn:H2;
    [|intros [= <-]; by eapply field_decode_raises].
  destruct (_ ← bundle_field bundle "tag"; _) as [tag|e3] eqn:H3;
    [|intros [= <-]; by eapply field_decode_raises].
  destruct (_ ← bundle_field bundle "metadata"; _) as [aad|e4] eqn:H4;
    [|intros [= <-]; by eapply field_decode_raises].
  cbn. unfold try_except_class.
  destruct (aesgcm_decrypt _ _ _ _) as [pt|e5]; cbn.
  - destruct (utf8_decode aad) as [s|e6] eqn:H6; cbn.
    + destruct (json_loads s) as [md|e7] eqn:H7; cbn.
      * case_bool_decide; [|done]. cbn. by intros [= <-].
      * apply json_loads_raises in H7. rewrite bool_decide_eq_false_2 by by rewrite H7.
        intros [= <-]. by rewrite H7.
    + apply utf8_decode_raises in H6. rewrite bool_decide_eq_false_2 by by rewrite H6.
      intros [= <-]. by rewrite H6.
  - case_bool_decide as Hc; [by intros [= <-]|]. by intros [= <-].
Qed.

Lemma decrypt_never_raises_InvalidTag_witness :
  CryptoEngine.decrypt (engine_of key_1_32) [] = Raise (Exn KeyError "'nonce'")
  ∧ exn_cls (Exn KeyError "'nonce'") ≠ InvalidTag.
Proof.
  split; [reflexivity|].
  apply (decrypt_never_raises_InvalidTag (engine_of key_1_32) []). reflexivity.
Defined.

(** X7: without a salt, [derive_key_from_password] draws 16 bytes from
    the generator as the salt; with the salt it returned, it derives the
    same key again and draws nothing; and the key builds a
    [CryptoEngine]. *)
Theorem derive_key_from_password_rederives `{Pbkdf2} `{!Pbkdf2Contract} `{Cryptography}
    password w :
  ∃ key salt w',
    CryptoEngine.derive_key_from_password password None w = (w', (key, salt))
    ∧ salt = w_entropy w <$> seq (w_cursor w) 16
    ∧ w_cursor w' = (w_cursor w + 16)%nat
    ∧ (∀ w0, CryptoEngine.derive_key_from_password password (Some salt) w0 = (w0, (key, salt)))
    ∧ CryptoEngine.__init__ key = Ret (engine_of key).
Proof.
  eexists _, _, _. split; [reflexivity|]. split; [reflexivity|]. split; [reflexivity|].
  split; [reflexivity|]. apply init_32. apply pbkdf2_length.
Qed.

Lemma derive_key_from_password_rederives_witness :
  ∃ key salt w',
    CryptoEngine.derive_key_from_password "correct horse" None sample_world
      = (w', (key, salt))
    ∧ CryptoEngine.__init__ key = Ret (engine_of key).
Proof.
  destruct (derive_key_from_password_rederives "correct horse" sample_world)
    as (key & salt & w' & Hd & _ & _ & _ & Hinit).
  exists key, salt, w'. by split.
Defined.

Lemma b2a_base64_length b :
  List.length (b2a_base64 b) = (4 * ((List.length b + 2) / 3))%nat.
Proof.
  induction b as [| x | x y | x y z b IH] using list_ind3; try reflexivity.
  cbn [b2a_base64 List.length]. rewrite IH.
  replace (S (S (S (List.length b))) + 2)%nat with (1 * 3 + (List.length b + 2))%nat by lia.
  rewrite Nat.div_add_l by done. lia.
Qed.

Lemma utf8_encode_ascii_length l :
  Forall (λ c, (N_of_ascii c < 128)%N) l →
  List.length (utf8_encode (string_of_list_ascii l)) = List.length l.
Proof.
  intros Hl. unfold utf8_encode. rewrite list_ascii_of_string_of_list_ascii.
  induction Hl as [|c l Hc _ IH]; [done|]. cbn [flat_map]. rewrite length_app, IH.
  unfold utf8_char. apply N.ltb_lt in Hc. by rewrite Hc.
Qed.

(** X8: [create_bundle_string] never raises; the string is ASCII, four
    characters for every three bytes of the compact JSON text of the
    bundle, rounded up, and it takes as many bytes as it has characters
    (what [hide] measures against the capacity). *)
Theorem transport_string_size bundle :
  ∃ s, CryptoEngine.create_bundle_string bundle = Ret s
       ∧ String.length s
         = (4 * ((List.length (utf8_encode (json_dumps bundle false "," ":")) + 2) / 3))%nat
       ∧ Forall (λ c, (N_of_ascii c < 128)%N) (list_ascii_of_string s)
       ∧ List.length (utf8_encode s) = String.length s.
Proof.
  eexists. split; [apply create_bundle_string_ret|].
  rewrite string_length_of_list, b2a_base64_length. split; [done|].
  split.
  - rewrite list_ascii_of_string_of_list_ascii. apply b2a_base64_ascii.
  - rewrite utf8_encode_ascii_length by apply b2a_base64_ascii. apply b2a_base64_length.
Qed.

(** ** [json.load] after [json.dump(indent=2)] *)

Lemma ends_number_blank ws rest :
  Forall (λ c, is_ws c = true) ws → ends_number (ws ++ "}"%char :: rest).
Proof.
  intros Hws. destruct ws as [|c ws]; cbn.
  - split; [done|]. intros Hin.
    repeat (apply elem_of_cons in Hin as [Hin|Hin]; [done|]). by apply elem_of_nil in Hin.
  - apply Forall_cons in Hws as [Hc _]. unfold is_ws in Hc.
    apply bool_decide_eq_true in Hc.
    repeat (apply elem_of_cons in Hc as [->|Hc]);
      try (split; [done|]; intros Hin;
           repeat (apply elem_of_cons in Hin as [Hin|Hin]; [done|]);
           by apply elem_of_nil in Hin).
    by apply elem_of_nil in Hc.
Qed.

Lemma skip_ws_blank c s : is_ws c = true → skip_ws (c :: s) = skip_ws s.
Proof. intros Hc. cbn [skip_ws]. by rewrite Hc. Qed.

Lemma scan_value_before v tail :
  ends_number tail → scan_value (json_encode_value v ++ tail) = Some (v, tail).
Proof.
  intros Hend.
  destruct v as [s|n].
  - cbn. rewrite bool_decide_eq_true_2 by done.
    rewrite <- app_assoc. cbn [app].
    by rewrite scanstring_encoded, string_of_list_ascii_of_string.
  - destruct (json_encode_value_head (JInt n)) as (h & l & Hh & _ & [->|[Hq _]]).
    { exfalso. cbn in Hh. rewrite str_int_digits in Hh.
      destruct (n <? 0); cbn in Hh; [done|].
      pose proof (digits_of_uint (abs_uint n)) as Hds.
      rewrite Hh in Hds. by inversion Hds. }
    unfold scan_value. rewrite Hh. cbn [app].
    rewrite bool_decide_eq_false_2 by done.
    rewrite app_comm_cons, <- Hh. cbn [json_encode_value].
    by rewrite scan_int_str_int.
Qed.

Section members_indented.
Context (item_sep key_sep ws_item ws_key ws_close : list ascii).
Hypothesis item_sep_shape : item_sep = ","%char :: ws_item.
Hypothesis key_sep_shape : key_sep = ":"%char :: ws_key.
Hypothesis ws_item_blank : Forall (λ c, is_ws c = true) ws_item.
Hypothesis ws_key_blank : Forall (λ c, is_ws c = true) ws_key.
Hypothesis ws_close_blank : Forall (λ c, is_ws c = true) ws_close.

Lemma parse_members_indented items : ∀ kv fuel rest,
  (List.length items < fuel)%nat →
  parse_members fuel (members_text item_sep key_sep kv items ++ ws_close ++ "}"%char :: rest)
  = Some (kv :: items, rest).
Proof.
  induction items as [|kv' items IH]; intros [k v] fuel rest Hfuel;
    (destruct fuel as [|fuel]; [cbn in Hfuel; lia|]);
    cbn [parse_members members_text fst snd];
    rewrite <- !app_assoc; cbn [app];
    rewrite scanstring_encoded, key_sep_shape; cbn [app];
    rewrite (skip_ws_stop ":"%char) by done;
    rewrite (bool_decide_eq_true_2 (":"%char = ":"%char)) by done;
    rewrite <- !app_assoc, skip_ws_app by done;
    destruct (json_encode_value_head v) as (c & l & Hv & Hc & _).
  - rewrite Hv. cbn [app]. rewrite skip_ws_stop by done.
    rewrite app_comm_cons, <- Hv.
    rewrite scan_value_before by (by apply ends_number_blank).
    rewrite skip_ws_app by done. rewrite skip_ws_stop by done.
    rewrite (bool_decide_eq_true_2 ("}"%char = "}"%char)) by done.
    by rewrite string_of_list_ascii_of_string.
  - rewrite Hv. cbn [app]. rewrite skip_ws_stop by done.
    rewrite app_comm_cons, <- Hv.
    rewrite item_sep_shape. cbn [app].
    rewrite scan_value_before.
    2:{ split; [done|]. intros Hin.
        repeat (apply elem_of_cons in Hin as [Hin|Hin]; [done|]). by apply elem_of_nil in Hin. }
    rewrite skip_ws_stop by done.
    rewrite (bool_decide_eq_false_2 (","%char = "}"%char)) by done.
    rewrite (bool_decide_eq_true_2 (","%char = ","%char)) by done.
    rewrite skip_ws_app by done. rewrite skip_ws_stop by done.
    rewrite (bool_decide_eq_true_2 (QUOTE = QUOTE)) by done.
    rewrite key_sep_shape, item_sep_shape in IH.
    rewrite IH by (cbn in Hfuel; lia).
    by rewrite string_of_list_ascii_of_string.
Qed.

End members_indented.

Lemma members_text_length_le item_sep key_sep kv items tail :
  (List.length items < List.length (members_text item_sep key_sep kv items ++ tail))%nat.
Proof.
  revert kv. induction items as [|kv' items IH]; intros kv.
  - cbn [members_text]. repeat (rewrite ?length_app; cbn [List.length]). lia.
  - specialize (IH kv'). cbn [members_text].
    repeat (rewrite ?length_app in *; cbn [List.length] in * ). lia.
Qed.

(** [json.load] reads back what [json.dump(d, f, indent=2)] wrote. *)
Lemma json_loads_dumps_indent2 d :
  NoDup d.*1 → json_loads (json_dumps_indent2 d) = Ret d.
Proof.
  intros Hnd. unfold json_dumps_indent2.
  destruct d as [|kv items]; [done|].
  unfold json_loads, parse_object.
  rewrite list_ascii_of_string_of_list_ascii.
  rewrite skip_ws_stop by done.
  rewrite (bool_decide_eq_true_2 ("{"%char = "{"%char)) by done.
  rewrite (json_encode_items_cons _ _ kv items). cbn [app].
  rewrite !skip_ws_blank by done.
  rewrite skip_ws_stop by done.
  rewrite (bool_decide_eq_false_2 (QUOTE = "}"%char)) by done.
  rewrite (bool_decide_eq_true_2 (QUOTE = QUOTE)) by done.
  change (members_text ?a ?b kv items ++ ["010"%char; "}"%char])
    with (members_text a b kv items ++ ["010"%char] ++ "}"%char :: []).
  rewrite (parse_members_indented _ _ ["010"%char; " "%char; " "%char] [" "%char] ["010"%char]
             eq_refl eq_refl).
  - by rewrite dict_update_empty.
  - by repeat constructor.
  - by repeat constructor.
  - by repeat constructor.
  - apply members_text_length_le.
Qed.

(** * The key manager *)

Lemma key_to_string_ret key : KeyManager.key_to_string key = Ret (b64_text key).
Proof. unfold KeyManager.key_to_string, b64_text. apply utf8_decode_b64encode. Qed.

Lemma string_to_key_b64_text key :
  KeyManager.string_to_key (b64_text key)
  = if bool_decide (List.length key = 32%nat) then Ret key
    else Raise (WRONG_KEY_SIZE (List.length key)).
Proof.
  unfold KeyManager.string_to_key. rewrite b64decode_b64_text, outcome_bind_ret.
  unfold KeyManager.KEY_SIZE. case_bool_decide as Hn.
  - rewrite bool_decide_eq_false_2; [done|]. by intros Hne.
  - by rewrite bool_decide_eq_true_2.
Qed.

(** X9: [string_to_key] gives back a 32-byte key from the string
    [key_to_string] made of it; a key of any other length is refused
    with ["Invalid key format: Invalid key size: n bytes"]. *)
Theorem string_to_key_key_to_string key :
  ∃ s, KeyManager.key_to_string key = Ret s
       ∧ KeyManager.string_to_key s
         = if bool_decide (List.length key = 32%nat) then Ret key
           else Raise (WRONG_KEY_SIZE (List.length key)).
Proof.
  exists (b64_text key). split; [apply key_to_string_ret|apply string_to_key_b64_text].
Qed.

(** X10: a key [string_to_key] returns has 32 bytes and is what the
    string decodes to; whatever goes wrong, the exception is a
    [ValueError] whose message starts with ["Invalid key format: "]. *)
Theorem string_to_key_sound key_string :
  (∀ key, KeyManager.string_to_key key_string = Ret key →
          List.length key = 32%nat ∧ b64decode key_string = Ret key)
  ∧ (∀ e, KeyManager.string_to_key key_string = Raise e →
          exn_cls e = ValueError
          ∧ ∃ why, exn_msg e = "Invalid key format: " +:+ why).
Proof.
  unfold KeyManager.string_to_key, KeyManager.KEY_SIZE, try_except.
  destruct (b64decode key_string) as [key|e0]; cbn.
  - case_bool_decide as Hn; cbn.
    + split; [done|]. intros e [= <-]. split; [done|]. eexists. reflexivity.
    + split; [|done]. intros ? [= <-]. split; [|done].
      destruct (decide (List.length key = 32%nat)); [done|]. by destruct Hn.
  - split; [done|]. intros e [= <-]. split; [done|]. eexists. reflexivity.
Qed.

(** X11: [generate_key] draws 32 bytes from the generator; the key
    builds a [CryptoEngine] and comes back from its base64 string. *)
Theorem generate_key_valid `{Cryptography} w :
  ∃ key w',
    KeyManager.generate_key w = (key, w')
    ∧ key = w_entropy w <$> seq (w_cursor w) 32
    ∧ w_cursor w' = (w_cursor w + 32)%nat
    ∧ CryptoEngine.__init__ key = Ret (engine_of key)
    ∧ ∃ s, KeyManager.key_to_string key = Ret s ∧ KeyManager.string_to_key s = Ret key.
Proof.
  eexists _, _. split; [reflexivity|]. split; [reflexivity|]. split; [reflexivity|].
  assert (List.length (w_entropy w <$> seq (w_cursor w) KeyManager.KEY_SIZE) = 32%nat) as Hlen.
  { by rewrite length_fmap, length_seq. }
  split; [by apply init_32|].
  exists (b64_text (w_entropy w <$> seq (w_cursor w) KeyManager.KEY_SIZE)).
  split; [apply key_to_string_ret|].
  rewrite string_to_key_b64_text. by rewrite bool_decide_eq_true_2.
Qed.

Lemma list_ascii_of_string_app s1 s2 :
  list_ascii_of_string (s1 +:+ s2) = list_ascii_of_string s1 ++ list_ascii_of_string s2.
Proof. induction s1 as [|c s1 IH]; [done|]. simpl. f_equal. exact IH. Qed.

Lemma Forall_lstrip (P : ascii → Prop) s : Forall P s → Forall P (lstrip s).
Proof.
  induction s as [|c s IH]; [done|]. intros Hs. cbn.
  destruct (isspace c); [|done]. apply IH. by apply Forall_cons in Hs as [_ ?].
Qed.

Lemma Forall_strip (P : ascii → Prop) s : Forall P s → Forall P (strip s).
Proof.
  intros Hs. unfold strip.
  apply Forall_rev, Forall_lstrip, Forall_rev, Forall_lstrip, Hs.
Qed.

Lemma ascii_upper_hex c : is_hex_lower c = true → is_hex_upper (ascii_upper c) = true.
Proof. destruct c as [[] [] [] [] [] [] [] []]; by vm_compute. Qed.

Section key_files.
Context `{Cryptography} `{!HashlibContract}.

Lemma fingerprint_hex key :
  List.length (list_ascii_of_string (KeyManager.get_key_fingerprint key)) = 16%nat
  ∧ Forall (λ c, is_hex_upper c = true)
      (list_ascii_of_string (KeyManager.get_key_fingerprint key)).
Proof.
  destruct (sha256_hexdigest_hex key) as [Hlen Hhex].
  unfold KeyManager.get_key_fingerprint, upper.
  rewrite list_ascii_of_string_of_list_ascii, substring_prefix. split.
  - rewrite length_fmap, length_take.
    rewrite <- (string_of_list_ascii_of_string (sha256_hexdigest key)) in Hlen.
    revert Hlen. generalize (list_ascii_of_string (sha256_hexdigest key)).
    intros l Hl.
    assert (String.length (string_of_list_ascii l) = List.length l) as Hsl.
    { clear. induction l; cbn; [done|]. by rewrite IHl. }
    lia.
  - apply Forall_fmap. apply Forall_take.
    eapply Forall_impl; [exact Hhex|]. intros c Hc. by apply ascii_upper_hex.
Qed.

End key_files.

(** X12: whatever the name, the file [save_key] writes lies in the
    [keys] directory: of the name only letters, digits, spaces, hyphens
    and underscores are kept, the fingerprint is 16 upper-case
    hexadecimal digits, and the file name holds no path separator. *)
Theorem save_key_in_keys_dir `{Cryptography} `{!HashlibContract}
    key name description w fs :
  ∃ safe_name fingerprint,
    (KeyManager.save_key key name description w fs).2
      = Ret (string_of_list_ascii
               (list_ascii_of_string "keys/" ++ safe_name ++ "_"%char :: fingerprint
                  ++ list_ascii_of_string ".key.json"))
    ∧ Forall (λ c, plain_name_char c = true) safe_name
    ∧ List.length fingerprint = 16%nat
    ∧ Forall (λ c, is_hex_upper c = true) fingerprint
    ∧ "/"%char ∉ safe_name ++ "_"%char :: fingerprint ++ list_ascii_of_string ".key.json".
Proof.
  set (safe := strip (filter (λ c, isalnum c || bool_decide (c ∈ [" "%char; "-"%char; "_"%char]))
                        (list_ascii_of_string name))).
  destruct (fingerprint_hex key) as [Hlen Hhex].
  assert (Forall (λ c, plain_name_char c = true) safe) as Hsafe.
  { apply Forall_strip. apply Forall_forall. intros c Hc.
    apply list_elem_of_filter in Hc as [Hc _]. unfold plain_name_char.
    by destruct (isalnum c || _). }
  exists safe, (list_ascii_of_string (KeyManager.get_key_fingerprint key)).
  split; [|split; [done|split; [done|split; [done|]]]].
  - unfold KeyManager.save_key. rewrite key_to_string_ret. cbn [snd]. f_equal.
    unfold KeyManager.key_filename, KeyManager.KEYS_DIR. fold safe.
    rewrite <- (string_of_list_ascii_of_string (_ +:+ _)).
    rewrite !list_ascii_of_string_app, !list_ascii_of_string_of_list_ascii.
    reflexivity.
  - intros Hin. apply elem_of_app in Hin as [Hin|Hin].
    + rewrite Forall_forall in Hsafe. by specialize (Hsafe _ Hin).
    + apply elem_of_cons in Hin as [Hin|Hin]; [done|].
      apply elem_of_app in Hin as [Hin|Hin].
      * rewrite Forall_forall in Hhex. by specialize (Hhex _ Hin).
      * cbn in Hin. repeat (apply elem_of_cons in Hin as [Hin|Hin]; [done|]).
        by apply elem_of_nil in Hin.
Qed.

Lemma save_key_in_keys_dir_witness :
  ∃ safe_name fingerprint,
    (KeyManager.save_key key_1_32 "../My key!" "" sample_world ∅).2
      = Ret (string_of_list_ascii
               (list_ascii_of_string "keys/" ++ safe_name ++ "_"%char :: fingerprint
                  ++ list_ascii_of_string ".key.json"))
    ∧ "/"%char ∉ safe_name ++ "_"%char :: fingerprint ++ list_ascii_of_string ".key.json".
Proof.
  destruct (save_key_in_keys_dir key_1_32 "../My key!" "" sample_world ∅)
    as (safe_name & fingerprint & Hs & _ & _ & _ & Hno).
  exists safe_name, fingerprint. by split.
Defined.

(** X13: [save_key] writes one file and leaves the others alone;
    [json.load] reads from it the dictionary that was saved, and
    [string_to_key] on its [key] field gives the key back when it has 32
    bytes ([save_key] itself stores a key of any length). *)
Theorem save_key_reads_back `{Cryptography} key name description w fs :
  ∃ path text,
    KeyManager.save_key key name description w fs = (<[path := text]> fs, Ret path)
    ∧ json_loads text = Ret (saved_key_data key name description w)
    ∧ KeyManager.string_to_key (b64_text key)
      = (if bool_decide (List.length key = 32%nat) then Ret key
         else Raise (WRONG_KEY_SIZE (List.length key))).
Proof.
  eexists _, _. unfold KeyManager.save_key. rewrite key_to_string_ret.
  split; [reflexivity|]. split; [|apply string_to_key_b64_text].
  rewrite dict_update_empty.
  - apply json_loads_dumps_indent2.
    apply (bool_decide_unpack (NoDup _)). by vm_compute.
  - apply (bool_decide_unpack (NoDup _)). by vm_compute.
Qed.

(** * More of the stego engine *)

Section stego_extras.
Context `{FileSystem} `{Pillow}.

Lemma calculate_capacity_ret fs path capacity :
  calculate_capacity fs path = Ret capacity →
  ∃ img, Image_open fs path = Ret img
         ∧ capacity = im_width img * im_height img * channelsPerPixel img / 8 - 200.
Proof.
  unfold calculate_capacity, channelsPerPixel.
  destruct (Image_open fs path) as [img|]; [|done]. cbn.
  intros Hc. exists img. split; [done|].
  case_bool_decide as Hm.
  - destruct (Image_convert img "RGB") as [img'|] eqn:Hconv; [|done].
    unfold Image_convert in Hconv. destruct (Image_load img); [|done].
    cbn in Hconv. injection Hconv as <-. cbn in Hc.
    rewrite (bool_decide_eq_true_2 ("RGB" = "RGB")) in Hc by done.
    rewrite (bool_decide_eq_false_2 (im_mode img = "RGBA")).
    + by injection Hc as <-.
    + intros Heq. apply Hm. rewrite Heq. right. left.
  - cbn in Hc. injection Hc as <-.
    destruct (decide (im_mode img = "RGB")) as [Heq|Hne].
    + rewrite Heq. reflexivity.
    + rewrite (bool_decide_eq_false_2 _ Hne).
      rewrite bool_decide_eq_true_2; [done|].
      destruct (decide (im_mode img = "RGBA")); [done|].
      exfalso. apply elem_of_cons in Hm as [?|Hm]; [done|].
      by apply list_elem_of_singleton in Hm.
Qed.

Lemma channelsPerPixel_bounds img : 3 ≤ channelsPerPixel img ≤ 4.
Proof. unfold channelsPerPixel. case_bool_decide; lia. Qed.

End stego_extras.

(** X14: [validate_image] accepts exactly the files that open as an
    image of a supported format, at least 100 pixels wide and high, for
    which the capacity can be computed.  Whenever the statistics hold a
    capacity, it is at least 3550 bytes and the image was accepted: the
    check for a capacity under 1000 bytes never rejects. *)
Theorem validate_image_verdict `{FileSystem} `{Pillow} fs path :
  (verdict (validate_image fs path) = Some true
   ↔ ∃ img, Image_open fs path = Ret img
            ∧ format_name img ∈ SUPPORTED_FORMATS
            ∧ 100 ≤ im_width img ∧ 100 ≤ im_height img
            ∧ returned (calculate_capacity fs path) = true)
  ∧ (∀ ok msg stats capacity,
       validate_image fs path = Ret (ok, msg, stats) →
       stats !! "capacity_bytes" = Some (VInt capacity) →
       ok = true ∧ 3550 ≤ capacity).
Proof.
  destruct (fs !! realpath path) as [f|] eqn:Hf.
  2:{ rewrite validate_image_missing by done. split.
      - split; [done|]. intros (img & Hopen & _). unfold Image_open in Hopen.
        by rewrite Hf in Hopen.
      - intros ok msg stats capacity [= <- <- <-]. by rewrite lookup_empty. }
  destruct (Image_open fs path) as [img|e] eqn:Hopen.
  2:{ rewrite (validate_image_undecodable fs path e) by (by rewrite ?Hf). split.
      - split; [done|]. by intros (img & ? & _).
      - intros ok msg stats capacity [= <- <- <-]. by rewrite lookup_empty. }
  destruct (validate_image_opened fs path img Hopen)
    as (size & _ & [(Hfmt & m & Hv)|[(Hfmt & Hd & m & Hv)|(Hfmt & Hw & Hh & [(e & He & Hv)|(c & m & Hc & Hv)])]]);
    rewrite Hv; cbn [verdict].
  - split.
    + split; [done|]. intros (img' & [= <-] & ? & _). done.
    + intros ok msg stats capacity [= <- <- <-]. unfold base_stats. by simplify_map_eq.
  - split.
    + split; [done|]. intros (img' & [= <-] & _ & ? & ? & _). lia.
    + intros ok msg stats capacity [= <- <- <-]. unfold base_stats. by simplify_map_eq.
  - split.
    + split; [done|]. intros (img' & _ & _ & _ & _ & Hr). by rewrite He in Hr.
    + intros ok msg stats capacity [= <- <- <-]. by rewrite lookup_empty.
  - destruct (calculate_capacity_ret fs path c Hc) as (img' & Hopen' & Hcap).
    assert (img' = img) as -> by congruence.
    assert (3550 ≤ c) as Hbig.
    { pose proof (channelsPerPixel_bounds img) as Hch. subst c.
      assert (30000 ≤ im_width img * im_height img * channelsPerPixel img) by nia.
      assert (3750 ≤ im_width img * im_height img * channelsPerPixel img / 8)
        by (apply Z.div_le_lower_bound; lia).
      lia. }
    rewrite bool_decide_eq_true_2 by lia. split.
    + split; [|done]. intros _. exists img. rewrite Hc. done.
    + intros ok msg stats capacity [= <- <- <-].
      rewrite lookup_insert_ne by done. rewrite lookup_insert_eq. by intros [= <-].
Qed.

(** X15: every exception of [reveal] is a [ValueError]: ["Stego image
    not found"] for a missing file, and otherwise ["Extraction failed:
    ..."], with ["No hidden data detected in image"] when the library
    finds nothing or an empty message. *)
Theorem reveal_raises `{FileSystem} `{Pillow} `{Stegano} fs stego_path e :
  StegoEngine.reveal fs stego_path = Raise e →
  exn_cls e = ValueError
  ∧ (fs !! realpath stego_path = None → exn_msg e = "Stego image not found")
  ∧ (is_Some (fs !! realpath stego_path) →
     ∃ why, exn_msg e = "Extraction failed: " +:+ why)
  ∧ (∀ img secret,
       Image_open fs stego_path = Ret img → lsb_reveal img = Ret secret →
       (secret = None ∨ secret = Some "")
       ∧ exn_msg e = "Extraction failed: No hidden data detected in image").
Proof.
  unfold StegoEngine.reveal. destruct (os_path_exists fs stego_path) eqn:Hex; cbn [negb].
  - apply os_path_exists_true in Hex. unfold try_except.
    destruct (Image_open fs stego_path) as [img|e0] eqn:Hopen; cbn.
    + destruct (lsb_reveal img) as [[s|]|e1] eqn:Hrev; cbn.
      * case_bool_decide as Hlen; [|done]. intros [= <-].
        split; [done|]. split; [intros Hn; rewrite Hn in Hex; by destruct Hex|].
        split; [intros _; eexists; reflexivity|].
        intros img' secret [= <-] Hs. rewrite Hrev in Hs. injection Hs as <-.
        split; [|done]. right. destruct s; [done|]. cbn in Hlen. lia.
      * intros [= <-].
        split; [done|]. split; [intros Hn; rewrite Hn in Hex; by destruct Hex|].
        split; [intros _; eexists; reflexivity|].
        intros img' secret [= <-] Hs. rewrite Hrev in Hs. injection Hs as <-.
        split; [by left|done].
      * intros [= <-].
        split; [done|]. split; [intros Hn; rewrite Hn in Hex; by destruct Hex|].
        split; [intros _; eexists; reflexivity|].
        intros img' secret [= <-] Hs. by rewrite Hrev in Hs.
    + intros [= <-].
      split; [done|]. split; [intros Hn; rewrite Hn in Hex; by destruct Hex|].
      split; [intros _; eexists; reflexivity|]. by intros img' secret.
  - apply os_path_exists_false in Hex. intros [= <-].
    split; [done|]. split; [done|]. split; [rewrite Hex; by intros []|].
    intros img secret Hopen. unfold Image_open in Hopen. by rewrite Hex in Hopen.
Qed.

Lemma reveal_raises_witness :
  StegoEngine.reveal (∅ : gmap string file) "missing.png"
  = Raise (Exn ValueError "Stego image not found").
Proof.
  destruct (StegoEngine.reveal (∅ : gmap string file) "missing.png") as [s|[cls msg]] eqn:Hr;
    [done|].
  destruct (reveal_raises ∅ "missing.png" _ Hr) as (Hcls & Hmsg & _).
  cbn in Hcls, Hmsg. rewrite Hcls, Hmsg; [done|]. apply lookup_empty.
Defined.

Section hide_extras.
Context `{FileSystem} `{Pillow} `{Stegano}.

(** What [prepare_image] writes and where. *)
Lemma prepare_image_ret image_path output_path fs fs' p :
  prepare_image image_path output_path fs = (fs', Ret p) →
  ∃ img img' data,
    Image_open fs image_path = Ret img
    ∧ (if bool_decide (im_mode img ∉ ["RGB"; "RGBA"]) then Image_convert img "RGB"
       else Ret img) = Ret img'
    ∧ Image_load img' = Ret data
    ∧ match output_path with
      | Some q => p = q
      | None => with_suffix_png image_path = Ret p
      end
    ∧ refuses_write p = None
    ∧ fs' = <[realpath p := {| f_size :=
                       png_size (Image_putdata
                                   (Image_new (im_mode img') (im_width img') (im_height img'))
                                   data);
                     f_image :=
                       Some (png_reload
                               (Image_putdata
                                  (Image_new (im_mode img') (im_width img') (im_height img'))
                                  data)) |}]> fs.
Proof.
  unfold prepare_image. intros Hp.
  apply io_bind_ret in Hp as (img & fs0 & Ho & Hp). apply io_read_ret in Ho as [-> Ho].
  apply io_bind_ret in Hp as (img' & fs0 & Hc & Hp). apply io_pure_ret in Hc as [-> Hc].
  apply io_bind_ret in Hp as (data & fs0 & Hl & Hp). apply io_pure_ret in Hl as [-> Hl].
  apply io_bind_ret in Hp as (q & fs0 & Hq & Hp).
  apply io_bind_ret in Hp as ([] & fs1 & Hs & Hp).
  apply io_write_ret in Hs.
  assert (refuses_write q = None) as Hw.
  { unfold Image_save in Hs. destruct (Image_load _); [|done]. cbn in Hs.
    by destruct (refuses_write q). }
  apply Image_save_ret in Hs.
  injection Hp as -> ->.
  exists img, img', data. repeat split; try done.
  - destruct output_path as [q'|].
    + by injection Hq as _ ->.
    + by apply io_pure_ret in Hq as [_ ?].
  - destruct output_path as [q'|].
    + by injection Hq as -> _.
    + by apply io_pure_ret in Hq as [-> _].
Qed.

Lemma prepare_image_is_some image_path fs fs' p :
  prepare_image image_path None fs = (fs', Ret p) → is_Some (fs' !! realpath p).
Proof.
  intros Hp. apply prepare_image_ret in Hp as (img & img' & data & _ & _ & _ & _ & _ & ->).
  rewrite lookup_insert_eq. eauto.
Qed.

End hide_extras.

(** X16: when the cover does not pass validation, or the payload is
    larger than the capacity, [hide] raises a [ValueError] and the file
    system is as it was. *)
Theorem hide_refuses_before_writing `{FileSystem} `{Pillow} `{Stegano}
    cover_path secret_data output_path fs :
  verdict (validate_image fs cover_path) ≠ Some true
  ∨ (∃ capacity, calculate_capacity fs cover_path = Ret capacity
                 ∧ capacity < Z.of_nat (List.length (utf8_encode secret_data))) →
  ∃ msg,
    hide cover_path secret_data output_path fs = (fs, Raise (Exn ValueError msg))
    ∧ (fs !! realpath cover_path = None → msg = "Image file not found").
Proof.
  intros Hcase.
  destruct (validate_image_returns fs cover_path) as ([|] & msg & stats & Hv).
  - destruct Hcase as [Hnot|(capacity & Hcap & Hlt)].
    { rewrite Hv in Hnot. by destruct Hnot. }
    destruct (validate_image_valid_inv _ _ _ _ Hv) as (c & Hc & _ & Hs).
    assert (c = capacity) as -> by congruence.
    eexists. split.
    + by apply (hide_payload_too_large _ _ _ _ msg stats capacity).
    + intros Hnone. rewrite validate_image_missing in Hv by done. done.
  - exists msg. split.
    + unfold hide, mbind, io_bind, io_read. by rewrite Hv.
    + intros Hnone. rewrite validate_image_missing in Hv by done. by injection Hv as <- _.
Qed.

Lemma hide_refuses_before_writing_witness :
  ∃ msg,
    hide "missing.png" "hello" "out.png" (∅ : gmap string file)
    = (∅, Raise (Exn ValueError msg)) ∧ msg = "Image file not found".
Proof.
  destruct (hide_refuses_before_writing "missing.png" "hello" "out.png" ∅)
    as (msg & Hh & Hmsg).
  - left. vm_compute. discriminate.
  - exists msg. split; [exact Hh|]. apply Hmsg, lookup_empty.
Defined.

(** X17: when [hide] returns, it has changed the output file and no
    other, except that the file named by
    [Path(cover).with_suffix('.png')], when that string is not the cover
    path, is gone, whether it existed before or not, and also when it is
    the cover itself under another spelling.  In particular [hide]
    cannot return when that file is the output file. *)
Theorem hide_files_touched `{FileSystem} `{Pillow} `{Stegano}
    cover_path secret_data output_path fs fs' st :
  hide cover_path secret_data output_path fs = (fs', Ret st) →
  ∃ prepared_path,
    with_suffix_png cover_path = Ret prepared_path
    ∧ (prepared_path ≠ cover_path →
       realpath prepared_path ≠ realpath output_path
       ∧ fs' !! realpath prepared_path = None)
    ∧ (∀ p, p ≠ realpath output_path → p ≠ realpath prepared_path →
            fs' !! p = fs !! p).
Proof.
  intros Hh. pose proof Hh as Hinv. apply hide_ret_inv in Hinv
    as (msg & stats & capacity & fs1 & prepared_path & img & stego_img & fs2
        & _ & _ & _ & Hp & _ & _ & Hs & Hfs & Hout).
  exists prepared_path. pose proof (prepare_image_path _ _ _ _ Hp) as Hpath.
  split; [done|]. split.
  - intros Hne. apply prepare_image_is_some in Hp.
    apply Image_save_ret in Hs. subst fs2.
    assert (os_path_exists
              (<[realpath output_path := {| f_size := png_size stego_img;
                                            f_image := Some (png_reload stego_img) |}]> fs1)
              prepared_path = true) as Hex.
    { apply os_path_exists_true.
      destruct (decide (realpath output_path = realpath prepared_path)) as [->|Hd].
      - rewrite lookup_insert_eq. eauto.
      - by rewrite lookup_insert_ne. }
    rewrite Hex, bool_decide_eq_true_2 in Hfs by done. cbn in Hfs. subst fs'.
    split; [|apply lookup_delete_eq].
    intros Heq. rewrite <- Heq, lookup_delete_eq in Hout. by destruct Hout.
  - intros p Hpo Hpp.
    apply (hide_preserves p cover_path secret_data output_path) in Hh; [done| |done].
    intros q Hq. rewrite Hpath in Hq. injection Hq as <-. done.
Qed.

Lemma hide_files_touched_witness :
  (hide "cover.bmp" "hello" "out.png" bmp_cover).1 !! "cover.png" = None.
Proof.
  destruct (returned_ret (hide "cover.bmp" "hello" "out.png" bmp_cover).2) as [st Hst];
    [vm_compute; reflexivity|].
  destruct (hide_files_touched "cover.bmp" "hello" "out.png" bmp_cover
              (hide "cover.bmp" "hello" "out.png" bmp_cover).1 st)
    as (prepared & Hp & Hgone & _).
  - rewrite <- Hst. apply surjective_pairing.
  - assert (prepared = "cover.png") as ->.
    { vm_compute in Hp. by injection Hp as <-. }
    by apply Hgone.
Defined.

(** X18: [prepare_image] writes one PNG file, of the dimensions of the
    source, in its mode when that is RGB or RGBA and in RGB otherwise,
    without any of its metadata, and with its pixels (converted where the
    mode was). *)
Theorem prepare_image_strips_metadata `{FileSystem} `{Pillow}
    image_path output_path fs fs' p :
  prepare_image image_path output_path fs = (fs', Ret p) →
  ∃ img data clean,
    Image_open fs image_path = Ret img
    ∧ Image_load img = Ret data
    ∧ fs' = <[realpath p := {| f_size := png_size clean;
                              f_image := Some (png_reload clean) |}]> fs
    ∧ im_format (png_reload clean) = Some "PNG"
    ∧ im_info (png_reload clean) = []
    ∧ im_width clean = im_width img ∧ im_height clean = im_height img
    ∧ im_mode clean = (if bool_decide (im_mode img ∈ ["RGB"; "RGBA"]) then im_mode img
                       else "RGB")
    ∧ (List.length data = Z.to_nat (im_width img * im_height img) →
       im_data clean
       = Some (if bool_decide (im_mode img ∈ ["RGB"; "RGBA"]) then data
               else convert_pixel (im_mode img) "RGB" <$> data)).
Proof.
  intros Hp.
  apply prepare_image_ret in Hp as (img & img' & data' & Ho & Hc & Hl & _ & _ & Hfs).
  case_bool_decide as Hm.
  - destruct (Image_convert img "RGB") as [img1|] eqn:Hconv; [|done].
    injection Hc as ->. unfold Image_convert in Hconv.
    destruct (Image_load img) as [data|] eqn:Hload; [|done]. cbn in Hconv.
    injection Hconv as <-. cbn in Hl. injection Hl as <-.
    eexists img, data, _. split; [done|]. split; [done|]. split; [exact Hfs|].
    rewrite bool_decide_eq_false_2 by done. cbn.
    repeat split; try done.
    intros Hlen. f_equal. rewrite length_replicate, length_fmap, Hlen.
    rewrite firstn_all2 by (rewrite length_fmap; lia).
    rewrite skipn_all2 by (rewrite length_replicate; lia).
    by rewrite List.app_nil_r.
  - injection Hc as <-.
    eexists img, data', _. split; [done|]. split; [done|]. split; [exact Hfs|].
    rewrite bool_decide_eq_true_2 by done. cbn.
    repeat split; try done.
    intros Hlen. f_equal. rewrite length_replicate, Hlen.
    rewrite firstn_all2 by lia.
    rewrite skipn_all2 by (rewrite length_replicate; lia).
    by rewrite List.app_nil_r.
Qed.

Lemma prepare_image_strips_metadata_witness :
  ∃ f img,
    (prepare_image "cover.png" None rgb_cover).1 !! "cover.png" = Some f
    ∧ f_image f = Some img ∧ im_info img = [].
Proof.
  destruct (returned_ret (prepare_image "cover.png" None rgb_cover).2) as [p Hp];
    [vm_compute; reflexivity|].
  destruct (prepare_image_strips_metadata "cover.png" None rgb_cover
              (prepare_image "cover.png" None rgb_cover).1 p)
    as (img & data & clean & _ & _ & Hfs & _ & Hinfo & _).
  - rewrite <- Hp. apply surjective_pairing.
  - assert (p = "cover.png") as ->.
    { vm_compute in Hp. by injection Hp as <-. }
    rewrite Hfs. change (realpath "cover.png") with "cover.png".
    rewrite lookup_insert_eq. eexists _, _. split; [reflexivity|]. by split.
Defined.

Section hide_outcomes.
Context `{FileSystem} `{Pillow} `{Stegano}.

Lemma io_bind_raise {A B} (m : io A) (f : A → io B) fs fs' e :
  (m ≫= f) fs = (fs', Raise e) →
  m fs = (fs', Raise e) ∨ ∃ a fs1, m fs = (fs1, Ret a) ∧ f a fs1 = (fs', Raise e).
Proof.
  unfold mbind, io_bind. destruct (m fs) as [fs1 [a|e1]]; [eauto|]. intros [= -> ->]. by left.
Qed.

Lemma io_read_raise {A} (f : gmap string file → outcome A) fs fs' e :
  io_read f fs = (fs', Raise e) → fs' = fs.
Proof. unfold io_read. by intros [= -> _]. Qed.

Lemma io_pure_raise {A} (r : outcome A) fs fs' e :
  io_pure r fs = (fs', Raise e) → fs' = fs ∧ r = Raise e.
Proof. unfold io_pure. by intros [= -> ->]. Qed.

Lemma io_write_raise f fs fs' e : io_write f fs = (fs', Raise e) → fs' = fs.
Proof. unfold io_write. destruct (f fs); by intros [= ->]. Qed.

(** The statistics of a cover that passed validation. *)
Lemma validate_image_valid_stats fs path msg stats :
  validate_image fs path = Ret (true, msg, stats) →
  ∃ img size capacity,
    Image_open fs path = Ret img
    ∧ os_path_getsize fs path = Ret size
    ∧ calculate_capacity fs path = Ret capacity
    ∧ 100 ≤ im_width img ∧ 100 ≤ im_height img
    ∧ 3550 ≤ capacity
    ∧ stats = <["capacity_kb" := VFloat capacity 1024]>
                (<["capacity_bytes" := VInt capacity]> (base_stats img size)).
Proof.
  intros Hv.
  destruct (fs !! realpath path) as [f|] eqn:Hf;
    [|by rewrite validate_image_missing in Hv].
  destruct (Image_open fs path) as [img|e] eqn:Hopen;
    [|rewrite (validate_image_undecodable fs path e) in Hv; [done|by rewrite Hf|done]].
  destruct (validate_image_opened fs path img Hopen)
    as (size & Hsize & [(_ & m & Hr)|[(_ & _ & m & Hr)|(_ & Hw & Hh & [(e & _ & Hr)|(c & m & Hc & Hr)])]]);
    rewrite Hr in Hv; try done.
  injection Hv as _ _ <-.
  exists img, size, c. repeat split; try done.
  destruct (calculate_capacity_ret fs path c Hc) as (img' & Hopen' & ->).
  assert (img' = img) as -> by congruence.
  pose proof (channelsPerPixel_bounds img) as Hch.
  assert (30000 ≤ im_width img * im_height img * channelsPerPixel img) by nia.
  assert (3750 ≤ im_width img * im_height img * channelsPerPixel img / 8)
    by (apply Z.div_le_lower_bound; lia).
  lia.
Qed.

End hide_outcomes.

(** X19: when [hide] raises, the output file is as it was before the
    call: a failed run leaves no stego image behind.  This needs that
    the output file is not the file of the prepared copy
    [Path(cover).with_suffix('.png')], and that the system lets the copy
    be removed when it is a file of its own. *)
Theorem hide_raises_no_output `{FileSystem} `{Pillow} `{Stegano}
    cover_path secret_data output_path fs fs' e :
  hide cover_path secret_data output_path fs = (fs', Raise e) →
  (∀ prepared_path,
     with_suffix_png cover_path = Ret prepared_path →
     realpath prepared_path ≠ realpath output_path
     ∧ (prepared_path ≠ cover_path → refuses_remove prepared_path = None)) →
  fs' !! realpath output_path = fs !! realpath output_path.
Proof.
  intros Hh Hpaths.
  assert (∀ prepared_path, with_suffix_png cover_path = Ret prepared_path →
                           realpath prepared_path ≠ realpath output_path) as Hne.
  { intros q Hq. by apply Hpaths. }
  unfold hide in Hh.
  apply io_bind_raise in Hh as [Hh|([[is_valid msg] stats] & fs0 & Hv & Hh)].
  { by apply io_read_raise in Hh as ->. }
  apply io_read_ret in Hv as [-> Hv].
  destruct is_valid; cbn [negb] in Hh; [|by injection Hh as ->].
  apply validate_image_valid_stats in Hv
    as (img & size & c & Hopen & _ & Hcap & _ & _ & Hbig & ->).
  apply io_bind_raise in Hh as [Hh|(capacity & fs0 & Hc & Hh)].
  { by apply io_pure_raise in Hh as [-> _]. }
  apply io_pure_ret in Hc as [-> Hc].
  destruct (capacity <? _); [by injection Hh as ->|].
  apply io_bind_raise in Hh as [Hh|(prepared_path & fs1 & Hp & Hh)].
  { by apply (prepare_image_preserves (realpath output_path) cover_path Hne) in Hh. }
  pose proof (prepare_image_path _ _ _ _ Hp) as Hpath.
  destruct (Hpaths prepared_path Hpath) as [Hpo Hrm].
  pose proof (prepare_image_is_some _ _ _ _ Hp) as Hprep.
  apply (prepare_image_preserves (realpath output_path) cover_path Hne) in Hp.
  apply io_bind_raise in Hh as [Hh|(stego_img & fs0 & Hs & Hh)].
  { by apply io_read_raise in Hh as ->. }
  apply io_read_ret in Hs as [-> Hs].
  apply io_bind_raise in Hh as [Hh|([] & fs2 & Hsave & Hh)].
  { by apply io_write_raise in Hh as ->. }
  exfalso.
  apply io_write_ret, Image_save_ret in Hsave. subst fs2.
  apply io_bind_raise in Hh as [Hh|([] & fs3 & Hrem & Hh)].
  { unfold io_write in Hh.
    destruct (bool_decide _ && _) eqn:Hb; [|done].
    apply andb_true_iff in Hb as [Hb Hex]. apply bool_decide_eq_true in Hb.
    apply os_path_exists_true in Hex as [f Hex].
    unfold os_remove in Hh. by rewrite Hex, (Hrm Hb) in Hh. }
  apply io_write_ret in Hrem.
  assert (is_Some (fs3 !! realpath output_path)) as [f Hout].
  { destruct (bool_decide _ && _).
    - unfold os_remove in Hrem. destruct (_ !! realpath prepared_path); [|done].
      destruct (refuses_remove prepared_path); [done|].
      injection Hrem as <-. rewrite lookup_delete_ne by done.
      rewrite lookup_insert_eq. eauto.
    - injection Hrem as <-. rewrite lookup_insert_eq. eauto. }
  unfold stats_int, stats_item, base_stats in *.
  apply io_bind_raise in Hh as [Hh|(size_kb & fs0 & Hkb & Hh)].
  { apply io_pure_raise in Hh as [_ Hh]. by simplify_map_eq. }
  apply io_pure_ret in Hkb as [-> _].
  apply io_bind_raise in Hh as [Hh|(stego_size & fs0 & Hsz & Hh)].
  { unfold io_read, os_path_getsize in Hh. by rewrite Hout in Hh. }
  apply io_read_ret in Hsz as [-> _].
  apply io_bind_raise in Hh as [Hh|(width & fs0 & Hw & Hh)].
  { apply io_pure_raise in Hh as [_ Hh]. by simplify_map_eq. }
  apply io_pure_ret in Hw as [-> _].
  apply io_bind_raise in Hh as [Hh|(height & fs0 & Hht & Hh)].
  { apply io_pure_raise in Hh as [_ Hh]. by simplify_map_eq. }
  apply io_pure_ret in Hht as [-> _].
  apply io_bind_raise in Hh as [Hh|(format & fs0 & Hf & Hh)].
  { apply io_pure_raise in Hh as [_ Hh]. by simplify_map_eq. }
  done.
Qed.

Lemma hide_raises_no_output_witness :
  (hide "cover.png" payload_4800 "out.png" rgba_cover).1 !! realpath "out.png"
  = rgba_cover !! realpath "out.png".
Proof.
  apply (hide_raises_no_output "cover.png" payload_4800 "out.png" rgba_cover
           (hide "cover.png" payload_4800 "out.png" rgba_cover).1
           (Exn Exception "The message you want to hide is too long: 4800")).
  - rewrite (surjective_pairing (hide _ _ _ _)).
    apply (f_equal (pair _)). vm_compute. reflexivity.
  - intros prepared_path Hp. vm_compute in Hp. injection Hp as <-.
    split; [vm_compute; discriminate|done].
Defined.

Section hide_outcomes2.
Context `{FileSystem} `{Pillow} `{Stegano}.

Lemma hide_ret_stats cover_path secret_data output_path fs fs' st :
  hide cover_path secret_data output_path fs = (fs', Ret st) →
  ∃ msg stats capacity size_kb stego_size width height format,
    validate_image fs cover_path = Ret (true, msg, stats)
    ∧ stats_int stats "capacity_bytes" = Ret capacity
    ∧ Z.of_nat (List.length (utf8_encode secret_data)) ≤ capacity
    ∧ stats_item stats "size_kb" = Ret size_kb
    ∧ os_path_getsize fs' output_path = Ret stego_size
    ∧ stats_int stats "width" = Ret width
    ∧ stats_int stats "height" = Ret height
    ∧ stats_item stats "format" = Ret format
    ∧ st = <["format" := format]>
           (<["dimensions" := VStr (str_int width +:+ "x" +:+ str_int height)]>
           (<["capacity_used_percent" :=
                VPercent (Z.of_nat (List.length (utf8_encode secret_data))) capacity]>
           (<["payload_kb" := VFloat (Z.of_nat (List.length (utf8_encode secret_data))) 1024]>
           (<["payload_bytes" := VInt (Z.of_nat (List.length (utf8_encode secret_data)))]>
           (<["stego_size_kb" := VFloat stego_size 1024]>
           (<["cover_size_kb" := size_kb]> ∅)))))).
Proof.
  unfold hide. intros Hh.
  apply io_bind_ret in Hh as ([[is_valid msg] stats] & fs0 & Hv & Hh).
  apply io_read_ret in Hv as [-> Hv].
  destruct is_valid; [|done]. cbn [negb] in Hh.
  apply io_bind_ret in Hh as (capacity & fs0 & Hc & Hh).
  apply io_pure_ret in Hc as [-> Hc].
  destruct (capacity <? _) eqn:Hcap; [done|]. apply Z.ltb_ge in Hcap.
  apply io_bind_ret in Hh as (prepared_path & fs1 & Hp & Hh).
  apply io_bind_ret in Hh as (stego_img & fs0 & Hs & Hh).
  apply io_read_ret in Hs as [-> Hs].
  apply io_bind_ret in Hh as ([] & fs2 & Hsave & Hh).
  apply io_bind_ret in Hh as ([] & fs3 & Hrm & Hh).
  apply io_bind_ret in Hh as (size_kb & fs0 & Hkb & Hh).
  apply io_pure_ret in Hkb as [-> Hkb].
  apply io_bind_ret in Hh as (stego_size & fs0 & Hsz & Hh).
  apply io_read_ret in Hsz as [-> Hsz].
  apply io_bind_ret in Hh as (width & fs0 & Hw & Hh).
  apply io_pure_ret in Hw as [-> Hw].
  apply io_bind_ret in Hh as (height & fs0 & Hht & Hh).
  apply io_pure_ret in Hht as [-> Hht].
  apply io_bind_ret in Hh as (format & fs0 & Hf & Hh).
  apply io_pure_ret in Hf as [-> Hf].
  injection Hh as -> <-.
  exists msg, stats, capacity, size_kb, stego_size, width, height, format.
  repeat split; done.
Qed.

End hide_outcomes2.

(** X20: the statistics [hide] returns: the payload size in bytes, which
    is at most the capacity; the capacity, which is at least 3550, so
    that the percentage used is well defined and at most 100; the size
    of the file at the output path; the dimensions and the format of the
    cover. *)
Theorem hide_statistics `{FileSystem} `{Pillow} `{Stegano}
    cover_path secret_data output_path fs fs' st :
  hide cover_path secret_data output_path fs = (fs', Ret st) →
  ∃ img capacity stego,
    Image_open fs cover_path = Ret img
    ∧ calculate_capacity fs cover_path = Ret capacity
    ∧ fs' !! realpath output_path = Some stego
    ∧ 0 ≤ Z.of_nat (List.length (utf8_encode secret_data)) ≤ capacity
    ∧ 3550 ≤ capacity
    ∧ st !! "payload_bytes" = Some (VInt (Z.of_nat (List.length (utf8_encode secret_data))))
    ∧ st !! "capacity_used_percent"
      = Some (VPercent (Z.of_nat (List.length (utf8_encode secret_data))) capacity)
    ∧ st !! "stego_size_kb" = Some (VFloat (f_size stego) 1024)
    ∧ st !! "dimensions"
      = Some (VStr (str_int (im_width img) +:+ "x" +:+ str_int (im_height img)))
    ∧ st !! "format" = Some (VStr (format_name img)).
Proof.
  intros Hh. apply hide_ret_stats in Hh
    as (msg & stats & capacity & size_kb & stego_size & width & height & format
        & Hv & Hc & Hle & Hkb & Hsz & Hw & Hht & Hf & ->).
  apply validate_image_valid_stats in Hv
    as (img & size & c & Hopen & _ & Hcap & _ & _ & Hbig & ->).
  unfold stats_int, stats_item, base_stats in *.
  simplify_map_eq.
  unfold os_path_getsize in Hsz.
  destruct (fs' !! realpath output_path) as [stego|] eqn:Hout; [|done].
  injection Hsz as <-.
  exists img, capacity, stego. repeat split; try done; lia.
Qed.

Lemma hide_statistics_witness :
  ∃ st,
    (hide "cover.png" "hello" "out.png" rgb_cover).2 = Ret st
    ∧ st !! "capacity_used_percent" = Some (VPercent 5 3550).
Proof.
  destruct (returned_ret (hide "cover.png" "hello" "out.png" rgb_cover).2) as [st Hst];
    [vm_compute; reflexivity|].
  exists st. split; [exact Hst|].
  destruct (hide_statistics "cover.png" "hello" "out.png" rgb_cover
              (hide "cover.png" "hello" "out.png" rgb_cover).1 st)
    as (img & capacity & stego & _ & Hcap & _ & _ & _ & _ & Hpct & _).
  - rewrite <- Hst. apply surjective_pairing.
  - rewrite Hpct. vm_compute in Hcap. injection Hcap as <-. reflexivity.
Defined.

(** * Encrypting, hiding, revealing, decrypting *)

Lemma b2a_base64_nonempty b : b ≠ [] → b2a_base64 b ≠ [].
Proof. destruct b as [|x [|y [|z b]]]; done. Qed.

Lemma utf8_encode_nonempty c s : utf8_encode (String c s) ≠ [].
Proof.
  unfold utf8_encode. cbn. unfold utf8_char. by destruct (_ <? _)%N.
Qed.

Lemma create_bundle_string_nonempty b s :
  CryptoEngine.create_bundle_string b = Ret s → s ≠ "".
Proof.
  rewrite create_bundle_string_ret. intros Hret Hs. subst s.
  assert (b2a_base64 (utf8_encode (json_dumps b false "," ":")) = []) as Hnil.
  { injection Hret as Hret. apply (f_equal list_ascii_of_string) in Hret.
    by rewrite list_ascii_of_string_of_list_ascii in Hret. }
  apply b2a_base64_nonempty in Hnil; [done|].
  unfold json_dumps. cbn [string_of_list_ascii]. apply utf8_encode_nonempty.
Qed.

(** X21: the two pages end to end.  What [quick_encrypt] returns under
    a 32-byte key, once [hide] has embedded it in a cover, is recovered
    by [reveal] from the output file, and [quick_decrypt] under the same
    key returns the original data and the authenticated metadata. *)
Theorem hide_reveal_decrypt `{FileSystem} `{Pillow} `{Stegano} `{!SteganoContract}
    `{Cryptography} `{!CryptographyContract}
    key data metadata w w' bundle_str cover_path output_path fs fs' st :
  List.length key = 32%nat → heap_ok w →
  quick_encrypt key data metadata w = (w', Ret bundle_str) →
  hide cover_path bundle_str output_path fs = (fs', Ret st) →
  (encrypted_bundle ← StegoEngine.reveal fs' output_path;
   quick_decrypt key encrypted_bundle)
  = Ret (data, merge_sort key_le (merged_metadata (engine_of key) data metadata w)).
Proof.
  intros Hkey Hok Henc Hhide.
  unfold quick_encrypt in Henc. rewrite init_32 in Henc by done.
  fold (engine_of key) in Henc. rewrite encrypt_returns in Henc.
  injection Henc as _ Hstr.
  pose proof (create_bundle_string_nonempty _ _ Hstr) as Hne.
  assert (StegoEngine.reveal fs' output_path = Ret bundle_str) as ->
    by (by apply (reveal_after_hide cover_path _ _ fs fs' st)).
  rewrite outcome_bind_ret. unfold quick_decrypt.
  rewrite init_32 by done. fold (engine_of key). rewrite outcome_bind_ret.
  destruct (parse_create_bundle_string (encrypted_bundle (engine_of key) data metadata w))
    as (s & Hs & Hp).
  { unfold encrypted_bundle. rewrite bundle_of_keys.
    apply (bool_decide_unpack (NoDup bundle_keys)). by vm_compute. }
  assert (s = bundle_str) as -> by congruence.
  rewrite Hp, outcome_bind_ret. by apply decrypt_encrypted.
Qed.

Lemma hide_reveal_decrypt_witness :
  (encrypted_bundle ←
     StegoEngine.reveal (hide "cover.png" sample_transport "out.png" rgb_cover).1 "out.png";
   quick_decrypt key_1_32 encrypted_bundle)
  = Ret (sample_plaintext,
         merge_sort key_le
           (merged_metadata (engine_of key_1_32) sample_plaintext (Some 1%positive)
              sample_world)).
Proof.
  destruct (returned_ret (hide "cover.png" sample_transport "out.png" rgb_cover).2)
    as [st Hst]; [vm_compute; reflexivity|].
  apply (hide_reveal_decrypt key_1_32 sample_plaintext (Some 1%positive) sample_world
           (quick_encrypt key_1_32 sample_plaintext (Some 1%positive) sample_world).1
           sample_transport "cover.png" "out.png" rgb_cover _ st).
  - reflexivity.
  - exact sample_world_ok.
  - rewrite (surjective_pairing (quick_encrypt _ _ _ _)).
    apply (f_equal (pair _)). vm_compute. reflexivity.
  - rewrite <- Hst. apply surjective_pairing.
Defined.

(** * The round trip through [hide] and [reveal], under the reference codec *)

Module SteganoRefCapacity.
Import SteganoRef StegoEngine.

Lemma a2bits_length s : List.length (a2bits s) = (8 * List.length s)%nat.
Proof.
  unfold a2bits. induction s as [|c s IH]; [done|]. cbn [flat_map].
  rewrite length_app, IH. destruct c. cbn. lia.
Qed.

Lemma message_bits_length msg :
  ∃ k, List.length (message_bits msg) = (3 * k)%nat
       ∧ (3 * k ≤ 8 * (List.length (str_nat (String.length msg)) + 1 + String.length msg) + 2)%nat.
Proof.
  unfold message_bits. rewrite length_app, length_replicate, a2bits_length.
  rewrite length_app. cbn [List.length].
  assert (List.length (list_ascii_of_string msg) = String.length msg) as ->.
  { induction msg as [|c msg IH]; cbn; [done|]. by rewrite IH. }
  set (n := (8 * (List.length (str_nat (String.length msg)) + S (String.length msg)))%nat).
  replace (8 * (List.length (str_nat (String.length msg)) + 1 + String.length msg) + 2)%nat
    with (n + 2)%nat by (unfold n; lia).
  clearbody n.
  pose proof (Nat.mod_upper_bound n 3 ltac:(done)) as Hm.
  pose proof (Nat.div_mod_eq n 3) as Hd.
  destruct (Nat.modulo n 3) as [|[|[|?]]] eqn:Hr; [| | |lia].
  - exists (Nat.div n 3). change (Nat.modulo (3 - 0) 3) with 0%nat. lia.
  - exists (S (Nat.div n 3)). change (Nat.modulo (3 - 1) 3) with 2%nat. lia.
  - exists (S (Nat.div n 3)). change (Nat.modulo (3 - 2) 3) with 1%nat. lia.
Qed.

Lemma embed_is_Some k : ∀ bits px,
  List.length bits = (3 * k)%nat → (k ≤ List.length px)%nat →
  Forall (λ p : pixel, (3 ≤ List.length p)%nat) px →
  is_Some (embed bits px).
Proof.
  induction k as [|k IH]; intros bits px Hb Hp Hpx.
  - destruct bits; [|done]. cbn. eauto.
  - destruct bits as [|b0 [|b1 [|b2 bits]]]; try (cbn in Hb; lia).
    destruct px as [|p px]; [cbn in Hp; lia|].
    apply Forall_cons in Hpx as [Hp3 Hpx].
    destruct p as [|r [|g [|b a]]]; try (cbn in Hp3; lia).
    cbn [embed]. destruct (IH bits px) as [px' ->]; [cbn in Hb; lia|cbn in Hp; lia|done|].
    eauto.
Qed.

End SteganoRefCapacity.

Section hide_runs.
Context `{FileSystem} `{Pillow}.

Lemma io_bind_run {A B} (m : io A) (f : A → io B) fs fs1 a :
  m fs = (fs1, Ret a) → (m ≫= f) fs = f a fs1.
Proof. intros Hm. unfold mbind, io_bind. by rewrite Hm. Qed.

Lemma chars_le_utf8 s : (String.length s ≤ List.length (utf8_encode s))%nat.
Proof.
  unfold utf8_encode. induction s as [|c s IH]; [done|].
  change (list_ascii_of_string (String c s)) with (c :: list_ascii_of_string s).
  change (String.length (String c s)) with (S (String.length s)).
  cbn [flat_map]. rewrite length_app.
  assert (1 ≤ List.length (utf8_char c))%nat
    by (unfold utf8_char; destruct (_ <? _)%N; cbn; lia).
  lia.
Qed.

Lemma embedding_mode_png mode : mode ∈ ["RGB"; "RGBA"] → mode ∈ png_modes.
Proof.
  intros Hm. apply elem_of_cons in Hm as [->|Hm];
    [|apply list_elem_of_singleton in Hm as ->];
    apply (bool_decide_unpack _); by vm_compute.
Qed.

Lemma embedding_mode_bands mode : mode ∈ ["RGB"; "RGBA"] → (3 ≤ mode_bands mode)%nat.
Proof.
  intros Hm. apply elem_of_cons in Hm as [->|Hm];
    [|apply list_elem_of_singleton in Hm as ->];
    apply (bool_decide_unpack _); by vm_compute.
Qed.

(** The pixels of a new RGB or RGBA image after [putdata]: as many as
    the image has, each of three channels at least when those put have
    the channels of the mode. *)
Lemma putdata_new mode w h (data : list pixel) :
  mode ∈ ["RGB"; "RGBA"] →
  Forall (λ p : pixel, List.length p = mode_bands mode) data →
  ∃ px, Image_putdata (Image_new mode w h) data
        = {| im_format := None; im_mode := mode; im_width := w; im_height := h;
             im_data := Some px; im_info := [] |}
        ∧ List.length px = Z.to_nat (w * h)
        ∧ Forall (λ p : pixel, (3 ≤ List.length p)%nat) px.
Proof.
  intros Hmode Hdata. pose proof (embedding_mode_bands mode Hmode) as Hb.
  unfold Image_putdata, Image_new. cbn [im_data default im_format im_mode
    im_width im_height im_info]. unfold id. eexists. split; [reflexivity|]. split.
  - generalize (Z.to_nat (w * h)). intros n.
    rewrite length_app, length_take, length_drop, !length_replicate. lia.
  - apply Forall_app. split.
    + apply Forall_take. eapply Forall_impl; [exact Hdata|]. intros p ->. done.
    + apply Forall_drop, Forall_replicate. by rewrite length_replicate.
Qed.

End hide_runs.

Section round_trip.
Context `{FileSystem} `{Pillow} `{!PillowContract}.

(** The copy [prepare_image] makes of a cover whose pixels load: an RGB
    image, or an RGBA image when the cover is one, of the same
    dimensions with all its pixels. *)
Lemma prepare_image_clean cover_path fs img pixels prepared_path :
  Image_open fs cover_path = Ret img →
  im_data img = Some pixels →
  (im_mode img ∈ ["RGB"; "RGBA"] →
   Forall (λ p : pixel, List.length p = mode_bands (im_mode img)) pixels) →
  with_suffix_png cover_path = Ret prepared_path →
  refuses_write prepared_path = None →
  ∃ mode px,
    mode ∈ ["RGB"; "RGBA"]
    ∧ List.length px = Z.to_nat (im_width img * im_height img)
    ∧ Forall (λ p : pixel, (3 ≤ List.length p)%nat) px
    ∧ prepare_image cover_path None fs
      = (<[realpath prepared_path :=
             {| f_size := png_size {| im_format := None; im_mode := mode;
                                      im_width := im_width img; im_height := im_height img;
                                      im_data := Some px; im_info := [] |};
                f_image := Some {| im_format := Some "PNG"; im_mode := mode;
                                   im_width := im_width img; im_height := im_height img;
                                   im_data := Some px; im_info := [] |} |}]> fs,
         Ret prepared_path).
Proof.
  intros Hopen Hdata Hpx Hprep Hw.
  set (mode := if bool_decide (im_mode img ∉ ["RGB"; "RGBA"]) then "RGB" else im_mode img).
  set (data := if bool_decide (im_mode img ∉ ["RGB"; "RGBA"])
               then convert_pixel (im_mode img) "RGB" <$> pixels else pixels).
  assert (mode ∈ ["RGB"; "RGBA"]) as Hmode.
  { unfold mode. case_bool_decide as Hm; [left|done]. }
  assert (Forall (λ p : pixel, List.length p = mode_bands mode) data) as Hbands.
  { unfold data, mode. case_bool_decide as Hm.
    - apply Forall_fmap, Forall_forall. intros p _. cbn. rewrite convert_rgb_bands.
      by apply (bool_decide_unpack _).
    - by apply Hpx. }
  destruct (putdata_new mode (im_width img) (im_height img) data Hmode Hbands)
    as (px & Hput & Hlen & Hall).
  exists mode, px. split; [done|]. split; [done|]. split; [done|].
  assert (∃ img1, (if bool_decide (im_mode img ∉ ["RGB"; "RGBA"])
                   then Image_convert img "RGB" else Ret img) = Ret img1
                  ∧ im_mode img1 = mode ∧ im_width img1 = im_width img
                  ∧ im_height img1 = im_height img ∧ Image_load img1 = Ret data)
    as (img1 & Hconv & Hm1 & Hw1 & Hh1 & Hload).
  { unfold data, mode. case_bool_decide as Hm.
    - unfold Image_convert, Image_load. rewrite Hdata. cbn. eexists. split; [reflexivity|].
      done.
    - exists img. split; [done|]. unfold Image_load. by rewrite Hdata. }
  unfold prepare_image.
  rewrite (io_bind_run _ _ fs fs img) by (unfold io_read; by rewrite Hopen).
  rewrite (io_bind_run _ _ fs fs img1) by (unfold io_pure; by rewrite Hconv).
  rewrite (io_bind_run _ _ fs fs data) by (unfold io_pure; by rewrite Hload).
  rewrite (io_bind_run _ _ fs fs prepared_path) by (unfold io_pure; by rewrite Hprep).
  rewrite Hm1, Hw1, Hh1, Hput.
  erewrite io_bind_run; [reflexivity|].
  unfold io_write, Image_save, Image_load. cbn. rewrite Hw.
  by rewrite bool_decide_eq_true_2 by by apply embedding_mode_png.
Qed.

(** [hide] runs to its end for a payload within the capacity, and, on
    an RGBA cover, within the capacity counted over three channels. *)
Lemma hide_returns cover_path secret_data output_path fs img pixels capacity prepared_path :
  verdict (validate_image fs cover_path) = Some true →
  Image_open fs cover_path = Ret img →
  im_data img = Some pixels →
  (im_mode img ∈ ["RGB"; "RGBA"] →
   Forall (λ p : pixel, List.length p = mode_bands (im_mode img)) pixels) →
  calculate_capacity fs cover_path = Ret capacity →
  secret_data ≠ "" →
  Z.of_nat (List.length (utf8_encode secret_data)) ≤ capacity →
  (im_mode img = "RGBA" →
   Z.of_nat (List.length (utf8_encode secret_data))
   ≤ im_width img * im_height img * 3 / 8 - 200) →
  (List.length (SteganoRef.str_nat (String.length secret_data)) ≤ 198)%nat →
  with_suffix_png cover_path = Ret prepared_path →
  prepared_path = cover_path ∨ realpath output_path ≠ realpath prepared_path →
  refuses_write prepared_path = None →
  refuses_write output_path = None →
  (prepared_path ≠ cover_path → refuses_remove prepared_path = None) →
  ∃ fs' st, hide cover_path secret_data output_path fs = (fs', Ret st).
Proof.
  intros Hvalid Hopen Hdata Hpx Hcapacity Hne Hsize Hrgba Hdigits Hprep Hpaths Hwp Hwo Hrm.
  destruct (validate_image fs cover_path) as [[[ok msg] stats]|] eqn:Hv; [|done].
  injection Hvalid as ->.
  destruct (validate_image_valid_stats fs cover_path msg stats Hv)
    as (img' & size & capacity' & Hopen' & Hsz & Hcap & Hw & Hh & Hbig & Hstats).
  assert (img' = img) as -> by congruence.
  assert (capacity' = capacity) as -> by congruence.
  assert (Z.of_nat (List.length (utf8_encode secret_data))
          ≤ im_width img * im_height img * 3 / 8 - 200) as Hthree.
  { destruct (decide (im_mode img = "RGBA")) as [Hm|Hm]; [by apply Hrgba|].
    destruct (calculate_capacity_ret fs cover_path capacity Hcap) as (img' & Hopen'' & Hc).
    assert (img' = img) as -> by congruence.
    unfold channelsPerPixel in Hc. rewrite bool_decide_eq_false_2 in Hc by done. lia. }
  destruct (prepare_image_clean cover_path fs img pixels prepared_path)
    as (mode & px & Hmode & Hlen & Hall & Hrun); try done.
  set (clean := {| im_format := Some "PNG"; im_mode := mode; im_width := im_width img;
                   im_height := im_height img; im_data := Some px; im_info := [] |}) in *.
  set (fs1 := <[realpath prepared_path := _]> fs) in Hrun.
  (* the embedding *)
  destruct (SteganoRefCapacity.message_bits_length secret_data) as (k & Hk & Hkle).
  pose proof (chars_le_utf8 secret_data) as Hchars.
  assert (k ≤ List.length px)%nat as Hkpx.
  { rewrite Hlen.
    assert (0 ≤ im_width img * im_height img) by nia.
    pose proof (Z.mul_div_le (im_width img * im_height img * 3) 8 ltac:(lia)).
    lia. }
  destruct (SteganoRefCapacity.embed_is_Some k (SteganoRef.message_bits secret_data) px)
    as [px' Hembed]; [done|done|done|].
  set (stego := {| im_format := None; im_mode := mode; im_width := im_width img;
                   im_height := im_height img; im_data := Some px';
                   im_info := [] |}).
  assert (lsb_hide clean secret_data = Ret stego) as Hhide.
  { cbn. unfold SteganoRef.hide_lsb.
    rewrite bool_decide_eq_false_2 by (destruct secret_data; [done|cbn; lia]).
    rewrite bool_decide_eq_false_2 by (cbn; intros Hn; by apply Hn).
    cbn. rewrite Hk.
    destruct (_ <? _) eqn:Hlt; [apply Z.ltb_lt in Hlt; lia|].
    by rewrite Hembed. }
  set (fs2 := <[realpath output_path := {| f_size := png_size stego;
                                           f_image := Some (png_reload stego) |}]> fs1).
  unfold hide.
  rewrite (io_bind_run _ _ fs fs (true, msg, stats)) by (unfold io_read; by rewrite Hv).
  cbn [negb].
  rewrite (io_bind_run _ _ fs fs capacity).
  2:{ unfold io_pure, stats_int. rewrite Hstats. by simplify_map_eq. }
  destruct (capacity <? _) eqn:Hlt; [apply Z.ltb_lt in Hlt; lia|].
  rewrite (io_bind_run _ _ fs fs1 prepared_path Hrun).
  rewrite (io_bind_run _ _ fs1 fs1 stego).
  2:{ unfold io_read, Image_open, fs1. rewrite lookup_insert_eq. cbn [f_image].
      rewrite outcome_bind_ret. by rewrite Hhide. }
  rewrite (io_bind_run _ _ fs1 fs2 ()).
  2:{ unfold io_write, Image_save, Image_load. cbn. rewrite Hwo.
      by rewrite bool_decide_eq_true_2 by by apply embedding_mode_png. }
  set (fs3 := if bool_decide (prepared_path ≠ cover_path) && os_path_exists fs2 prepared_path
              then delete (realpath prepared_path) fs2 else fs2).
  rewrite (io_bind_run _ _ fs2 fs3 ()).
  2:{ unfold io_write, fs3. destruct (bool_decide _ && _) eqn:Hb; [|done].
      apply andb_true_iff in Hb as [Hb Hex]. apply bool_decide_eq_true in Hb.
      apply os_path_exists_true in Hex as [f Hf].
      unfold os_remove. by rewrite Hf, (Hrm Hb). }
  assert (fs3 !! realpath output_path
          = Some {| f_size := png_size stego; f_image := Some (png_reload stego) |}) as Hout.
  { unfold fs3. destruct (bool_decide _ && _) eqn:Hb.
    - apply andb_true_iff in Hb as [Hb _]. apply bool_decide_eq_true in Hb.
      destruct Hpaths as [?|Hpo]; [done|].
      rewrite lookup_delete_ne by done. apply lookup_insert_eq.
    - apply lookup_insert_eq. }
  assert (stats_item stats "size_kb" = Ret (VFloat size 1024)
          ∧ stats_int stats "width" = Ret (im_width img)
          ∧ stats_int stats "height" = Ret (im_height img)
          ∧ stats_item stats "format" = Ret (VStr (format_name img)))
    as (Hkb & Hwd & Hht & Hfmt).
  { rewrite Hstats. unfold stats_item, stats_int, base_stats. by simplify_map_eq. }
  rewrite (io_bind_run _ _ fs3 fs3 (VFloat size 1024)) by (unfold io_pure; by rewrite Hkb).
  rewrite (io_bind_run _ _ fs3 fs3 (png_size stego))
    by (unfold io_read, os_path_getsize; by rewrite Hout).
  rewrite (io_bind_run _ _ fs3 fs3 (im_width img)) by (unfold io_pure; by rewrite Hwd).
  rewrite (io_bind_run _ _ fs3 fs3 (im_height img)) by (unfold io_pure; by rewrite Hht).
  rewrite (io_bind_run _ _ fs3 fs3 (VStr (format_name img)))
    by (unfold io_pure; by rewrite Hfmt).
  eauto.
Qed.

End round_trip.

(** C1, amended: for a cover that passes [validate_image] and whose
    pixels load, and a payload that is not empty, within the capacity,
    on an RGBA cover within the capacity counted over three channels
    ([width * height * 3 // 8 - 200]), and shorter than 10^198
    characters, [hide] returns and [reveal] on the output file returns
    exactly the payload, provided the system lets the prepared copy and
    the output be written (and the copy removed), and the output is not
    the file of the prepared copy.  The embedding is that of the
    reference codec. *)
Theorem reveal_hide `{FileSystem} `{Pillow} `{!PillowContract}
    cover_path secret_data output_path fs img pixels capacity prepared_path :
  verdict (validate_image fs cover_path) = Some true →
  Image_open fs cover_path = Ret img →
  im_data img = Some pixels →
  (im_mode img ∈ ["RGB"; "RGBA"] →
   Forall (λ p : pixel, List.length p = mode_bands (im_mode img)) pixels) →
  calculate_capacity fs cover_path = Ret capacity →
  secret_data ≠ "" →
  Z.of_nat (List.length (utf8_encode secret_data)) ≤ capacity →
  (im_mode img = "RGBA" →
   Z.of_nat (List.length (utf8_encode secret_data))
   ≤ im_width img * im_height img * 3 / 8 - 200) →
  (List.length (SteganoRef.str_nat (String.length secret_data)) ≤ 198)%nat →
  with_suffix_png cover_path = Ret prepared_path →
  prepared_path = cover_path ∨ realpath output_path ≠ realpath prepared_path →
  refuses_write prepared_path = None →
  refuses_write output_path = None →
  (prepared_path ≠ cover_path → refuses_remove prepared_path = None) →
  ∃ fs' st,
    hide cover_path secret_data output_path fs = (fs', Ret st)
    ∧ reveal fs' output_path = Ret secret_data.
Proof.
  intros Hvalid Hopen Hdata Hpx Hcap Hne Hsize Hrgba Hdigits Hprep Hpaths Hwp Hwo Hrm.
  destruct (hide_returns cover_path secret_data output_path fs img pixels capacity
              prepared_path) as (fs' & st & Hh); try done.
  exists fs', st. split; [done|].
  by apply (reveal_after_hide cover_path secret_data output_path fs fs' st).
Qed.

Lemma reveal_hide_witness :
  ∃ fs' st,
    hide "cover.bmp" "hello" "out.png" bmp_cover = (fs', Ret st)
    ∧ reveal fs' "out.png" = Ret "hello".
Proof.
  apply (reveal_hide "cover.bmp" "hello" "out.png" bmp_cover
           {| im_format := Some "BMP"; im_mode := "RGB"; im_width := 100; im_height := 100;
              im_data := Some (replicate (Z.to_nat 10000) [7; 8; 9]); im_info := [] |}
           (replicate (Z.to_nat 10000) [7; 8; 9]) 3550 "cover.png").
  - vm_compute. reflexivity.
  - reflexivity.
  - reflexivity.
  - intros _. apply Forall_replicate. reflexivity.
  - vm_compute. reflexivity.
  - discriminate.
  - vm_compute. discriminate.
  - discriminate.
  - vm_compute. lia.
  - vm_compute. reflexivity.
  - right. vm_compute. discriminate.
  - reflexivity.
  - reflexivity.
  - reflexivity.
Defined.
(** ** The key directory: [load_key], [list_keys], [delete_key] *)

Lemma prefix_app s t : String.prefix s (s +:+ t) = true.
Proof.
  induction s as [|c s IH]; [by destruct t|]. simpl.
  destruct (ascii_dec c c); [exact IH|done].
Qed.

Lemma string_of_list_ascii_app l1 l2 :
  string_of_list_ascii (l1 ++ l2) = string_of_list_ascii l1 +:+ string_of_list_ascii l2.
Proof. induction l1 as [|c l1 IH]; [done|]. cbn [app string_of_list_ascii]. by rewrite IH. Qed.

Lemma string_append_assoc a b c : (a +:+ b) +:+ c = a +:+ (b +:+ c).
Proof.
  induction a as [|x a IH]; [done|].
  change (String x ((a +:+ b) +:+ c) = String x (a +:+ (b +:+ c))). by rewrite IH.
Qed.

Lemma endswith_app name suffix : endswith (name +:+ suffix) suffix = true.
Proof.
  unfold endswith. rewrite list_ascii_of_string_app, rev_app_distr.
  rewrite string_of_list_ascii_app. apply prefix_app.
Qed.

Lemma keys_path_inj n n' : "keys/" +:+ n = "keys/" +:+ n' → n = n'.
Proof.
  intros Heq. apply (f_equal KeyStoreRef.name_in_keys) in Heq.
  change (Some n = Some n') in Heq. by injection Heq.
Qed.

Section key_files_plain.
Context `{Cryptography} `{!HashlibContract}.

Lemma key_filename_plain key name :
  plain_file_name (KeyManager.key_filename name (KeyManager.get_key_fingerprint key))
  ∧ endswith (KeyManager.key_filename name (KeyManager.get_key_fingerprint key)) ".key.json"
    = true.
Proof.
  split; [|unfold KeyManager.key_filename; rewrite <- !string_append_assoc;
           apply endswith_app].
  destruct (fingerprint_hex key) as [Hlen Hhex].
  set (fp := KeyManager.get_key_fingerprint key) in *.
  set (safe := strip (filter (λ c, isalnum c || bool_decide (c ∈ [" "%char; "-"%char; "_"%char]))
                        (list_ascii_of_string name))).
  assert (list_ascii_of_string (KeyManager.key_filename name fp)
          = safe ++ "_"%char :: list_ascii_of_string fp ++ list_ascii_of_string ".key.json")
    as Hchars.
  { unfold KeyManager.key_filename. fold safe.
    rewrite !list_ascii_of_string_app, list_ascii_of_string_of_list_ascii. done. }
  assert (26 ≤ List.length (list_ascii_of_string (KeyManager.key_filename name fp)))%nat
    as Hlong.
  { rewrite Hchars. rewrite length_app. cbn [List.length]. rewrite length_app, Hlen.
    cbn. lia. }
  assert (∀ s, KeyManager.key_filename name fp = s →
               (26 ≤ List.length (list_ascii_of_string s))%nat) as Hs.
  { by intros s <-. }
  repeat split.
  - intros Heq. apply Hs in Heq. cbn in Heq. lia.
  - rewrite Hchars. intros Hin. apply elem_of_app in Hin as [Hin|Hin].
    + unfold safe in Hin.
      assert (Forall (λ c, plain_name_char c = true) safe) as Hsafe.
      { apply Forall_strip. apply Forall_forall. intros c Hc.
        apply list_elem_of_filter in Hc as [Hc _]. unfold plain_name_char.
        by destruct (isalnum c || _). }
      rewrite Forall_forall in Hsafe. by specialize (Hsafe _ Hin).
    + apply elem_of_cons in Hin as [Hin|Hin]; [done|].
      apply elem_of_app in Hin as [Hin|Hin].
      * rewrite Forall_forall in Hhex. by specialize (Hhex _ Hin).
      * cbn in Hin. repeat (apply elem_of_cons in Hin as [Hin|Hin]; [done|]).
        by apply elem_of_nil in Hin.
  - intros Heq. apply Hs in Heq. cbn in Heq. lia.
  - intros Heq. apply Hs in Heq. cbn in Heq. lia.
Qed.

End key_files_plain.

Section key_store_facts.
Context `{Cryptography} `{KeyStore} `{!KeyStoreContract}.

(** Reading and parsing a key file of the store. *)
Lemma read_key_file fs n text :
  plain_file_name n → fs !! ("keys/" +:+ n) = Some text →
  (text ← key_read_text fs (KeyManager.KEYS_DIR +:+ "/" +:+ n); json_loads text)
  = json_loads text.
Proof.
  intros Hn Hf. change (KeyManager.KEYS_DIR +:+ "/" +:+ n) with ("keys/" +:+ n).
  by rewrite (key_read_text_plain fs n text).
Qed.

Lemma saved_key_data_loads key name description w :
  json_loads (json_dumps_indent2 (saved_key_data key name description w))
  = Ret (saved_key_data key name description w).
Proof.
  apply json_loads_dumps_indent2. apply (bool_decide_unpack (NoDup _)). by vm_compute.
Qed.

Lemma save_key_ret key name description w fs :
  KeyManager.save_key key name description w fs
  = (<["keys/" +:+ KeyManager.key_filename name (KeyManager.get_key_fingerprint key)
       := json_dumps_indent2 (saved_key_data key name description w)]> fs,
     Ret ("keys/" +:+ KeyManager.key_filename name (KeyManager.get_key_fingerprint key))).
Proof.
  unfold KeyManager.save_key. rewrite key_to_string_ret.
  rewrite dict_update_empty by (apply (bool_decide_unpack (NoDup _)); by vm_compute).
  reflexivity.
Qed.

Lemma string_to_key_of_saved key name description w :
  List.length key = 32%nat →
  KeyManager.string_to_key_of (saved_key_data key name description w) = Ret key.
Proof.
  intros Hlen. unfold KeyManager.string_to_key_of, saved_key_data. cbn [dict_get].
  rewrite bool_decide_eq_false_2 by done. rewrite bool_decide_eq_false_2 by done.
  rewrite bool_decide_eq_true_2 by done.
  rewrite string_to_key_b64_text. by rewrite bool_decide_eq_true_2.
Qed.

(** The end of [load_key], once the file is found. *)
Lemma load_key_at identifier fs n text key_data :
  plain_file_name n → fs !! ("keys/" +:+ n) = Some text →
  json_loads text = Ret key_data →
  (key_path_exists fs (key_path identifier) = true ∧ key_path identifier = "keys/" +:+ n)
  ∨ (key_path_exists fs (key_path identifier) = false
     ∧ key_path_exists fs (key_path (identifier +:+ ".key.json")) = true
     ∧ key_path (identifier +:+ ".key.json") = "keys/" +:+ n)
  ∨ (key_path_exists fs (key_path identifier) = false
     ∧ key_path_exists fs (key_path (identifier +:+ ".key.json")) = false
     ∧ KeyManager.find_key_file fs identifier (key_glob fs)
         (key_path (identifier +:+ ".key.json")) = Ret ("keys/" +:+ n)) →
  KeyManager.load_key identifier fs
  = (key ← KeyManager.string_to_key_of key_data; Ret (key, key_data)).
Proof.
  intros Hn Hf Hj Hcase.
  assert (key_path_exists fs ("keys/" +:+ n) = true) as Hex.
  { rewrite key_path_exists_plain by done. apply bool_decide_eq_true. eauto. }
  assert ((text ← key_read_text fs ("keys/" +:+ n); json_loads text) = Ret key_data) as Hread.
  { by rewrite (key_read_text_plain fs n text). }
  unfold KeyManager.load_key.
  destruct Hcase as [(He1 & Hp)|[(He1 & He2 & Hp)|(He1 & He2 & Hp)]].
  - rewrite He1. cbn [negb]. rewrite He1. cbn [negb]. rewrite outcome_bind_ret.
    rewrite He1. cbn [negb]. rewrite Hp, Hread. done.
  - rewrite He1. cbn [negb]. rewrite He2. cbn [negb]. rewrite outcome_bind_ret.
    rewrite He2. cbn [negb]. rewrite Hp, Hread. done.
  - rewrite He1. cbn [negb]. rewrite He2. cbn [negb]. rewrite Hp, outcome_bind_ret.
    rewrite Hex. cbn [negb]. rewrite Hread. done.
Qed.

End key_store_facts.

(** X23: a key of 32 bytes that [save_key] has stored is found by
    [load_key] under the name of the file written: the file is among
    the key files of the directory, and [load_key] returns the key and
    the dictionary that was saved. *)
Theorem load_key_saved_file `{Cryptography} `{!HashlibContract} `{KeyStore}
    `{!KeyStoreContract} key name description w fs :
  List.length key = 32%nat →
  ∃ filename fs',
    KeyManager.save_key key name description w fs = (fs', Ret ("keys/" +:+ filename))
    ∧ filename ∈ key_glob fs'
    ∧ KeyManager.load_key filename fs' = Ret (key, saved_key_data key name description w).
Proof.
  intros Hlen.
  set (filename := KeyManager.key_filename name (KeyManager.get_key_fingerprint key)).
  destruct (key_filename_plain key name) as [Hplain Hend]. fold filename in Hplain, Hend.
  set (fs' := <["keys/" +:+ filename
                 := json_dumps_indent2 (saved_key_data key name description w)]> fs).
  exists filename, fs'. split; [apply save_key_ret|].
  assert (fs' !! ("keys/" +:+ filename)
          = Some (json_dumps_indent2 (saved_key_data key name description w))) as Hf
    by apply lookup_insert_eq.
  split.
  - apply key_glob_plain. split; [done|]. split; [done|]. rewrite Hf. eauto.
  - rewrite (load_key_at filename fs' filename _ (saved_key_data key name description w)
               Hplain Hf (saved_key_data_loads _ _ _ _)).
    + by rewrite string_to_key_of_saved.
    + left. rewrite key_path_plain by done. split; [|done].
      rewrite key_path_exists_plain by done. apply bool_decide_eq_true. rewrite Hf. eauto.
Qed.

Section key_scan.
Context `{Cryptography} `{KeyStore} `{!KeyStoreContract}.

(** The scan of [load_key] stops at the first file that matches, when
    the files before it parse. *)
Lemma find_key_file_first fs identifier filename text data filepath : ∀ keyfiles,
  filename ∈ keyfiles →
  plain_file_name filename → fs !! ("keys/" +:+ filename) = Some text →
  json_loads text = Ret data →
  dict_get "name" data = Some (JStr identifier)
  ∨ dict_get "fingerprint" data = Some (JStr identifier) →
  (∀ n, n ∈ keyfiles → n ≠ filename →
        plain_file_name n
        ∧ ∃ text' data', fs !! ("keys/" +:+ n) = Some text' ∧ json_loads text' = Ret data'
                         ∧ dict_get "name" data' ≠ Some (JStr identifier)
                         ∧ dict_get "fingerprint" data' ≠ Some (JStr identifier)) →
  KeyManager.find_key_file fs identifier keyfiles filepath = Ret ("keys/" +:+ filename).
Proof.
  intros keyfiles Hin Hplain Hf Hj Hmatch.
  induction keyfiles as [|n keyfiles IH]; [by apply elem_of_nil in Hin|].
  intros Hothers. cbn [KeyManager.find_key_file].
  destruct (decide (n = filename)) as [->|Hne].
  - rewrite (read_key_file fs filename text) by done. rewrite Hj, outcome_bind_ret.
    destruct Hmatch as [Hm|Hm].
    + by rewrite (bool_decide_eq_true_2 _ Hm).
    + rewrite (bool_decide_eq_true_2 _ Hm). by rewrite orb_true_r.
  - destruct (Hothers n) as (Hn & text' & data' & Hf' & Hj' & Hn1 & Hn2); [left|done|].
    rewrite (read_key_file fs n text') by done. rewrite Hj', outcome_bind_ret.
    rewrite (bool_decide_eq_false_2 _ Hn1), (bool_decide_eq_false_2 _ Hn2). cbn [orb].
    apply IH.
    + apply elem_of_cons in Hin as [?|?]; [by subst|done].
    + intros n' Hn' Hne'. apply Hothers; [by right|done].
Qed.

End key_scan.

Lemma Ret_inj {A} (a b : A) : Ret a = Ret b → a = b.
Proof. by intros [= ->]. Qed.

(** X24: a saved key of 32 bytes is found by its name: when no file
    of the directory is called [name] or [name.key.json], and the other
    key files parse and carry neither that name nor that fingerprint,
    the scan of [load_key] stops at the file [save_key] wrote and
    returns the key and the saved dictionary. *)
Theorem load_key_by_name `{Cryptography} `{!HashlibContract} `{KeyStore}
    `{!KeyStoreContract} key name description w fs fs' path :
  List.length key = 32%nat →
  KeyManager.save_key key name description w fs = (fs', Ret path) →
  key_path_exists fs' (key_path name) = false →
  key_path_exists fs' (key_path (name +:+ ".key.json")) = false →
  (∀ n, n ∈ key_glob fs → "keys/" +:+ n ≠ path →
        ∃ text data, fs !! ("keys/" +:+ n) = Some text ∧ json_loads text = Ret data
                     ∧ dict_get "name" data ≠ Some (JStr name)
                     ∧ dict_get "fingerprint" data ≠ Some (JStr name)) →
  KeyManager.load_key name fs' = Ret (key, saved_key_data key name description w).
Proof.
  intros Hlen Hsave He1 He2 Hothers.
  rewrite save_key_ret in Hsave.
  set (filename := KeyManager.key_filename name (KeyManager.get_key_fingerprint key)) in *.
  destruct (key_filename_plain key name) as [Hplain Hend]. fold filename in Hplain, Hend.
  pose proof (f_equal fst Hsave) as Hfs. cbn [fst] in Hfs.
  pose proof (f_equal snd Hsave) as Hp. cbn [snd] in Hp. apply Ret_inj in Hp.
  clear Hsave. subst fs' path.
  set (fs' := <["keys/" +:+ filename
                 := json_dumps_indent2 (saved_key_data key name description w)]> fs) in *.
  assert (fs' !! ("keys/" +:+ filename)
          = Some (json_dumps_indent2 (saved_key_data key name description w))) as Hf
    by apply lookup_insert_eq.
  rewrite (load_key_at name fs' filename _ (saved_key_data key name description w)
             Hplain Hf (saved_key_data_loads _ _ _ _)).
  { by rewrite string_to_key_of_saved. }
  right; right. split; [done|]. split; [done|].
  apply (find_key_file_first fs' name filename
           (json_dumps_indent2 (saved_key_data key name description w))
           (saved_key_data key name description w));
    try done.
  - apply key_glob_plain. split; [done|]. split; [done|]. rewrite Hf. eauto.
  - apply saved_key_data_loads.
  - by left.
  - intros n Hn Hne. apply key_glob_plain in Hn as (Hpn & Hen & Hsome).
    split; [done|].
    assert ("keys/" +:+ filename ≠ "keys/" +:+ n) as Hpne.
    { intros Heq. by apply keys_path_inj in Heq. }
    assert (fs' !! ("keys/" +:+ n) = fs !! ("keys/" +:+ n)) as Hfn
      by (by apply lookup_insert_ne).
    rewrite Hfn in Hsome |- *.
    destruct (Hothers n) as (text & data & Ht & Hj & Hn1 & Hn2).
    { apply key_glob_plain. done. }
    { intros Heq. by apply Hpne. }
    by exists text, data.
Qed.

Lemma string_to_key_ret key_string key :
  KeyManager.string_to_key key_string = Ret key →
  List.length key = 32%nat ∧ b64decode key_string = Ret key.
Proof.
  unfold KeyManager.string_to_key, KeyManager.KEY_SIZE, try_except.
  destruct (b64decode key_string) as [k|]; [|done]. cbn.
  case_bool_decide as Hn; [done|]. intros [= ->]. split; [|done].
  destruct (decide (List.length key = 32%nat)); [done|]. by destruct Hn.
Qed.

(** X25: whatever the directory holds, a key [load_key] returns has
    32 bytes and is the base64 decoding of the [key] entry of the
    metadata returned with it. *)
Theorem load_key_sound `{KeyStore} identifier fs key key_data :
  KeyManager.load_key identifier fs = Ret (key, key_data) →
  List.length key = 32%nat
  ∧ ∃ key_string,
      dict_get "key" key_data = Some (JStr key_string) ∧ b64decode key_string = Ret key.
Proof.
  unfold KeyManager.load_key.
  destruct (if negb (key_path_exists fs _) then _ else _) as [filepath|]; [|done].
  rewrite outcome_bind_ret. destruct (negb _); [done|].
  destruct (_ ← key_read_text fs filepath; _) as [data|]; [|done].
  rewrite outcome_bind_ret.
  destruct (KeyManager.string_to_key_of data) as [k|] eqn:Hk; [|done].
  rewrite outcome_bind_ret. intros [= -> ->].
  unfold KeyManager.string_to_key_of in Hk.
  destruct (dict_get "key" key_data) as [[key_string|]|]; [|done|done].
  destruct (string_to_key_ret key_string key Hk) as [Hlen Hdec]. eauto.
Qed.

Section key_delete.
Context `{KeyStore} `{!KeyStoreContract}.

(** What a run of the loop of [delete_key] that returns has done. *)
Lemma delete_first_ret fs identifier metadata : ∀ keyfiles r,
  (∀ n, n ∈ keyfiles → plain_file_name n ∧ is_Some (fs !! ("keys/" +:+ n))) →
  KeyManager.delete_first fs identifier metadata keyfiles = Ret r →
  (r = (fs, false) ∧ Forall (λ n, ¬ names_key identifier metadata n) keyfiles)
  ∨ ∃ before n after,
      keyfiles = before ++ n :: after
      ∧ Forall (λ m, ¬ names_key identifier metadata m) before
      ∧ names_key identifier metadata n
      ∧ r = (delete ("keys/" +:+ n) fs, true).
Proof.
  induction keyfiles as [|n keyfiles IH]; intros r Hfiles.
  { cbn. intros Hr. apply Ret_inj in Hr as <-. by left. }
  cbn [KeyManager.delete_first].
  destruct (Hfiles n) as [Hplain Hsome]; [left|].
  assert (key_unlink fs (KeyManager.KEYS_DIR +:+ "/" +:+ n)
          = Ret (delete ("keys/" +:+ n) fs)) as Hunlink.
  { change (KeyManager.KEYS_DIR +:+ "/" +:+ n) with ("keys/" +:+ n).
    by apply key_unlink_plain. }
  assert (∀ r', KeyManager.delete_first fs identifier metadata keyfiles = Ret r' →
                ¬ names_key identifier metadata n →
                (r' = (fs, false)
                 ∧ Forall (λ n, ¬ names_key identifier metadata n) (n :: keyfiles))
                ∨ ∃ before n' after,
                    n :: keyfiles = before ++ n' :: after
                    ∧ Forall (λ m, ¬ names_key identifier metadata m) before
                    ∧ names_key identifier metadata n'
                    ∧ r' = (delete ("keys/" +:+ n') fs, true)) as Hrest.
  { intros r' Hr' Hno. destruct (IH r') as [[-> Hall]|(before & n' & after & -> & Hb & Hn' & ->)];
      [intros; apply Hfiles; by right|done| |].
    - left. split; [done|]. by constructor.
    - right. exists (n :: before), n', after. split; [done|]. split; [by constructor|done]. }
  case_bool_decide as Hid.
  - rewrite outcome_bind_ret, Hunlink, outcome_bind_ret. intros Hr. apply Ret_inj in Hr as <-.
    right. exists [], n, keyfiles. split; [done|]. split; [constructor|]. split; [by left|done].
  - destruct (dict_get "fingerprint" metadata) as [[fingerprint|]|] eqn:Hfp; [|done|done].
    rewrite outcome_bind_ret. destruct (is_substring fingerprint n) eqn:Hsub.
    + rewrite Hunlink, outcome_bind_ret. intros Hr. apply Ret_inj in Hr as <-.
      right. exists [], n, keyfiles. split; [done|]. split; [constructor|].
      split; [|done]. right. by exists fingerprint.
    + intros Hr. apply Hrest; [done|]. intros [?|(fp & Hfp' & Hsub')]; [done|].
      rewrite Hfp in Hfp'. injection Hfp' as <-. by rewrite Hsub in Hsub'.
Qed.

(** The loop unlinks the file it is meant for when no file before it
    in the listing is taken for it. *)
Lemma delete_first_hit fs identifier metadata fingerprint filename : ∀ keyfiles,
  dict_get "fingerprint" metadata = Some (JStr fingerprint) →
  filename ∈ keyfiles →
  plain_file_name filename → is_Some (fs !! ("keys/" +:+ filename)) →
  filename = identifier ∨ is_substring fingerprint filename = true →
  (∀ n, n ∈ keyfiles → n ≠ filename →
        n ≠ identifier ∧ is_substring fingerprint n = false) →
  KeyManager.delete_first fs identifier metadata keyfiles
  = Ret (delete ("keys/" +:+ filename) fs, true).
Proof.
  intros keyfiles Hfp Hin Hplain Hsome Hhit.
  induction keyfiles as [|n keyfiles IH]; [by apply elem_of_nil in Hin|].
  intros Hothers. cbn [KeyManager.delete_first]. rewrite Hfp.
  destruct (decide (n = filename)) as [->|Hne].
  - change (KeyManager.KEYS_DIR +:+ "/" +:+ filename) with ("keys/" +:+ filename).
    rewrite (key_unlink_plain fs filename) by done.
    case_bool_decide as Hid; [by rewrite !outcome_bind_ret|].
    destruct Hhit as [?|Hsub]; [done|]. by rewrite outcome_bind_ret, Hsub, outcome_bind_ret.
  - destruct (Hothers n) as [Hid Hsub]; [left|done|].
    rewrite (bool_decide_eq_false_2 _ Hid), outcome_bind_ret, Hsub.
    apply IH.
    + apply elem_of_cons in Hin as [?|?]; [by subst|done].
    + intros n' Hn' Hne'. apply Hothers; [by right|done].
Qed.

End key_delete.

(** X26: [delete_key] removes at most one file, a key file of the
    directory.  On the answer [False] the directory is as it was.  On
    [True], [load_key] had found the key, and the file unlinked is the
    first of the listing whose name is the identifier or holds the
    [fingerprint] of the loaded metadata: it need not be the file
    [load_key] read. *)
Theorem delete_key_effect `{KeyStore} `{!KeyStoreContract} identifier fs fs' answer :
  KeyManager.delete_key identifier fs = (fs', answer) →
  if answer then
    ∃ key metadata before n after,
      KeyManager.load_key identifier fs = Ret (key, metadata)
      ∧ key_glob fs = before ++ n :: after
      ∧ Forall (λ m, ¬ names_key identifier metadata m) before
      ∧ names_key identifier metadata n
      ∧ fs' = delete ("keys/" +:+ n) fs
  else fs' = fs.
Proof.
  unfold KeyManager.delete_key.
  destruct (KeyManager.load_key identifier fs) as [[key metadata]|e] eqn:Hload.
  2:{ cbn. intros [= <- <-]. done. }
  rewrite outcome_bind_ret.
  destruct (KeyManager.delete_first fs identifier metadata (key_glob fs)) as [r|e] eqn:Hdel.
  2:{ intros [= <- <-]. done. }
  intros ->.
  destruct (delete_first_ret fs identifier metadata (key_glob fs) (fs', answer))
    as [[Hr _]|(before & n & after & Hglob & Hb & Hn & Hr)]; [|done| |].
  - intros n Hn. apply key_glob_plain in Hn as (? & ? & ?). done.
  - by injection Hr as -> ->.
  - injection Hr as -> ->. by exists key, metadata, before, n, after.
Qed.

Lemma is_substring_app s a b : is_substring s (a +:+ s +:+ b) = true.
Proof.
  induction a as [|c a IH].
  - change ("" +:+ s +:+ b) with (s +:+ b). pose proof (prefix_app s b) as Hp.
    destruct (s +:+ b); cbn [is_substring]; by rewrite Hp.
  - change (String c a +:+ s +:+ b) with (String c (a +:+ s +:+ b)).
    cbn [is_substring]. rewrite IH. apply orb_true_r.
Qed.

Lemma textfs_lookup_insert_eq (fs : textfs) p text : <[p:=text]> fs !! p = Some text.
Proof. apply lookup_insert_eq. Qed.

Lemma textfs_lookup_insert_ne (fs : textfs) p q text :
  p ≠ q → <[p:=text]> fs !! q = fs !! q.
Proof. apply lookup_insert_ne. Qed.

Section key_store_saved.
Context `{Cryptography} `{!HashlibContract} `{KeyStore} `{!KeyStoreContract}.

(** The key files of the store after [save_key]: the file written and
    the key files there were. *)
Lemma key_glob_saved key name description w fs n :
  n ∈ key_glob (KeyManager.save_key key name description w fs).1
  ↔ n = KeyManager.key_filename name (KeyManager.get_key_fingerprint key) ∨ n ∈ key_glob fs.
Proof.
  rewrite save_key_ret. cbn [fst].
  destruct (key_filename_plain key name) as [Hplain Hend].
  set (filename := KeyManager.key_filename name (KeyManager.get_key_fingerprint key)) in *.
  rewrite !key_glob_plain. split.
  - intros (Hpn & Hen & Hsome). destruct (decide (n = filename)) as [|Hne]; [by left|right].
    rewrite textfs_lookup_insert_ne in Hsome; [done|]. intros Heq. by apply keys_path_inj in Heq.
  - intros [->|(Hpn & Hen & Hsome)].
    + split; [done|]. split; [done|]. rewrite textfs_lookup_insert_eq. eauto.
    + split; [done|]. split; [done|].
      destruct (decide (n = filename)) as [->|Hne]; [rewrite textfs_lookup_insert_eq; eauto|].
      rewrite textfs_lookup_insert_ne; [done|]. intros Heq. by apply keys_path_inj in Heq.
Qed.

Lemma list_entries_elem fs n text data : ∀ keyfiles,
  n ∈ keyfiles → plain_file_name n → fs !! ("keys/" +:+ n) = Some text →
  json_loads text = Ret data →
  KeyManager.key_entry n data ∈ KeyManager.list_entries fs keyfiles.
Proof.
  intros keyfiles Hin Hplain Hf Hj.
  induction keyfiles as [|m keyfiles IH]; [by apply elem_of_nil in Hin|].
  cbn [KeyManager.list_entries].
  destruct (decide (m = n)) as [->|Hne].
  - rewrite (read_key_file fs n text) by done. rewrite Hj. left.
  - apply elem_of_cons in Hin as [?|Hin]; [by subst|].
    destruct (_ ← key_read_text fs _; _); [right|]; by apply IH.
Qed.

End key_store_saved.

(** X27: [delete_key] undoes [save_key]: when the file written is
    new, [load_key] finds the saved key under the identifier, and no
    other key file is called by the identifier or has the fingerprint
    in its name, [delete_key] answers [True] and leaves the directory
    as it was before the key was saved. *)
Theorem delete_key_saved `{Cryptography} `{!HashlibContract} `{KeyStore}
    `{!KeyStoreContract} key name description w fs fs' path identifier :
  KeyManager.save_key key name description w fs = (fs', Ret path) →
  fs !! path = None →
  KeyManager.load_key identifier fs' = Ret (key, saved_key_data key name description w) →
  (∀ n, n ∈ key_glob fs →
        n ≠ identifier ∧ is_substring (KeyManager.get_key_fingerprint key) n = false) →
  KeyManager.delete_key identifier fs' = (fs, true).
Proof.
  intros Hsave Hnew Hload Hothers.
  pose proof (key_glob_saved key name description w fs) as Hglob.
  rewrite Hsave in Hglob. cbn [fst] in Hglob.
  rewrite save_key_ret in Hsave.
  set (filename := KeyManager.key_filename name (KeyManager.get_key_fingerprint key)) in *.
  destruct (key_filename_plain key name) as [Hplain Hend]. fold filename in Hplain, Hend.
  pose proof (f_equal fst Hsave) as Hfs. cbn [fst] in Hfs.
  pose proof (f_equal snd Hsave) as Hp. cbn [snd] in Hp. apply Ret_inj in Hp.
  clear Hsave. subst path.
  assert (fs' !! ("keys/" +:+ filename)
          = Some (json_dumps_indent2 (saved_key_data key name description w))) as Hf.
  { rewrite <- Hfs. apply lookup_insert_eq. }
  unfold KeyManager.delete_key. rewrite Hload, outcome_bind_ret.
  rewrite (delete_first_hit fs' identifier _ (KeyManager.get_key_fingerprint key) filename).
  - f_equal. rewrite <- Hfs. by apply delete_insert_id.
  - done.
  - apply Hglob. by left.
  - done.
  - rewrite Hf. eauto.
  - right. unfold filename, KeyManager.key_filename.
    rewrite <- (string_append_assoc _ "_"). apply is_substring_app.
  - intros n Hn Hne. apply Hglob in Hn as [?|Hn]; [done|]. by apply Hothers.
Qed.

(** X28: a key saved is a key listed: after [save_key], [list_keys]
    has an entry with the name of the file written, and the name,
    description, fingerprint, creation time and algorithm that were
    saved.  The length of the key does not matter. *)
Theorem list_keys_saved `{Cryptography} `{!HashlibContract} `{KeyStore}
    `{!KeyStoreContract} key name description w fs :
  ∃ filename fs',
    KeyManager.save_key key name description w fs = (fs', Ret ("keys/" +:+ filename))
    ∧ [("file", JStr filename);
       ("name", JStr name);
       ("description", JStr description);
       ("fingerprint", JStr (KeyManager.get_key_fingerprint key));
       ("created", JStr (w_utcnow w));
       ("algorithm", JStr "AES-256-GCM")] ∈ KeyManager.list_keys fs'.
Proof.
  set (filename := KeyManager.key_filename name (KeyManager.get_key_fingerprint key)).
  destruct (key_filename_plain key name) as [Hplain Hend]. fold filename in Hplain, Hend.
  set (fs' := <["keys/" +:+ filename
                 := json_dumps_indent2 (saved_key_data key name description w)]> fs).
  exists filename, fs'. split; [apply save_key_ret|].
  assert (fs' !! ("keys/" +:+ filename)
          = Some (json_dumps_indent2 (saved_key_data key name description w))) as Hf
    by apply lookup_insert_eq.
  assert (KeyManager.key_entry filename (saved_key_data key name description w)
          = [("file", JStr filename);
             ("name", JStr name);
             ("description", JStr description);
             ("fingerprint", JStr (KeyManager.get_key_fingerprint key));
             ("created", JStr (w_utcnow w));
             ("algorithm", JStr "AES-256-GCM")]) as <-.
  { unfold KeyManager.key_entry, saved_key_data.
    rewrite dict_update_empty by (apply (bool_decide_unpack (NoDup _)); by vm_compute).
    clearbody filename. generalize (KeyManager.get_key_fingerprint key) (w_utcnow w).
    intros fp created. by vm_compute. }
  unfold KeyManager.list_keys.
  apply (list_entries_elem fs' filename
           (json_dumps_indent2 (saved_key_data key name description w))); [|done|done|].
  - rewrite merge_sort_Permutation. apply key_glob_plain.
    split; [done|]. split; [done|]. rewrite Hf. eauto.
  - apply saved_key_data_loads.
Qed.

Section key_missing.
Context `{KeyStore} `{!KeyStoreContract}.

Lemma find_key_file_none fs identifier filepath : ∀ keyfiles,
  (∀ n, n ∈ keyfiles →
        plain_file_name n
        ∧ ∃ text data, fs !! ("keys/" +:+ n) = Some text ∧ json_loads text = Ret data
                       ∧ dict_get "name" data ≠ Some (JStr identifier)
                       ∧ dict_get "fingerprint" data ≠ Some (JStr identifier)) →
  KeyManager.find_key_file fs identifier keyfiles filepath = Ret filepath.
Proof.
  induction keyfiles as [|n keyfiles IH]; [done|]. intros Hfiles.
  cbn [KeyManager.find_key_file].
  destruct (Hfiles n) as (Hn & text & data & Hf & Hj & Hn1 & Hn2); [left|].
  change (KeyManager.KEYS_DIR +:+ "/" +:+ n) with ("keys/" +:+ n).
  rewrite (key_read_text_plain fs n text) by done. rewrite outcome_bind_ret, Hj, outcome_bind_ret.
  rewrite (bool_decide_eq_false_2 _ Hn1), (bool_decide_eq_false_2 _ Hn2). cbn [orb].
  apply IH. intros n' Hn'. apply Hfiles. by right.
Qed.

End key_missing.

(** X29: a key that is not there: when no file of the directory is
    called [identifier] or [identifier.key.json] and every key file
    parses and carries another name and fingerprint, [load_key] raises
    [FileNotFoundError] with the message [Key not found: identifier],
    and [delete_key] answers [False] and changes nothing. *)
Theorem load_key_not_found `{KeyStore} `{!KeyStoreContract} identifier fs :
  key_path_exists fs (key_path identifier) = false →
  key_path_exists fs (key_path (identifier +:+ ".key.json")) = false →
  (∀ n, n ∈ key_glob fs →
        ∃ text data, fs !! ("keys/" +:+ n) = Some text ∧ json_loads text = Ret data
                     ∧ dict_get "name" data ≠ Some (JStr identifier)
                     ∧ dict_get "fingerprint" data ≠ Some (JStr identifier)) →
  KeyManager.load_key identifier fs
  = Raise (Exn FileNotFoundError ("Key not found: " +:+ identifier))
  ∧ KeyManager.delete_key identifier fs = (fs, false).
Proof.
  intros He1 He2 Hfiles.
  assert (KeyManager.load_key identifier fs
          = Raise (Exn FileNotFoundError ("Key not found: " +:+ identifier))) as Hload.
  { unfold KeyManager.load_key. rewrite He1. cbn [negb]. rewrite He2. cbn [negb].
    rewrite find_key_file_none.
    - rewrite outcome_bind_ret, He2. done.
    - intros n Hn. split; [|by apply Hfiles]. by apply key_glob_plain in Hn as (? & ? & ?). }
  split; [done|]. unfold KeyManager.delete_key. by rewrite Hload.
Qed.

Lemma load_key_saved_file_witness :
  ∃ filename fs',
    KeyManager.save_key key_1_32 "My key" "" sample_world other_key_store
      = (fs', Ret ("keys/" +:+ filename))
    ∧ filename ∈ key_glob fs'
    ∧ KeyManager.load_key filename fs'
      = Ret (key_1_32, saved_key_data key_1_32 "My key" "" sample_world).
Proof.
  apply (load_key_saved_file key_1_32 "My key" "" sample_world other_key_store).
  reflexivity.
Defined.

Lemma other_key_store_glob :
  key_glob other_key_store
  = [KeyManager.key_filename "Other" (KeyManager.get_key_fingerprint key_3_96)].
Proof. by vm_compute. Qed.

Lemma load_key_by_name_witness :
  KeyManager.load_key "My key"
    (KeyManager.save_key key_1_32 "My key" "" sample_world other_key_store).1
  = Ret (key_1_32, saved_key_data key_1_32 "My key" "" sample_world).
Proof.
  apply (load_key_by_name key_1_32 "My key" "" sample_world other_key_store _
           ("keys/" +:+ KeyManager.key_filename "My key"
                          (KeyManager.get_key_fingerprint key_1_32))).
  - reflexivity.
  - by rewrite save_key_ret.
  - by vm_compute.
  - by vm_compute.
  - intros n Hn _. rewrite other_key_store_glob in Hn.
    apply list_elem_of_singleton in Hn as ->.
    exists (json_dumps_indent2 (saved_key_data key_3_96 "Other" "a spare key" sample_world)),
      (saved_key_data key_3_96 "Other" "a spare key" sample_world).
    split; [by vm_compute|]. split; [apply saved_key_data_loads|].
    split; by vm_compute.
Defined.

Lemma load_key_sound_witness :
  List.length key_1_32 = 32%nat
  ∧ ∃ key_string,
      dict_get "key" (saved_key_data key_1_32 "My key" "" sample_world)
        = Some (JStr key_string)
      ∧ b64decode key_string = Ret key_1_32.
Proof.
  apply (load_key_sound "My key"
           (KeyManager.save_key key_1_32 "My key" "" sample_world other_key_store).1).
  by vm_compute.
Defined.

Lemma delete_key_effect_witness :
  ∃ key metadata before n after,
    KeyManager.load_key "My key"
      (KeyManager.save_key key_1_32 "My key" "" sample_world other_key_store).1
      = Ret (key, metadata)
    ∧ key_glob (KeyManager.save_key key_1_32 "My key" "" sample_world other_key_store).1
      = before ++ n :: after
    ∧ Forall (λ m, ¬ names_key "My key" metadata m) before
    ∧ names_key "My key" metadata n
    ∧ other_key_store
      = delete ("keys/" +:+ n)
          (KeyManager.save_key key_1_32 "My key" "" sample_world other_key_store).1.
Proof.
  apply (delete_key_effect "My key"
           (KeyManager.save_key key_1_32 "My key" "" sample_world other_key_store).1
           other_key_store true).
  apply (bool_decide_unpack _). by vm_compute.
Defined.

Lemma delete_key_saved_witness :
  KeyManager.delete_key "My key"
    (KeyManager.save_key key_1_32 "My key" "" sample_world other_key_store).1
  = (other_key_store, true).
Proof.
  apply (delete_key_saved key_1_32 "My key" "" sample_world other_key_store _
           ("keys/" +:+ KeyManager.key_filename "My key"
                          (KeyManager.get_key_fingerprint key_1_32))).
  - by rewrite save_key_ret.
  - by vm_compute.
  - by vm_compute.
  - intros n Hn. rewrite other_key_store_glob in Hn.
    apply list_elem_of_singleton in Hn as ->. split; by vm_compute.
Defined.

Lemma list_keys_saved_witness :
  ∃ filename fs',
    KeyManager.save_key key_1_32 "My key" "" sample_world other_key_store
      = (fs', Ret ("keys/" +:+ filename))
    ∧ [("file", JStr filename);
       ("name", JStr "My key");
       ("description", JStr "");
       ("fingerprint", JStr (KeyManager.get_key_fingerprint key_1_32));
       ("created", JStr (w_utcnow sample_world));
       ("algorithm", JStr "AES-256-GCM")] ∈ KeyManager.list_keys fs'.
Proof. apply (list_keys_saved key_1_32 "My key" "" sample_world other_key_store). Defined.

Lemma load_key_not_found_witness :
  KeyManager.load_key "My key" other_key_store
  = Raise (Exn FileNotFoundError "Key not found: My key")
  ∧ KeyManager.delete_key "My key" other_key_store = (other_key_store, false).
Proof.
  apply (load_key_not_found "My key" other_key_store).
  - by vm_compute.
  - by vm_compute.
  - intros n Hn. rewrite other_key_store_glob in Hn.
    apply list_elem_of_singleton in Hn as ->.
    exists (json_dumps_indent2 (saved_key_data key_3_96 "Other" "a spare key" sample_world)),
      (saved_key_data key_3_96 "Other" "a spare key" sample_world).
    split; [by vm_compute|]. split; [apply saved_key_data_loads|].
    split; by vm_compute.
Defined.
